(** * WannaCRI command-line front end: a shallow embedding

    The development follows [wannacri/wannacri.py]: the key parser
    [key_normalize], the path helpers [find_usm] and [dir_or_parent_dir],
    and the four commands [extract_usm], [create_usm], [probe_usm] and
    [encrypt_usm].  Python values are modelled as the code has them:
    [str] as [string] (and as the list of its code points where [int]
    and [repr] look at them one by one), [bytes] as [list byte], [int]
    as [Z], exceptions as a sum type, and the file system as an explicit
    tree that is threaded through every command.  The operating system is POSIX:
    paths are [posixpath] and [PurePosixPath], and [os.name] is not
    ["nt"]. *)

From Stdlib Require Import String Ascii List ZArith Lia Bool.
From Stdlib Require Import Strings.Byte DecimalString.
From Stdlib Require Import Sorting.Permutation.
Import ListNotations.
Local Open Scope string_scope.
Local Open Scope Z_scope.

(** ** Exceptions *)

(** The exception classes the front end raises, catches or lets through. *)
Inductive exn : Type :=
| ValueError (msg : string)
| NotImplementedError (msg : string)
| AttributeError (msg : string)
| TypeError (msg : string)
| FileNotFoundError (path : string)
| NotADirectoryError (path : string)
| IsADirectoryError (path : string)
| FileExistsError (path : string)
| RuntimeError (msg : string)
| FfmpegError (stderr : string).

Definition is_ValueError (e : exn) : bool :=
  match e with ValueError _ => true | _ => false end.

(** ** The interpreter

    What [int] and [repr] take from the interpreter they run in: the
    limit on the digits of a decimal conversion
    ([sys.get_int_max_str_digits()]; [0] where it is switched off, which
    is also how the versions of Python without the limit behave), and the
    rows of the Unicode database for the code points from 128 on, which
    differ from one version of Python to the next. *)
Class Interpreter : Type := {
  int_max_str_digits : Z;
  (** [_PyUnicode_IsWhitespace] *)
  unicode_isspace : N -> bool;
  (** [_PyUnicode_ToDecimalDigit]: the digit a decimal digit stands for *)
  unicode_todecimal : N -> option N;
  (** [_PyUnicode_IsPrintable] *)
  unicode_isprintable : N -> bool
}.

(** ** Code points

    Where the interpreter looks at a [str] one code point at a time, in
    [int] and in [repr], the [str] is the list of its code points.  A
    [string] stands for the [str] Python makes of its bytes when they
    come from the command line: UTF-8, with a byte that cannot be decoded
    kept as the surrogate [U+DC00 + byte]; and a [str] is written down as
    a [string] the same way back.  An ASCII [str] is the same text either
    way. *)
Definition pystr : Type := list N.

Definition continuation (b : N) : bool := ((128 <=? b) && (b <=? 191))%N.

(** The second byte of a sequence of three or of four: no overlong
    forms, no surrogates, nothing beyond [U+10FFFF]. *)
Definition second_of_three (b0 b1 : N) : bool :=
  (if b0 =? 224 then (160 <=? b1) && (b1 <=? 191)
   else if b0 =? 237 then (128 <=? b1) && (b1 <=? 159)
   else continuation b1)%N.

Definition second_of_four (b0 b1 : N) : bool :=
  (if b0 =? 240 then (144 <=? b1) && (b1 <=? 191)
   else if b0 =? 244 then (128 <=? b1) && (b1 <=? 143)
   else continuation b1)%N.

(** [os.fsdecode] *)
Fixpoint code_points (s : string) : pystr :=
  match s with
  | EmptyString => []
  | String c0 r0 =>
      let b0 := N_of_ascii c0 in
      if (b0 <? 128)%N then b0 :: code_points r0
      else
        match
          (if ((194 <=? b0) && (b0 <=? 223))%N then
             match r0 with
             | String c1 r1 =>
                 let b1 := N_of_ascii c1 in
                 if continuation b1
                 then Some ((b0 - 192) * 64 + (b1 - 128), code_points r1)%N
                 else None
             | _ => None
             end
           else if ((224 <=? b0) && (b0 <=? 239))%N then
             match r0 with
             | String c1 (String c2 r2) =>
                 let b1 := N_of_ascii c1 in
                 let b2 := N_of_ascii c2 in
                 if second_of_three b0 b1 && continuation b2
                 then Some ((b0 - 224) * 4096 + (b1 - 128) * 64 + (b2 - 128),
                            code_points r2)%N
                 else None
             | _ => None
             end
           else if ((240 <=? b0) && (b0 <=? 244))%N then
             match r0 with
             | String c1 (String c2 (String c3 r3)) =>
                 let b1 := N_of_ascii c1 in
                 let b2 := N_of_ascii c2 in
                 let b3 := N_of_ascii c3 in
                 if second_of_four b0 b1 && continuation b2 && continuation b3
                 then Some ((b0 - 240) * 262144 + (b1 - 128) * 4096
                            + (b2 - 128) * 64 + (b3 - 128),
                            code_points r3)%N
                 else None
             | _ => None
             end
           else None)
        with
        | Some (ch, rest) => ch :: rest
        | None => (56320 + b0)%N :: code_points r0
        end
  end.

Coercion code_points : string >-> pystr.

(** [os.fsencode] of one code point. *)
Definition utf8 (ch : N) : list N :=
  (if ch <? 128 then [ch]
   else if ch <? 2048 then [192 + ch / 64; 128 + ch mod 64]
   else if (56448 <=? ch) && (ch <=? 56575) then [ch - 56320]
   else if ch <? 65536 then
     [224 + ch / 4096; 128 + (ch / 64) mod 64; 128 + ch mod 64]
   else
     [240 + ch / 262144; 128 + (ch / 4096) mod 64; 128 + (ch / 64) mod 64;
      128 + ch mod 64])%N.

Definition text (u : pystr) : string :=
  string_of_list_ascii (map ascii_of_N (flat_map utf8 u)).

Definition string_of_nat (n : nat) : string :=
  DecimalString.NilEmpty.string_of_uint (Nat.to_uint n).

(** ** Python's [repr] of a [str]

    After [unicode_repr]: single quotes unless the text has a single
    quote and no double quote; the quote and the backslash escaped; tab,
    line feed and carriage return by their letters; the other control
    characters and what the database calls unprintable by [\x], [\u] or
    [\U] and lower-case hexadecimal digits. *)
Module PyRepr.
Section Repr.

Context {py : Interpreter}.

Definition hexdigit (n : N) : N :=
  (if n mod 16 <? 10 then 48 + n mod 16 else 87 + n mod 16)%N.

Definition backslash : N := 92%N.

Definition escape_x (ch : N) : pystr :=
  [backslash; 120%N; hexdigit (ch / 16); hexdigit ch].

Definition escape_u (ch : N) : pystr :=
  [backslash; 117%N; hexdigit (ch / 4096); hexdigit (ch / 256);
   hexdigit (ch / 16); hexdigit ch].

Definition escape_U (ch : N) : pystr :=
  [backslash; 85%N; hexdigit (ch / 268435456); hexdigit (ch / 16777216);
   hexdigit (ch / 1048576); hexdigit (ch / 65536); hexdigit (ch / 4096);
   hexdigit (ch / 256); hexdigit (ch / 16); hexdigit ch].

Definition repr_char (quote : N) (ch : N) : pystr :=
  (if (ch =? quote) || (ch =? backslash) then [backslash; ch]
   else if ch =? 9 then [backslash; 116]
   else if ch =? 10 then [backslash; 110]
   else if ch =? 13 then [backslash; 114]
   else if (ch <? 32) || (ch =? 127) then escape_x ch
   else if ch <? 127 then [ch]
   else if negb (unicode_isprintable ch) then
     if ch <=? 255 then escape_x ch
     else if ch <=? 65535 then escape_u ch
     else escape_U ch
   else [ch])%N.

Definition unicode_repr (u : pystr) : pystr :=
  let squote := existsb (N.eqb 39) u in
  let dquote := existsb (N.eqb 34) u in
  let quote := if squote && negb dquote then 34%N else 39%N in
  (quote :: flat_map (repr_char quote) u ++ [quote])%list.

End Repr.
End PyRepr.

(** ** Python's [int(x, base)] on a [str]

    [key_normalize] is two calls of the builtin, so the builtin is
    modelled after CPython.  [PyLong_FromUnicodeObject] first turns the
    [str] into an ASCII buffer
    ([_PyUnicode_TransformDecimalAndSpaceToASCII]); [PyLong_FromString]
    then reads the buffer: surrounding white space, one optional sign,
    the base prefix with one optional underscore behind it, digits with
    single underscores between them, for base 0 the rule that a literal
    with a leading zero must denote zero, and for a base that is no power
    of two the limit on the number of digits. *)
Module PyInt.
Section Int.

Context {py : Interpreter}.

(** [_Py_ascii_whitespace], the row of [Py_UNICODE_ISSPACE] below 128. *)
Definition ascii_whitespace (ch : N) : bool :=
  ((9 <=? ch) && (ch <=? 13) || (28 <=? ch) && (ch <=? 32))%N.

Definition Py_UNICODE_ISSPACE (ch : N) : bool :=
  if (ch <? 128)%N then ascii_whitespace ch else unicode_isspace ch.

(** Below 128 the decimal digits are [0] to [9] in every version of the
    database. *)
Definition Py_UNICODE_TODECIMAL (ch : N) : option N :=
  if (ch <? 128)%N then
    if ((48 <=? ch) && (ch <=? 57))%N then Some (ch - 48)%N else None
  else unicode_todecimal ch.

Definition is_ascii (u : pystr) : bool := forallb (fun ch => (ch <? 128)%N) u.

Definition chars (u : pystr) : string :=
  string_of_list_ascii (map ascii_of_N u).

(** The loop of the transformation: white space becomes a blank, a
    decimal digit its ASCII digit, and the buffer ends in [?] at the
    first code point that is neither. *)
Fixpoint transform_loop (u : pystr) : string :=
  match u with
  | [] => EmptyString
  | ch :: rest =>
      if (ch <? 127)%N then String (ascii_of_N ch) (transform_loop rest)
      else if Py_UNICODE_ISSPACE ch then String " " (transform_loop rest)
      else
        match Py_UNICODE_TODECIMAL ch with
        | Some decimal =>
            String (ascii_of_N (48 + decimal)) (transform_loop rest)
        | None => "?"
        end
  end.

(** [_PyUnicode_TransformDecimalAndSpaceToASCII]: an ASCII [str] is
    handed on as it is. *)
Definition TransformDecimalAndSpaceToASCII (u : pystr) : string :=
  if is_ascii u then chars u else transform_loop u.

(** [Py_ISSPACE] *)
Definition is_space (c : ascii) : bool :=
  let n := nat_of_ascii c in
  (Nat.leb 9 n && Nat.leb n 13) || Nat.eqb n 32.

Fixpoint lstrip (s : string) : string :=
  match s with
  | String c r => if is_space c then lstrip r else s
  | EmptyString => s
  end.

(** The value of a character as a digit, in any base up to 36. *)
Definition digit_value (c : ascii) : option Z :=
  let n := nat_of_ascii c in
  if Nat.leb 48 n && Nat.leb n 57 then Some (Z.of_nat n - 48)
  else if Nat.leb 97 n && Nat.leb n 122 then Some (Z.of_nat n - 87)
  else if Nat.leb 65 n && Nat.leb n 90 then Some (Z.of_nat n - 55)
  else None.

Definition is_digit (base : Z) (c : ascii) : bool :=
  match digit_value c with
  | Some d => d <? base
  | None => false
  end.

Definition is_underscore (c : ascii) : bool := Ascii.eqb c "_".

(** The digit loop: [prev_us] records that the previous character was an
    underscore, [acc] is the value so far and [n] the number of digits.
    [None] is the error exit (doubled or trailing underscore). *)
Fixpoint scan (base : Z) (prev_us : bool) (acc : Z) (n : nat) (s : string)
  : option (Z * nat * string) :=
  match s with
  | EmptyString => if prev_us then None else Some (acc, n, s)
  | String c r =>
      if is_underscore c then
        if prev_us then None else scan base true acc n r
      else
        match digit_value c with
        | Some d =>
            if d <? base then scan base false (acc * base + d) (S n) r
            else if prev_us then None else Some (acc, n, s)
        | None => if prev_us then None else Some (acc, n, s)
        end
  end.

(** The message of [PyLong_FromUnicodeObject]: the base as it was
    given, and the first 200 characters of the [repr] of the [str] as it
    was given. *)
Definition invalid_literal (u : pystr) (base : Z) : exn :=
  ValueError ("invalid literal for int() with base "
              ++ string_of_nat (Z.to_nat base) ++ ": "
              ++ text (firstn 200 (PyRepr.unicode_repr u))).

(** The message of the limit, in the words of Python 3.11. *)
Definition too_many_digits (digits : nat) : exn :=
  ValueError ("Exceeds the limit ("
              ++ string_of_nat (Z.to_nat int_max_str_digits)
              ++ " digits) for integer string conversion: value has "
              ++ string_of_nat digits
              ++ " digits; use sys.set_int_max_str_digits() to increase the limit").

Definition split_sign (s : string) : bool * string :=
  match s with
  | String "+" r => (false, r)
  | String "-" r => (true, r)
  | _ => (false, s)
  end.

(** Base 0 reads the base off the literal; the flag is CPython's
    [error_if_nonzero]. *)
Definition detect_base (base : Z) (s : string) : Z * bool :=
  if base =? 0 then
    match s with
    | String "0" (String c _) =>
        if Ascii.eqb c "x" || Ascii.eqb c "X" then (16, false)
        else if Ascii.eqb c "o" || Ascii.eqb c "O" then (8, false)
        else if Ascii.eqb c "b" || Ascii.eqb c "B" then (2, false)
        else (10, true)
    | String "0" EmptyString => (10, true)
    | _ => (10, false)
    end
  else (base, false).

Definition skip_underscore (s : string) : string :=
  match s with
  | String "_" r => r
  | _ => s
  end.

Definition strip_prefix (b : Z) (s : string) : string :=
  match s with
  | String "0" (String c r) =>
      if ((b =? 16) && (Ascii.eqb c "x" || Ascii.eqb c "X"))
         || ((b =? 8) && (Ascii.eqb c "o" || Ascii.eqb c "O"))
         || ((b =? 2) && (Ascii.eqb c "b" || Ascii.eqb c "B"))
      then skip_underscore r
      else s
  | _ => s
  end.

Definition starts_with_underscore (s : string) : bool :=
  match s with
  | String c _ => is_underscore c
  | EmptyString => false
  end.

Definition is_empty (s : string) : bool :=
  match s with EmptyString => true | _ => false end.

(** [(base & (base - 1)) == 0]: the bases the limit leaves alone. *)
Definition is_binary_base (b : Z) : bool := Z.land b (b - 1) =? 0.

(** More digits than [_PY_LONG_MAX_STR_DIGITS_THRESHOLD] and than the
    limit, where there is one. *)
Definition exceeds_limit (digits : nat) : bool :=
  (640 <? Z.of_nat digits) && (0 <? int_max_str_digits)
  && (int_max_str_digits <? Z.of_nat digits).

(** How [PyLong_FromString] ends: with a value, having read the buffer
    to its end; at [onError]; or at the limit. *)
Inductive parsed : Type :=
| Value (v : Z)
| Invalid
| TooManyDigits (digits : nat).

(** [PyLong_FromString].  A NUL in the buffer ends the C string; the
    caller then finds the end short of the buffer and raises the error
    of [onError], which is what happens here, where the NUL is a
    character that is neither a digit nor white space. *)
Definition PyLong_FromString (s : string) (base : Z) : parsed :=
  let '(neg, s2) := split_sign (lstrip s) in
  let '(b, error_if_nonzero) := detect_base base s2 in
  let s3 := strip_prefix b s2 in
  if starts_with_underscore s3 then Invalid
  else
    match scan b false 0 0 s3 with
    | None => Invalid
    | Some (v, n, rest) =>
        if negb (is_binary_base b) && exceeds_limit n then TooManyDigits n
        else if error_if_nonzero && negb (v =? 0) then Invalid
        else if Nat.eqb n 0 then Invalid
        else if is_empty (lstrip rest) then Value (if neg then - v else v)
        else Invalid
    end.

(** [int(x, base)] for a [str]. *)
Definition py_int (x : pystr) (base : Z) : exn + Z :=
  if (negb (base =? 0) && (base <? 2)) || (36 <? base) then
    inl (ValueError "int() base must be >= 2 and <= 36, or 0")
  else
    match PyLong_FromString (TransformDecimalAndSpaceToASCII x) base with
    | Value v => inr v
    | Invalid => inl (invalid_literal x base)
    | TooManyDigits digits => inl (too_many_digits digits)
    end.

End Int.
End PyInt.

(** ** [key_normalize] *)

Definition key_normalize {py : Interpreter} (key_str : pystr) : exn + Z :=
  match PyInt.py_int key_str 0 with
  | inr v => inr v
  | inl (ValueError _) =>
      (* Try again but this time we prepend a 0x and parse it as a hex *)
      let key_str := (code_points "0x" ++ key_str)%list in
      PyInt.py_int key_str 16
  | inl e => inl e
  end.

(** The two forms the command line documents for a key. *)
Fixpoint all_digits (base : Z) (s : string) : bool :=
  match s with
  | EmptyString => true
  | String c r => PyInt.is_digit base c && all_digits base r
  end.

Fixpoint digits_value (base : Z) (acc : Z) (s : string) : Z :=
  match s with
  | EmptyString => acc
  | String c r =>
      match PyInt.digit_value c with
      | Some d => digits_value base (acc * base + d) r
      | None => acc
      end
  end.

Definition head_is (c : ascii) (s : string) : bool :=
  match s with
  | String c' _ => Ascii.eqb c c'
  | EmptyString => false
  end.

(** A decimal numeral: digits only, at least one, no superfluous
    leading zero. *)
Definition decimal_form (s : string) : bool :=
  negb (PyInt.is_empty s) && all_digits 10 s
  && (negb (head_is "0" s) || String.eqb s "0").

(** Any run of decimal digits, leading zeros allowed. *)
Definition decimal_digits_form (s : string) : bool :=
  negb (PyInt.is_empty s) && all_digits 10 s.

(** A [0x]-prefixed hexadecimal numeral. *)
Definition hex_form (s : string) : bool :=
  match s with
  | String "0" (String "x" r) => negb (PyInt.is_empty r) && all_digits 16 r
  | _ => false
  end.

Definition fits_64_bits (v : Z) : bool := (0 <=? v) && (v <? 2 ^ 64).

(** A character that can stand in a literal of base 0 or 16: a
    hexadecimal digit, white space, a sign, an underscore, or the letter
    of a base prefix. *)
Definition literal_char (c : ascii) : bool :=
  PyInt.is_digit 16 c || PyInt.is_space c || PyInt.is_underscore c
  || Ascii.eqb c "+" || Ascii.eqb c "-"
  || Ascii.eqb c "x" || Ascii.eqb c "X" || Ascii.eqb c "o" || Ascii.eqb c "O".

(** A code point that can stand in no key: below 128 a character that is
    no [literal_char], from 128 on one that is neither white space nor a
    decimal digit. *)
Definition foreign {py : Interpreter} (ch : N) : bool :=
  if (ch <? 128)%N then negb (literal_char (ascii_of_N ch))
  else negb (unicode_isspace ch)
       && match unicode_todecimal ch with Some _ => false | None => true end.

(** Whether a buffer has a character that is not white space. *)
Fixpoint has_nonspace (s : string) : bool :=
  match s with
  | EmptyString => false
  | String c r => negb (PyInt.is_space c) || has_nonspace r
  end.

(** Whether every character of a text passes a test. *)
Fixpoint every (P : ascii -> bool) (s : string) : bool :=
  match s with
  | EmptyString => true
  | String c r => P c && every P r
  end.

(** What is left of a buffer behind its first run of characters that are
    not white space. *)
Fixpoint skip_nonspace (s : string) : string :=
  match s with
  | EmptyString => EmptyString
  | String c r => if PyInt.is_space c then s else skip_nonspace r
  end.

(** ** Text helpers *)

(** [s.split(sep)] for a one-character separator. *)
Fixpoint split (sep : ascii) (s : string) : list string :=
  match s with
  | EmptyString => [EmptyString]
  | String c r =>
      if Ascii.eqb c sep then EmptyString :: split sep r
      else
        match split sep r with
        | h :: t => String c h :: t
        | [] => [String c EmptyString]
        end
  end.

(** [c in s]. *)
Fixpoint contains (c : ascii) (s : string) : bool :=
  match s with
  | EmptyString => false
  | String c' r => Ascii.eqb c' c || contains c r
  end.

(** [s.endswith(suf)]. *)
Fixpoint ends_with (suf s : string) : bool :=
  String.eqb suf s
  || match s with
     | String _ r => ends_with suf r
     | EmptyString => false
     end.

(** [s.rfind(c)]: the index of the last occurrence, [-1] when there is
    none.  [i] is the index of the head of [s]. *)
Fixpoint rfind_from (c : ascii) (s : string) (i : Z) (last : Z) : Z :=
  match s with
  | EmptyString => last
  | String c' r => rfind_from c r (i + 1) (if Ascii.eqb c c' then i else last)
  end.

Definition rfind (c : ascii) (s : string) : Z := rfind_from c s 0 (-1).

(** The slices [p[:i]] and [p[i:]] for [0 <= i]. *)
Definition slice_to (p : string) (i : Z) : string :=
  substring 0 (Z.to_nat i) p.
Definition slice_from (p : string) (i : Z) : string :=
  substring (Z.to_nat i) (String.length p - Z.to_nat i) p.

(** [os.path.splitext] of [posixpath]: the loop skips the leading dots
    of the last component; [fuel] counts [dotIndex - filenameIndex]. *)
Fixpoint splitext_loop (p : string) (dotIndex filenameIndex : Z)
  (fuel : nat) : option (string * string) :=
  match fuel with
  | O => None
  | S k =>
      match String.get (Z.to_nat filenameIndex) p with
      | Some "."%char => splitext_loop p dotIndex (filenameIndex + 1) k
      | _ => Some (slice_to p dotIndex, slice_from p dotIndex)
      end
  end.

Definition splitext (p : string) : string * string :=
  let sepIndex := rfind "/" p in
  let dotIndex := rfind "." p in
  if sepIndex <? dotIndex then
    let filenameIndex := sepIndex + 1 in
    match splitext_loop p dotIndex filenameIndex
            (Z.to_nat (dotIndex - filenameIndex)) with
    | Some r => r
    | None => (p, EmptyString)
    end
  else (p, EmptyString).

(** ** [pathlib] paths (POSIX flavour)

    A pure path is its anchor and its parts; empty and [.] components
    are dropped when the path is built, [..] is kept. *)
Record path : Type := mkPath { anchored : bool; parts : list string }.

Definition keep_component (c : string) : bool :=
  negb (String.eqb c "" || String.eqb c ".").

Definition Path (s : string) : path :=
  {| anchored := head_is "/" s;
     parts := filter keep_component (split "/" s) |}.

Definition path_str (p : path) : string :=
  match parts p with
  | [] => if anchored p then "/" else "."
  | ps => (if anchored p then "/" else "") ++ String.concat "/" ps
  end.

Definition path_name (p : path) : string := last (parts p) "".

Definition path_parent (p : path) : path :=
  {| anchored := anchored p; parts := removelast (parts p) |}.

Definition joinpath (p : path) (other : string) : path :=
  let q := Path other in
  if anchored q then q
  else {| anchored := anchored p; parts := parts p ++ parts q |}.

(** The child [p / name] that [glob] builds for a directory entry. *)
Definition make_child_relpath (p : path) (name : string) : path :=
  {| anchored := anchored p; parts := parts p ++ [name] |}.

(** [..] folded away lexically, as [resolve()] does without symbolic links. *)
Fixpoint normalize (acc : list string) (comps : list string) : list string :=
  match comps with
  | [] => acc
  | c :: cs =>
      if String.eqb c ".." then normalize (removelast acc) cs
      else normalize (acc ++ [c]) cs
  end.

Definition path_resolve (cwd : list string) (p : path) : path :=
  {| anchored := true;
     parts := normalize (if anchored p then [] else cwd) (parts p) |}.

(** What [find_usm] hands out: the [str] it was given for a single file,
    [Path] objects for the children of a directory. *)
Inductive usmfile : Type :=
| UStr (s : string)
| UPath (p : path).

Definition fspath (f : usmfile) : string :=
  match f with
  | UStr s => s
  | UPath p => path_str p
  end.

(** [pathlib.PurePath(filepath).name]. *)
Definition usmfile_name (f : usmfile) : string :=
  match f with
  | UStr s => path_name (Path s)
  | UPath p => path_name p
  end.

(** [usmfile.parent]: only [Path] has the attribute. *)
Definition usmfile_parent (f : usmfile) : exn + path :=
  match f with
  | UStr _ => inl (AttributeError "'str' object has no attribute 'parent'")
  | UPath p => inr (path_parent p)
  end.

(** ** The file system

    A tree of directories and regular files.  A directory keeps its
    entries in enumeration order, which is the order [glob] and
    [listdir] report.  Symbolic links and permissions are not modelled. *)
#[warnings="-register-all"]
Inductive node : Type :=
| File (content : list byte)
| Dir (entries : list (string * node)).

Fixpoint find_entry (name : string) (es : list (string * node)) : option node :=
  match es with
  | [] => None
  | (k, v) :: r => if String.eqb k name then Some v else find_entry name r
  end.

Fixpoint set_entry (name : string) (n : node) (es : list (string * node))
  : list (string * node) :=
  match es with
  | [] => [(name, n)]
  | (k, v) :: r =>
      if String.eqb k name then (k, n) :: r else (k, v) :: set_entry name n r
  end.

(** The node at a location, a list of names from the root. *)
Fixpoint node_at (t : node) (loc : list string) : option node :=
  match loc with
  | [] => Some t
  | c :: cs =>
      match t with
      | Dir es =>
          match find_entry c es with
          | Some sub => node_at sub cs
          | None => None
          end
      | File _ => None
      end
  end.

(** Store [n] at [loc]; the parent of [loc] has to be a directory. *)
Fixpoint put_node (t : node) (loc : list string) (n : node) : node :=
  match loc with
  | [] => n
  | c :: cs =>
      match t with
      | Dir es =>
          match find_entry c es with
          | Some sub => Dir (set_entry c (put_node sub cs n) es)
          | None =>
              match cs with
              | [] => Dir (set_entry c n es)
              | _ :: _ => t
              end
          end
      | File _ => t
      end
  end.

(** Path resolution as the kernel does it: every step is taken from an
    existing directory; [pathname] is only carried for the error. *)
Fixpoint walk (root : node) (pathname : string) (loc : list string)
  (comps : list string) : exn + list string :=
  match comps with
  | [] => inr loc
  | c :: cs =>
      match node_at root loc with
      | Some (Dir _) =>
          if String.eqb c "" || String.eqb c "." then walk root pathname loc cs
          else if String.eqb c ".." then walk root pathname (removelast loc) cs
          else walk root pathname (loc ++ [c]) cs
      | Some (File _) => inl (NotADirectoryError pathname)
      | None => inl (FileNotFoundError pathname)
      end
  end.

Definition locate (root : node) (cwd : list string) (pathname : string)
  : exn + list string :=
  if PyInt.is_empty pathname then inl (FileNotFoundError pathname)
  else walk root pathname (if head_is "/" pathname then [] else cwd)
         (split "/" pathname).

(** [os.stat]. *)
Definition stat (root : node) (cwd : list string) (pathname : string)
  : exn + node :=
  match locate root cwd pathname with
  | inl e => inl e
  | inr loc =>
      match node_at root loc with
      | Some n => inr n
      | None => inl (FileNotFoundError pathname)
      end
  end.

(** [os.path.isfile], [os.path.isdir]: false on any error. *)
Definition isfile (root : node) (cwd : list string) (pathname : string) : bool :=
  match stat root cwd pathname with
  | inr (File _) => true
  | _ => false
  end.

Definition isdir (root : node) (cwd : list string) (pathname : string) : bool :=
  match stat root cwd pathname with
  | inr (Dir _) => true
  | _ => false
  end.

(** [open(pathname, "rb").read(n)]. *)
Definition read_prefix (root : node) (cwd : list string) (pathname : string)
  (n : nat) : exn + list byte :=
  match stat root cwd pathname with
  | inl e => inl e
  | inr (Dir _) => inl (IsADirectoryError pathname)
  | inr (File content) => inr (firstn n content)
  end.

(** [open(pathname, "wb")]: the location of the file, created or
    truncated, and the new tree. *)
Definition open_wb (root : node) (cwd : list string) (pathname : string)
  : exn + (list string * node) :=
  match locate root cwd pathname with
  | inl e => inl e
  | inr loc =>
      match node_at root loc with
      | Some (Dir _) => inl (IsADirectoryError pathname)
      | _ => inr (loc, put_node root loc (File []))
      end
  end.

(** [f.write(data)] on a file opened for writing at [loc]. *)
Definition append_at (root : node) (loc : list string) (data : list byte) : node :=
  match node_at root loc with
  | Some (File content) => put_node root loc (File (content ++ data))
  | _ => root
  end.

(** [fnmatch] against the pattern [*.usm]. *)
Definition matches_usm_glob (name : string) : bool := ends_with ".usm" name.

(** [list(Path(directory).glob('*.usm'))]: the matching entries of the
    directory itself, in enumeration order; nothing when [p] is not a
    directory. *)
Definition glob_usm (root : node) (cwd : list string) (p : path) : list path :=
  match stat root cwd (path_str p) with
  | inr (Dir es) =>
      map (fun e => make_child_relpath p (fst e))
          (filter (fun e => matches_usm_glob (fst e)) es)
  | _ => []
  end.

(** ** The core the front end drives

    [wannacri.usm] and [wannacri.codec] are imported by the front end and
    are not part of it.  Their entry points are the fields of an
    interface; the container itself is a record with the fields the
    front end reads and assigns. *)
Inductive OpMode : Type := NONE | ENCRYPT | DECRYPT.

Inductive Sofdec2Codec : Type :=
| VP9
| H264
| OtherCodec (tag : string).

(** Modelled from the spec: the container class [Usm] of [wannacri.usm],
    which "owns an ordered list of VideoStream, an ordered list of
    AudioStream, ... optional [video_key] and [audio_key]".  [usm_source]
    is the file a container was opened from, if any. *)
Record Usm (Video Audio KeyMaterial : Type) : Type := mkUsm {
  usm_source : option string;
  usm_videos : list Video;
  usm_audios : list Audio;
  video_key : option KeyMaterial;
  audio_key : option KeyMaterial
}.
Arguments mkUsm {Video Audio KeyMaterial}.
Arguments usm_source {Video Audio KeyMaterial}.
Arguments usm_videos {Video Audio KeyMaterial}.
Arguments usm_audios {Video Audio KeyMaterial}.
Arguments video_key {Video Audio KeyMaterial}.
Arguments audio_key {Video Audio KeyMaterial}.

(** The arguments [demux] is called with. *)
Record demux_args : Type := mkDemuxArgs {
  demux_path : string;
  save_video : bool;
  save_audio : bool;
  save_pages : bool;
  folder_name : option path
}.

Class UsmCore : Type := {
  Video : Type;
  Audio : Type;
  KeyMaterial : Type;
  (** [is_usm(magic)] *)
  is_usm : list byte -> bool;
  (** [generate_keys(key)] *)
  generate_keys : option Z -> exn + (KeyMaterial * KeyMaterial);
  (** [Sofdec2Codec.from_file(path)] *)
  codec_from_file : node -> list string -> string -> exn + Sofdec2Codec;
  (** [Vp9(path, ffprobe_path=...)], [H264(path, ffprobe_path=...)], [HCA(path)] *)
  Vp9 : node -> list string -> string -> option string -> exn + Video;
  H264_ : node -> list string -> string -> option string -> exn + Video;
  HCA : node -> list string -> string -> exn + Audio;
  (** [Usm(videos=..., audios=..., key=...)] *)
  Usm_new : list Video -> option (list Audio) -> option Z
            -> exn + Usm Video Audio KeyMaterial;
  (** [Usm.open(path, encoding=..., key=...)] *)
  Usm_open : node -> list string -> usmfile -> option string -> option Z
             -> exn + Usm Video Audio KeyMaterial;
  (** [usm.demux(...)]: the video and audio paths, and the tree with the
      files it saved. *)
  Usm_demux : Usm Video Audio KeyMaterial -> node -> list string -> demux_args
              -> (exn + (list string * list string)) * node;
  (** [usm.stream(mode, encoding=...)]: the packets the generator yields
      and the exception that ends it early, if any. *)
  Usm_stream : Usm Video Audio KeyMaterial -> OpMode -> string
               -> list (list byte) * option exn;
  (** [ffmpeg.probe(file, ...)] succeeds or raises. *)
  ffmpeg_probe : node -> list string -> string -> option exn
}.

(** The container type of a given core. *)
Definition container {core : UsmCore} : Type := Usm Video Audio KeyMaterial.

(** ** The front end *)
Section FrontEnd.

Context {core : UsmCore}.

(** What a command does that can be observed: text on standard output,
    calls into the core, writes to files, log records. *)
Inductive event : Type :=
| EvPrint (text : string)
| EvUsmOpen (f : usmfile) (encoding : option string) (key : option Z)
| EvDemux (u : container) (a : demux_args)
| EvStream (u : container) (mode : OpMode) (encoding : string)
| EvWrite (pathname : string) (data : list byte)
| EvLog (logname : string) (level : string) (msg : string)
| EvProbe (file : string).

(** A container operation is a call of [Usm.open], [demux] or [stream]. *)
Definition is_container_op (e : event) : bool :=
  match e with
  | EvUsmOpen _ _ _ | EvDemux _ _ | EvStream _ _ _ => true
  | _ => false
  end.

Definition is_write (e : event) : bool :=
  match e with EvWrite _ _ => true | _ => false end.

(** The state a command runs in; [trace] has the oldest event first and
    [entropy] feeds [random.choices]. *)
Record world : Type := mkWorld {
  root : node;
  cwd : list string;
  trace : list event;
  entropy : list string
}.

(** Commands: state passing with exceptions; the state survives a raise. *)
Definition M (A : Type) : Type := world -> (exn + A) * world.

Definition ret {A} (a : A) : M A := fun w => (inr a, w).

Definition raise {A} (e : exn) : M A := fun w => (inl e, w).

Definition bind {A B} (c : M A) (k : A -> M B) : M B :=
  fun w =>
    match c w with
    | (inr a, w') => k a w'
    | (inl e, w') => (inl e, w')
    end.

(** [try: c  except <the classes h answers to>: h e]. *)
Definition try_except {A} (c : M A) (h : exn -> option (M A)) : M A :=
  fun w =>
    match c w with
    | (inr a, w') => (inr a, w')
    | (inl e, w') =>
        match h e with
        | Some handler => handler w'
        | None => (inl e, w')
        end
    end.

Definition lift {A} (r : exn + A) : M A := fun w => (r, w).

Definition emit (e : event) : M unit :=
  fun w => (inr tt, mkWorld (root w) (cwd w) (trace w ++ [e]) (entropy w)).

Definition set_root (t : node) : M unit :=
  fun w => (inr tt, mkWorld t (cwd w) (trace w) (entropy w)).

Definition get_world : M world := fun w => (inr w, w).

End FrontEnd.

Declare Scope cmd_scope.
Delimit Scope cmd_scope with cmd.
Notation "x <- c ;; k" := (bind c (fun x => k))
  (at level 61, c at next level, right associativity) : cmd_scope.
Notation "' pat <- c ;; k" := (bind c (fun x => match x with pat => k end))
  (at level 61, pat pattern, c at next level, right associativity) : cmd_scope.
Notation "c ;; k" := (bind c (fun _ => k))
  (at level 61, right associativity) : cmd_scope.
Local Open Scope cmd_scope.

Section Commands.

Context {core : UsmCore}.

Definition nl : string := String (ascii_of_nat 10) EmptyString.

(** [print(text)] and [print(text, end="")]. *)
Definition print (text : string) : M unit := emit (EvPrint (text ++ nl)).
Definition print_end (text : string) (e : string) : M unit :=
  emit (EvPrint (text ++ e)).

Fixpoint for_each {A} (l : list A) (body : A -> M unit) : M unit :=
  match l with
  | [] => ret tt
  | a :: r => body a ;; for_each r body
  end.

Fixpoint map_each {A B} (l : list A) (body : A -> M B) : M (list B) :=
  match l with
  | [] => ret []
  | a :: r => b <- body a ;; bs <- map_each r body ;; ret (b :: bs)
  end.

(** [with open(pathname, "rb") as test: test.read(4)] *)
Definition read_magic (pathname : string) : M (list byte) :=
  w <- get_world ;;
  lift (read_prefix (root w) (cwd w) pathname 4).

(** The loop of [find_usm] over the globbed files. *)
Fixpoint find_usm_loop (files : list path) (usmfiles : list usmfile)
  : M (list usmfile) :=
  match files with
  | [] => ret usmfiles
  | f :: rest =>
      magic <- read_magic (path_str f) ;;
      if is_usm magic then find_usm_loop rest (usmfiles ++ [UPath f])%list
      else find_usm_loop rest usmfiles
  end.

(** [find_usm(directory)] *)
Definition find_usm (directory : string) : M (list usmfile) :=
  w <- get_world ;;
  if isfile (root w) (cwd w) directory then
    magic <- read_magic directory ;;
    if negb (is_usm magic) then raise (ValueError "Not a usm file.")
    else ret [UStr directory]
  else
    print_end "Finding USM files... " "" ;;
    let files := glob_usm (root w) (cwd w) (Path directory) in
    usmfiles <- find_usm_loop files [] ;;
    print ("Found " ++ string_of_nat (List.length usmfiles)) ;;
    ret usmfiles.

(** Whether a globbed file passes the signature test of [find_usm]. *)
Definition passes_is_usm (t : node) (cwd : list string) (f : path) : bool :=
  match read_prefix t cwd (path_str f) 4 with
  | inr magic => is_usm magic
  | inl _ => false
  end.

Definition is_regular_file (t : node) (cwd : list string) (f : path) : bool :=
  isfile t cwd (path_str f).

(** [find_ffprobe(path)] on a system whose [os.name] is not ["nt"]. *)
Definition find_ffprobe (path : string) : M (option string) := ret None.

(** [dir_or_parent_dir(path)] *)
Definition dir_or_parent_dir (pathname : string) : M path :=
  w <- get_world ;;
  let path := Path pathname in
  if isdir (root w) (cwd w) (path_str path) then
    ret (path_resolve (cwd w) (path_parent path))
  else ret path.

(** Calls into the core, each recorded in the trace before it runs. *)
Definition usm_open (f : usmfile) (encoding : option string) (key : option Z)
  : M container :=
  emit (EvUsmOpen f encoding key) ;;
  w <- get_world ;;
  lift (Usm_open (root w) (cwd w) f encoding key).

Definition usm_demux (u : container) (a : demux_args)
  : M (list string * list string) :=
  emit (EvDemux u a) ;;
  w <- get_world ;;
  let '(r, t) := Usm_demux u (root w) (cwd w) a in
  set_root t ;;
  lift r.

(** [with open(dest, "wb") as f: for packet in usm.stream(mode,
    encoding=encoding): f.write(packet)]: the file is created or
    truncated first, every packet yielded is written, and an exception of
    the generator leaves what was written so far. *)
Definition write_packets (dest : string) (loc : list string)
  (packets : list (list byte)) : M unit :=
  for_each packets (fun packet =>
    w <- get_world ;;
    set_root (append_at (root w) loc packet) ;;
    emit (EvWrite dest packet)).

Definition write_stream (dest : string) (u : container) (mode : OpMode)
  (encoding : string) : M unit :=
  w <- get_world ;;
  '(loc, t) <- lift (open_wb (root w) (cwd w) dest) ;;
  set_root t ;;
  emit (EvStream u mode encoding) ;;
  let '(packets, failure) := Usm_stream u mode encoding in
  write_packets dest loc packets ;;
  match failure with
  | Some e => raise e
  | None => ret tt
  end.

(** The tree after the packets were written at [loc]. *)
Definition written (t : node) (loc : list string) (packets : list (list byte)) : node :=
  fold_left (fun t packet => append_at t loc packet) packets t.

(** [usm.video_key, usm.audio_key = generate_keys(key)] *)
Definition install_keys (u : container) (key : option Z) : exn + container :=
  match generate_keys key with
  | inl e => inl e
  | inr (vk, ak) =>
      inr (mkUsm (usm_source u) (usm_videos u) (usm_audios u) (Some vk) (Some ak))
  end.

(** The worker of [extract_usm]. *)
Definition process_usm (output : string) (key : option Z) (encoding : string)
  (pages : bool) (usmfile : usmfile) : M unit :=
  try_except
    (u <- usm_open usmfile (Some encoding) key ;;
     folder <- lift (usmfile_parent usmfile) ;;
     _ <- usm_demux u (mkDemuxArgs output true true pages (Some folder)) ;;
     ret tt)
    (fun e =>
       match e with
       | ValueError _ =>
           Some (print "ERROR" ;;
                 print ("Please run probe on " ++ fspath usmfile))
       | _ => None
       end).

(** What the handler of [process_usm] prints for a file. *)
Definition error_lines (f : usmfile) : list event :=
  [EvPrint (String.append "ERROR" nl);
   EvPrint (String.append (String.append "Please run probe on " (fspath f)) nl)].

(** [executor.submit(fn, arg)]: whatever the task raises is kept in its
    future. *)
Definition submit {A} (task : M A) : M (exn + A) :=
  fun w => let '(r, w') := task w in (inr r, w').

(** [extract_usm]; the tasks of the pool are run one after the other in
    submission order, and no future is ever asked for its result. *)
Definition extract_usm (input output : string) (key : option Z)
  (encoding : string) (pages : bool) (workers : Z) : M unit :=
  usmfiles <- find_usm input ;;
  (if workers <=? 0
   then raise (ValueError "max_workers must be greater than 0")
   else ret tt) ;;
  _ <- map_each usmfiles (fun f => submit (process_usm output key encoding pages f)) ;;
  ret tt.

(** [if input_audio:] *)
Definition truthy (s : option string) : option string :=
  match s with
  | Some EmptyString => None
  | other => other
  end.

(** [create_usm] *)
Definition create_usm (input : string) (input_audio output : option string)
  (ffprobe : string) (key : option Z) (encoding : string) : M unit :=
  ffprobe_path <- find_ffprobe ffprobe ;;
  w <- get_world ;;
  codec <- lift (codec_from_file (root w) (cwd w) input) ;;
  video <-
    match codec with
    | VP9 => lift (Vp9 (root w) (cwd w) input ffprobe_path)
    | H264 => lift (H264_ (root w) (cwd w) input ffprobe_path)
    | OtherCodec _ =>
        raise (NotImplementedError "Non-Vp9/H.264 files are not yet implemented.")
    end ;;
  audios <-
    match truthy input_audio with
    | Some a => audio <- lift (HCA (root w) (cwd w) a) ;; ret (Some [audio])
    | None => ret None
    end ;;
  let filename := fst (splitext input) in
  u <- lift (Usm_new [video] audios key) ;;
  let mode := match key with None => NONE | Some _ => ENCRYPT end in
  write_stream (filename ++ ".usm") u mode encoding ;;
  print "Done creating USM file.".

(** The pieces of [create_usm] by name: the video built for a probed
    codec, the audio list, the mode and the file it writes. *)
Definition video_for (w : world) (input : string) (codec : Sofdec2Codec)
  : exn + Video :=
  match codec with
  | VP9 => Vp9 (root w) (cwd w) input None
  | H264 => H264_ (root w) (cwd w) input None
  | OtherCodec _ =>
      inl (NotImplementedError "Non-Vp9/H.264 files are not yet implemented.")
  end.

Definition audios_for (w : world) (input_audio : option string)
  : exn + option (list Audio) :=
  match truthy input_audio with
  | Some a =>
      match HCA (root w) (cwd w) a with
      | inl e => inl e
      | inr audio => inr (Some [audio])
      end
  | None => inr None
  end.

Definition create_mode (key : option Z) : OpMode :=
  match key with
  | None => NONE
  | Some _ => ENCRYPT
  end.

Definition create_destination (input : string) : string :=
  fst (splitext input) ++ ".usm".

(** What a run from [w] to [w'] added to the trace, and the calls of
    [stream] and the writes among some events. *)
Definition new_events (w w' : world) : list event :=
  skipn (List.length (trace w)) (trace w').

Definition stream_calls (es : list event) : list (container * OpMode * string) :=
  flat_map (fun e => match e with
                     | EvStream u mode encoding => [(u, mode, encoding)]
                     | _ => []
                     end) es.

Definition writes (es : list event) : list (string * list byte) :=
  flat_map (fun e => match e with
                     | EvWrite pathname data => [(pathname, data)]
                     | _ => []
                     end) es.

(** Both keys, or neither. *)
Definition keys_installed (u : container) : bool :=
  match video_key u, audio_key u with
  | Some _, Some _ => true
  | _, _ => false
  end.

Definition keys_absent (u : container) : bool :=
  match video_key u, audio_key u with
  | None, None => true
  | _, _ => false
  end.

(** Modelled from the spec: what the constructor [Usm(videos=...,
    audios=..., key=...)] of [wannacri.usm] does with its key.
    "[video_key] and [audio_key] are either both present (encrypted) or
    both absent (plain)": both present on a container built with a key,
    both absent on one built without. *)
Definition constructor_installs_key : Prop :=
  forall (videos : list Video) (audios : option (list Audio)) (key : option Z)
         (u : container),
    Usm_new videos audios key = inr u ->
    match key with
    | Some _ => keys_installed u = true
    | None => keys_absent u = true
    end.

(** [outdir.joinpath(filename)] for [filename = PurePath(filepath).name]. *)
Definition encrypt_destination (outdir : path) (filepath : usmfile) : string :=
  path_str (joinpath outdir (usmfile_name filepath)).

(** The body of the loop of [encrypt_usm]. *)
Definition encrypt_one (outdir : path) (key : option Z) (encoding : string)
  (filepath : usmfile) : M unit :=
  u <- usm_open filepath None None ;;
  u <- lift (install_keys u key) ;;
  write_stream (encrypt_destination outdir filepath) u ENCRYPT encoding.

(** [encrypt_usm] *)
Definition encrypt_usm (input : string) (output : option string)
  (key : option Z) (encoding : string) : M unit :=
  outdir <-
    match output with
    | None => dir_or_parent_dir input
    | Some o => ret (Path o)
    end ;;
  usmfiles <- find_usm input ;;
  for_each usmfiles (encrypt_one outdir key encoding).

(** *** What [probe_usm] needs of [os], [tempfile] and [shutil] *)

Definition remove_entry (name : string) (es : list (string * node))
  : list (string * node) :=
  filter (fun e => negb (String.eqb (fst e) name)) es.

Fixpoint remove_node (t : node) (loc : list string) : node :=
  match loc with
  | [] => t
  | c :: cs =>
      match t with
      | Dir es =>
          match cs with
          | [] => Dir (remove_entry c es)
          | _ :: _ =>
              match find_entry c es with
              | Some sub => Dir (set_entry c (remove_node sub cs) es)
              | None => t
              end
          end
      | File _ => t
      end
  end.

(** [os.makedirs(pathname, exist_ok=True)] *)
Fixpoint makedirs_from (t : node) (pathname : string) (loc : list string)
  (comps : list string) : exn + node :=
  match comps with
  | [] => inr t
  | c :: cs =>
      if String.eqb c "" || String.eqb c "." then makedirs_from t pathname loc cs
      else if String.eqb c ".." then makedirs_from t pathname (removelast loc) cs
      else
        let loc' := (loc ++ [c])%list in
        match node_at t loc' with
        | Some (Dir _) => makedirs_from t pathname loc' cs
        | Some (File _) =>
            match cs with
            | [] => inl (FileExistsError pathname)
            | _ :: _ => inl (NotADirectoryError pathname)
            end
        | None => makedirs_from (put_node t loc' (Dir [])) pathname loc' cs
        end
  end.

Definition makedirs (pathname : string) : M unit :=
  w <- get_world ;;
  if PyInt.is_empty pathname then raise (FileNotFoundError pathname)
  else
    t <- lift (makedirs_from (root w) pathname
                 (if head_is "/" pathname then [] else cwd w)
                 (split "/" pathname)) ;;
    set_root t.

(** [random.choices(...)] joined: the next string of the entropy. *)
Definition random_str : M string :=
  fun w => (inr (hd "" (entropy w)),
            mkWorld (root w) (cwd w) (trace w) (tl (entropy w))).

(** [tempfile.mkdtemp()]: a fresh directory under [/tmp]. *)
Definition mkdtemp : M string :=
  r <- random_str ;;
  w <- get_world ;;
  let name := "tmp" ++ r in
  match node_at (root w) ["tmp"] with
  | Some (Dir es) =>
      match find_entry name es with
      | None =>
          set_root (put_node (root w) ["tmp"; name] (Dir [])) ;;
          ret ("/tmp/" ++ name)
      | Some _ => raise (FileExistsError ("/tmp/" ++ name))
      end
  | _ => raise (FileNotFoundError "/tmp")
  end.

(** [shutil.rmtree(pathname)] *)
Definition rmtree (pathname : string) : M unit :=
  w <- get_world ;;
  loc <- lift (locate (root w) (cwd w) pathname) ;;
  match node_at (root w) loc with
  | Some (Dir _) => set_root (remove_node (root w) loc)
  | Some (File _) => raise (NotADirectoryError pathname)
  | None => raise (FileNotFoundError pathname)
  end.

(** [os.listdir(pathname)] *)
Definition listdir (pathname : string) : M (list string) :=
  w <- get_world ;;
  n <- lift (stat (root w) (cwd w) pathname) ;;
  match n with
  | Dir es => ret (map fst es)
  | File _ => raise (NotADirectoryError pathname)
  end.

(** [os.path.basename] and [os.path.join] of [posixpath]. *)
Definition basename (p : string) : string := slice_from p (rfind "/" p + 1).

Definition path_join (a b : string) : string :=
  if head_is "/" b then b
  else if PyInt.is_empty a || ends_with "/" a then a ++ b
  else a ++ "/" ++ b.

Definition logging (logname level msg : string) : M unit :=
  emit (EvLog logname level msg).

(** [for f in files: ffmpeg.probe(f, ...)] *)
Definition probe_all (logname what : string) (files : list string) : M unit :=
  for_each files (fun f =>
    emit (EvProbe f) ;;
    w <- get_world ;;
    match ffmpeg_probe (root w) (cwd w) f with
    | Some e => raise e
    | None => logging logname "INFO" what
    end).

(** The handlers of the two probing loops; [true] stands for [continue]. *)
Definition probe_guard (logname what : string) (c : M unit) : M bool :=
  try_except (c ;; ret false)
    (fun e =>
       match e with
       | ValueError _ | RuntimeError _ =>
           Some (logging logname "ERROR"
                   ("Program error occurred in ffmpeg probe in " ++ what) ;;
                 ret true)
       | FfmpegError _ =>
           Some (logging logname "ERROR"
                   ("FFmpeg error occurred in ffmpeg probe in " ++ what ++ ".") ;;
                 ret true)
       | _ => None
       end).

Definition on_ValueError {A} (c : M A) (handler : M (option A)) : M (option A) :=
  try_except (a <- c ;; ret (Some a))
    (fun e => match e with ValueError _ => Some handler | _ => None end).

(** The body of the loop of [probe_usm]. *)
Definition probe_one (input output temp_dir encoding : string)
  (total : nat) (i : nat) (usmfile : usmfile) : M unit :=
  print ("Processing " ++ string_of_nat (i + 1) ++ " of " ++ string_of_nat total) ;;
  let filename := basename (fspath usmfile) in
  r <- random_str ;;
  let logname := path_join output (filename ++ "_" ++ r ++ ".log") in
  w <- get_world ;;
  '(_, t) <- lift (open_wb (root w) (cwd w) logname) ;;
  set_root t ;;
  (match usmfile with
   | UStr _ => logging logname "INFO" "Info"
   | UPath _ => raise (TypeError "replace() takes 2 positional arguments but 3 were given")
   end) ;;
  opened <- on_ValueError (usm_open usmfile (Some encoding) None)
              (logging logname "ERROR" "Error occurred in parsing usm file" ;; ret None) ;;
  match opened with
  | None => ret tt
  | Some u =>
      logging logname "INFO" "Extracting files" ;;
      demuxed <- on_ValueError
                   (usm_demux u (mkDemuxArgs temp_dir true true false None))
                   (logging logname "ERROR" "Error occurred in demuxing usm file" ;;
                    ret None) ;;
      match demuxed with
      | None => ret tt
      | Some (videos, audios) =>
          logging logname "INFO" "Probing videos" ;;
          skip <- probe_guard logname "videos" (probe_all logname "Video info" videos) ;;
          if skip : bool then ret tt
          else
            logging logname "INFO" "Probing audios" ;;
            skip <- probe_guard logname "audios" (probe_all logname "Audio info" audios) ;;
            if skip : bool then ret tt
            else
              logging logname "INFO" "Done probing usm file" ;;
              names <- listdir temp_dir ;;
              for_each names (fun name => rmtree (path_join temp_dir name))
      end
  end.

Fixpoint enumerate_from {A} (i : nat) (l : list A) : list (nat * A) :=
  match l with
  | [] => []
  | a :: r => (i, a) :: enumerate_from (S i) r
  end.

Definition dquote : string := String (ascii_of_nat 34) EmptyString.

(** [probe_usm] *)
Definition probe_usm (input : string) (output : option string)
  (ffprobe encoding : string) : M unit :=
  usmfiles <- find_usm input ;;
  output <-
    match output with
    | Some o => makedirs o ;; ret o
    | None => raise (TypeError "expected str, bytes or os.PathLike object, not NoneType")
    end ;;
  temp_dir <- mkdtemp ;;
  ffprobe_path <- find_ffprobe ffprobe ;;
  for_each (enumerate_from 0 usmfiles) (fun iu =>
    probe_one input output temp_dir encoding (List.length usmfiles) (fst iu) (snd iu)) ;;
  rmtree temp_dir ;;
  print ("Probe complete. All logs are stored in " ++ dquote ++ output ++ dquote ++ " folder").

(** The exit status of the process: [0] when the command returns, [1]
    when an exception leaves it. *)
Definition exit_code {A} (r : (exn + A) * world) : Z :=
  match fst r with
  | inr _ => 0
  | inl _ => 1
  end.

(** Everything printed, in order. *)
Definition stdout (w : world) : string :=
  String.concat ""
    (flat_map (fun e => match e with EvPrint t => [t] | _ => [] end) (trace w)).

End Commands.

(** ** The worker pool of [extract_usm]

    [ThreadPoolExecutor] runs the submitted tasks in any interleaving.
    A task is [process_usm] cut at its two calls into the core; the
    containers [Usm.open] builds live in a heap and are named by their
    address, so that sharing between tasks can be stated. *)
Module Pool.
Section Pool.

Context {core : UsmCore}.

(** Where a task stands: not started, holding the container it opened in
    its local [usm], or done with what its future holds. *)
Inductive task : Type :=
| Submitted (f : usmfile)
| Opened (f : usmfile) (address : nat)
| Finished (result : exn + unit).

(** What a task did to a container. *)
Inductive access : Type :=
| Construct (address : nat) (f : usmfile)
| Demux (address : nat).

Definition access_address (a : access) : nat :=
  match a with
  | Construct r _ => r
  | Demux r => r
  end.

Record pool : Type := mkPool {
  tasks : list task;
  heap : list container;
  accesses : list (nat * access);
  pool_root : node;
  pool_cwd : list string;
  printed : list string
}.

Fixpoint set_nth {A} (i : nat) (a : A) (l : list A) : list A :=
  match l, i with
  | [], _ => []
  | _ :: r, O => a :: r
  | x :: r, S k => x :: set_nth k a r
  end.

(** What the handler of [process_usm] makes of an exception. *)
Definition handled (f : usmfile) (e : exn) : (exn + unit) * list string :=
  match e with
  | ValueError _ => (inr tt, ["ERROR"; "Please run probe on " ++ fspath f])
  | _ => (inl e, [])
  end.

Definition initial (root : node) (cwd : list string) (files : list usmfile) : pool :=
  mkPool (map Submitted files) [] [] root cwd [].

(** One step of task [i]. *)
Definition step_task (output : string) (key : option Z) (encoding : string)
  (pages : bool) (i : nat) (p : pool) : option pool :=
  match nth_error (tasks p) i with
  | Some (Submitted f) =>
      match Usm_open (pool_root p) (pool_cwd p) f (Some encoding) key with
      | inr u =>
          let address := List.length (heap p) in
          Some (mkPool (set_nth i (Opened f address) (tasks p))
                  (heap p ++ [u])
                  (accesses p ++ [(i, Construct address f)])
                  (pool_root p) (pool_cwd p) (printed p))
      | inl e =>
          let '(result, lines) := handled f e in
          Some (mkPool (set_nth i (Finished result) (tasks p))
                  (heap p) (accesses p) (pool_root p) (pool_cwd p)
                  (printed p ++ lines))
      end
  | Some (Opened f address) =>
      match usmfile_parent f, nth_error (heap p) address with
      | inl e, _ =>
          let '(result, lines) := handled f e in
          Some (mkPool (set_nth i (Finished result) (tasks p))
                  (heap p) (accesses p) (pool_root p) (pool_cwd p)
                  (printed p ++ lines))
      | inr folder, Some u =>
          let '(r, t) := Usm_demux u (pool_root p) (pool_cwd p)
                           (mkDemuxArgs output true true pages (Some folder)) in
          let '(result, lines) :=
            match r with
            | inr _ => (inr tt, [])
            | inl e => handled f e
            end in
          Some (mkPool (set_nth i (Finished result) (tasks p))
                  (heap p) (accesses p ++ [(i, Demux address)])
                  t (pool_cwd p) (printed p ++ lines))
      | inr _, None => None
      end
  | Some (Finished _) => None
  | None => None
  end.

(** The pool may advance any task that can move. *)
Inductive step (output : string) (key : option Z) (encoding : string)
  (pages : bool) : pool -> pool -> Prop :=
| step_of (i : nat) (p q : pool) :
    step_task output key encoding pages i p = Some q ->
    step output key encoding pages p q.

Inductive reachable (output : string) (key : option Z) (encoding : string)
  (pages : bool) (root : node) (cwd : list string) (files : list usmfile)
  : pool -> Prop :=
| reach_initial : reachable output key encoding pages root cwd files
                    (initial root cwd files)
| reach_step (p q : pool) :
    reachable output key encoding pages root cwd files p ->
    step output key encoding pages p q ->
    reachable output key encoding pages root cwd files q.

(** Run the tasks by a schedule, a list of task numbers; a number whose
    task cannot move is skipped. *)
Fixpoint run (output : string) (key : option Z) (encoding : string)
  (pages : bool) (schedule : list nat) (p : pool) : pool :=
  match schedule with
  | [] => p
  | i :: rest =>
      match step_task output key encoding pages i p with
      | Some q => run output key encoding pages rest q
      | None => run output key encoding pages rest p
      end
  end.

Definition all_finished (p : pool) : bool :=
  forallb (fun t => match t with Finished _ => true | _ => false end) (tasks p).

(** What holds of every state the pool reaches from [files]: a task holds
    a container it built itself, and no address is handed out twice. *)
Record invariant (files : list usmfile) (p : pool) : Prop := mkInvariant {
  inv_submitted : forall i f,
    nth_error (tasks p) i = Some (Submitted f) -> nth_error files i = Some f;
  inv_opened : forall i f r,
    nth_error (tasks p) i = Some (Opened f r) -> In (i, Construct r f) (accesses p);
  inv_constructed : forall i r f,
    In (i, Construct r f) (accesses p) ->
    (r < List.length (heap p))%nat /\ nth_error files i = Some f;
  inv_demuxed : forall i r,
    In (i, Demux r) (accesses p) -> exists f, In (i, Construct r f) (accesses p);
  inv_fresh : forall i j r f g,
    In (i, Construct r f) (accesses p) -> In (j, Construct r g) (accesses p) ->
    i = j
}.

End Pool.
End Pool.

(** ** A reference core

    The theorems below hold for every core.  To run the commands on
    concrete inputs a small core is fixed here, modelled from the spec
    where the spec says something and kept trivial elsewhere. *)
Module Reference.

Definition bytes (s : string) : list byte := list_byte_of_string s.

Definition byte_eqb (a b : byte) : bool := Byte.eqb a b.

Fixpoint bytes_eqb (a b : list byte) : bool :=
  match a, b with
  | [], [] => true
  | x :: a', y :: b' => byte_eqb x y && bytes_eqb a' b'
  | _, _ => false
  end.

(** Modelled from the spec: [is_usm] of [wannacri.usm]; a file is a USM
    when its "first 4 bytes" are [CRID]. *)
Definition is_usm_spec (magic : list byte) : bool := bytes_eqb magic (bytes "CRID").

(** Modelled from the spec: [generate_keys] of [wannacri.usm]; "a 64-bit
    master key [K], split into [K1 = low32(K)] and [K2 = high32(K)]".
    The mask tables are left out: the two halves stand for the two keys. *)
Definition generate_keys_spec (key : option Z) : exn + (Z * Z) :=
  match key with
  | Some k => inr (Z.land k (2 ^ 32 - 1), Z.shiftr k 32)
  | None => inl (TypeError "unsupported operand type(s): 'NoneType'")
  end.

Definition starts_with (pre : list byte) (l : list byte) : bool :=
  bytes_eqb (firstn (List.length pre) l) pre.

(** A stand-in for the codec probe: IVF files are VP9, Annex B byte
    streams are H.264, anything else carries another tag. *)
Definition codec_from_file_spec (root : node) (cwd : list string) (pathname : string)
  : exn + Sofdec2Codec :=
  match stat root cwd pathname with
  | inl e => inl e
  | inr (Dir _) => inl (IsADirectoryError pathname)
  | inr (File content) =>
      if starts_with (bytes "DKIF") content then inr VP9
      else if starts_with [x00; x00; x00; x01] content then inr H264
      else inr (OtherCodec "mpeg2video")
  end.

Definition load (root : node) (cwd : list string) (pathname : string)
  : exn + list byte :=
  match stat root cwd pathname with
  | inl e => inl e
  | inr (Dir _) => inl (IsADirectoryError pathname)
  | inr (File content) => inr content
  end.

Definition video_new (root : node) (cwd : list string) (pathname : string)
  (ffprobe_path : option string) : exn + list byte :=
  load root cwd pathname.

(** Modelled from the spec: the constructor [Usm(videos=..., audios=...,
    key=...)] of [wannacri.usm]; "[video_key] and [audio_key] are either
    both present (encrypted) or both absent (plain)", and both derive
    from the one 64-bit key. *)
Definition Usm_new_spec (videos : list (list byte))
  (audios : option (list (list byte))) (key : option Z)
  : exn + Usm (list byte) (list byte) Z :=
  let audios := match audios with Some l => l | None => [] end in
  match key with
  | None => inr (mkUsm None videos audios None None)
  | Some k =>
      match generate_keys_spec (Some k) with
      | inl e => inl e
      | inr (vk, ak) => inr (mkUsm None videos audios (Some vk) (Some ak))
      end
  end.

(** Opening checks the signature and that a whole chunk header of 32
    bytes is there. *)
Definition Usm_open_spec (root : node) (cwd : list string) (f : usmfile)
  (encoding : option string) (key : option Z)
  : exn + Usm (list byte) (list byte) Z :=
  match load root cwd (fspath f) with
  | inl e => inl e
  | inr content =>
      if negb (is_usm_spec (firstn 4 content)) then inl (ValueError "NotUsm")
      else if Nat.ltb (List.length content) 32 then inl (ValueError "MalformedChunk")
      else
        match key with
        | None => inr (mkUsm (Some (fspath f)) [content] [] None None)
        | Some k =>
            inr (mkUsm (Some (fspath f)) [content] []
                   (Some (Z.land k (2 ^ 32 - 1))) (Some (Z.shiftr k 32)))
        end
  end.

Definition Usm_demux_spec (u : Usm (list byte) (list byte) Z) (root : node)
  (cwd : list string) (a : demux_args)
  : (exn + (list string * list string)) * node :=
  (inr ([], []), root).

(** The stream is one packet for the signature and one per video;
    "[ENCRYPT] requires keys to be installed". *)
Definition Usm_stream_spec (u : Usm (list byte) (list byte) Z) (mode : OpMode)
  (encoding : string) : list (list byte) * option exn :=
  match mode, video_key u, audio_key u with
  | ENCRYPT, None, _ | ENCRYPT, _, None => ([], Some (ValueError "KeyMissing"))
  | _, _, _ => (bytes "CRID" :: usm_videos u, None)
  end.

#[export] Instance core : UsmCore := {|
  Video := list byte;
  Audio := list byte;
  KeyMaterial := Z;
  is_usm := is_usm_spec;
  generate_keys := generate_keys_spec;
  codec_from_file := codec_from_file_spec;
  Vp9 := video_new;
  H264_ := video_new;
  HCA := load;
  Usm_new := Usm_new_spec;
  Usm_open := Usm_open_spec;
  Usm_demux := Usm_demux_spec;
  Usm_stream := Usm_stream_spec;
  ffmpeg_probe := fun _ _ _ => None
|}.

(** A chunk header's worth of bytes behind the signature. *)
Definition plain_usm : list byte := bytes "CRID" ++ repeat x00 28.

(** A small tree: two containers, a truncated one, a text file, a video,
    and a directory whose name ends in [.usm]. *)
Definition tree : node :=
  Dir [ ("tmp", Dir []);
        ("work", Dir [ ("a.usm", File plain_usm);
                       ("notes.txt", File (bytes "hello"));
                       ("b.usm", File plain_usm);
                       ("fake.usm", File (bytes "RIFFxxxx"));
                       ("short.usm", File (bytes "CRID"));
                       ("movie.ivf", File (bytes "DKIF-frames"));
                       ("clip.mpg", File (bytes "mpeg"));
                       ("sub", Dir [ ("deep.usm", File plain_usm) ]) ]);
        ("good", Dir [ ("a.usm", File plain_usm); ("b.usm", File plain_usm) ]);
        ("odd", Dir [ ("folder.usm", Dir []) ]);
        ("empty", Dir []) ].

Definition start (cwd : list string) : world :=
  mkWorld tree cwd [] ["abc"; "def"; "ghi"].

(** The container built from [work/movie.ivf] with key 5, and the one
    opened from [work/a.usm]. *)
Definition encrypted_movie : container :=
  mkUsm None [bytes "DKIF-frames"] [] (Some 5) (Some 0).

Definition opened_a : container :=
  mkUsm (Some "work/a.usm") [plain_usm] [] None None.

(** The pool of [extract_usm] on two files, after a schedule. *)
Definition two_files : list usmfile :=
  [UPath (Path "work/a.usm"); UPath (Path "work/b.usm")].

Definition pool_after (schedule : list nat) : Pool.pool :=
  Pool.run "out" None "shift-jis" false schedule
    (Pool.initial tree [] two_files).

(** An interpreter with the default limit, the white space of the
    Unicode database, and a part of its other rows: the Arabic-Indic,
    Devanagari and fullwidth digits, and as printable characters
    these and those of Latin-1. *)
Definition in_range (lo hi ch : N) : bool := ((lo <=? ch) && (ch <=? hi))%N.

Definition isspace_spec (ch : N) : bool :=
  existsb (N.eqb ch) [133; 160; 5760; 8232; 8233; 8239; 8287; 12288]%N
  || in_range 8192 8202 ch.

Definition todecimal_spec (ch : N) : option N :=
  match find (fun zero => in_range zero (zero + 9) ch)
          [1632; 1776; 2406; 65296]%N with
  | Some zero => Some (ch - zero)%N
  | None => None
  end.

Definition isprintable_spec (ch : N) : bool :=
  (in_range 161 255 ch && negb (ch =? 173)%N)
  || match todecimal_spec ch with Some _ => true | None => false end.

#[export] Instance interpreter : Interpreter := {|
  int_max_str_digits := 4300;
  unicode_isspace := isspace_spec;
  unicode_todecimal := todecimal_spec;
  unicode_isprintable := isprintable_spec
|}.

End Reference.

(** ** The path checkers of the front end *)

Definition is_slash (c : ascii) : bool := Ascii.eqb c "/" || Ascii.eqb c "\".

(** [s.rstrip("/\\")] *)
Fixpoint rstrip_slashes (s : string) : string :=
  match s with
  | EmptyString => EmptyString
  | String c r =>
      match rstrip_slashes r with
      | EmptyString => if is_slash c then EmptyString else String c EmptyString
      | r' => String c r'
      end
  end.

(** [os.path.exists] *)
Definition path_exists (t : node) (cwd : list string) (pathname : string) : bool :=
  match stat t cwd pathname with
  | inr _ => true
  | inl _ => false
  end.

(** Whether the node at a location is a directory. *)
Definition is_dir_at (t : node) (loc : list string) : bool :=
  match node_at t loc with
  | Some (Dir _) => true
  | _ => false
  end.

(** A location where a file can be created or rewritten: its parent is a
    directory and it is not one itself. *)
Definition writable (t : node) (loc : list string) : Prop :=
  loc <> [] /\ is_dir_at t (removelast loc) = true /\ is_dir_at t loc = false.

Section Checkers.

Context {core : UsmCore}.

(** [existing_path(path)] *)
Definition existing_path (path : string) : M string :=
  w <- get_world ;;
  if isfile (root w) (cwd w) path then ret path
  else if isdir (root w) (cwd w) path then ret (rstrip_slashes path)
  else raise (FileNotFoundError path).

(** [existing_file(path)] *)
Definition existing_file (path : string) : M string :=
  w <- get_world ;;
  if negb (path_exists (root w) (cwd w) path) then raise (FileNotFoundError path)
  else if isdir (root w) (cwd w) path then raise (IsADirectoryError path)
  else ret path.

(** [dir_path(path)] *)
Definition dir_path (path : string) : M string :=
  w <- get_world ;;
  if isfile (root w) (cwd w) path then raise (FileExistsError path)
  else ret (rstrip_slashes path).

(** A command adds only events of a given kind to the trace. *)
Definition adds {A} (P : event -> Prop) (c : M A) : Prop :=
  forall w, exists added,
    trace (snd (c w)) = (trace w ++ added)%list /\ Forall P added.

(** A command leaves the tree, the working directory and the entropy as
    they are. *)
Definition reads_only {A} (c : M A) : Prop :=
  forall w,
    root (snd (c w)) = root w /\ cwd (snd (c w)) = cwd w
    /\ entropy (snd (c w)) = entropy w.

(** The files of the calls of [Usm.open] among some events. *)
Definition opens (es : list event) : list usmfile :=
  flat_map (fun e => match e with
                     | EvUsmOpen f _ _ => [f]
                     | _ => []
                     end) es.

Definition not_open (e : event) : Prop :=
  match e with EvUsmOpen _ _ _ => False | _ => True end.

Definition is_print (e : event) : Prop :=
  match e with EvPrint _ => True | _ => False end.

(** What [extract_usm] may do: print, open with the encoding and the key
    it was given, and demux everything into the output path. *)
Definition extract_event (output : string) (key : option Z) (encoding : string)
  (pages : bool) (e : event) : Prop :=
  match e with
  | EvPrint _ => True
  | EvUsmOpen _ enc k => enc = Some encoding /\ k = key
  | EvDemux _ a =>
      demux_path a = output /\ save_video a = true /\ save_audio a = true
      /\ save_pages a = pages /\ folder_name a <> None
  | _ => False
  end.


(** What [probe_usm] may do: print, log, open with the encoding and no
    key, demux video and audio without pages, probe. *)
Definition probe_event (encoding : string) (e : event) : Prop :=
  match e with
  | EvPrint _ | EvLog _ _ _ | EvProbe _ => True
  | EvUsmOpen _ enc k => enc = Some encoding /\ k = None
  | EvDemux _ a =>
      save_video a = true /\ save_audio a = true /\ save_pages a = false
      /\ folder_name a = None
  | _ => False
  end.

End Checkers.

(** * Properties *)

(** ** [key_normalize] *)
Module KeyFacts.
Import PyInt.

Ltac ascii_cases c :=
  destruct c as [[|] [|] [|] [|] [|] [|] [|] [|]].

(** What being a hexadecimal digit excludes for a character. *)
Lemma hex_digit_char (c : ascii) :
  is_digit 16 c = true ->
  is_space c = false /\ is_underscore c = false
  /\ Ascii.eqb c "+" = false /\ Ascii.eqb c "-" = false.
Proof.
  ascii_cases c; vm_compute; intros H; try discriminate H; repeat split.
Qed.

Lemma digit_weaken (c : ascii) : is_digit 10 c = true -> is_digit 16 c = true.
Proof.
  unfold is_digit. destruct (digit_value c) as [d|]; [|discriminate].
  rewrite !Z.ltb_lt. lia.
Qed.

Lemma all_digits_weaken (s : string) :
  all_digits 10 s = true -> all_digits 16 s = true.
Proof.
  induction s as [|c r IH]; simpl; [reflexivity|].
  rewrite !andb_true_iff. intros [Hc Hr]. split; [apply digit_weaken, Hc | apply IH, Hr].
Qed.

Lemma split_sign_plain (c : ascii) (r : string) :
  Ascii.eqb c "+" = false -> Ascii.eqb c "-" = false ->
  split_sign (String c r) = (false, String c r).
Proof.
  ascii_cases c; vm_compute; intros H1 H2;
    try discriminate H1; try discriminate H2; reflexivity.
Qed.

Lemma detect_base_given (base : Z) (s : string) :
  base <> 0 -> detect_base base s = (base, false).
Proof.
  intros H. unfold detect_base. destruct (Z.eqb_spec base 0); [contradiction | reflexivity].
Qed.

Lemma detect_base_decimal (c : ascii) (r : string) :
  Ascii.eqb c "0" = false -> detect_base 0 (String c r) = (10, false).
Proof.
  ascii_cases c; vm_compute; intros H; try discriminate H; reflexivity.
Qed.

Lemma strip_prefix_decimal (s : string) : strip_prefix 10 s = s.
Proof.
  destruct s as [|c r]; [reflexivity|].
  destruct r as [|c' r']; ascii_cases c; reflexivity.
Qed.

Lemma strip_prefix_no_zero (b : Z) (c : ascii) (r : string) :
  Ascii.eqb c "0" = false -> strip_prefix b (String c r) = String c r.
Proof.
  ascii_cases c; intros H; try discriminate H; destruct r; reflexivity.
Qed.

Lemma skip_underscore_plain (c : ascii) (r : string) :
  is_underscore c = false -> skip_underscore (String c r) = String c r.
Proof.
  ascii_cases c; vm_compute; intros H; try discriminate H; reflexivity.
Qed.

(** The digit loop reads a run of digits to its end. *)
Lemma scan_all_digits (b : Z) (s : string) :
  forall acc n,
    all_digits 16 s = true -> all_digits b s = true ->
    scan b false acc n s
    = Some (digits_value b acc s, (n + String.length s)%nat, EmptyString).
Proof.
  induction s as [|c r IH]; intros acc n H16 Hb; simpl in *.
  - rewrite Nat.add_0_r. reflexivity.
  - apply andb_true_iff in H16 as [Hc16 Hr16].
    apply andb_true_iff in Hb as [Hc Hr].
    destruct (hex_digit_char c Hc16) as (_ & Hu & _). rewrite Hu.
    unfold is_digit in Hc. destruct (digit_value c) as [d|]; [|discriminate].
    rewrite Hc, IH by assumption.
    f_equal. f_equal. f_equal. lia.
Qed.

Lemma lstrip_plain (c : ascii) (r : string) :
  is_space c = false -> lstrip (String c r) = String c r.
Proof. intros H. simpl. rewrite H. reflexivity. Qed.

Lemma head_not_zero (c : ascii) (r : string) :
  head_is "0" (String c r) = false -> Ascii.eqb c "0" = false.
Proof. simpl. rewrite Ascii.eqb_sym. exact (fun H => H). Qed.

Section Interpreter.

Context {py : Interpreter}.

(** A literal with no sign, no surrounding space and nothing left of its
    prefix but digits is read to its value, unless it has too many
    digits for its base. *)
Lemma FromString_digits (s : string) (base b : Z) (c : ascii) (r : string) :
  lstrip s = s ->
  split_sign s = (false, s) ->
  detect_base base s = (b, false) ->
  strip_prefix b s = String c r ->
  all_digits 16 (String c r) = true ->
  all_digits b (String c r) = true ->
  PyLong_FromString s base
  = if negb (is_binary_base b) && exceeds_limit (String.length (String c r))
    then TooManyDigits (String.length (String c r))
    else Value (digits_value b 0 (String c r)).
Proof.
  intros Hl Hs Hb Hp H16 Hd. unfold PyLong_FromString.
  rewrite Hl, Hs, Hb, Hp.
  assert (Hu : starts_with_underscore (String c r) = false).
  { simpl in H16. apply andb_true_iff in H16 as [Hc _].
    apply (hex_digit_char c Hc). }
  rewrite Hu, (scan_all_digits b (String c r) 0 0 H16 Hd).
  cbn [Nat.add]. cbn [andb].
  destruct (negb (is_binary_base b) && exceeds_limit (String.length (String c r)));
    reflexivity.
Qed.

(** A decimal numeral is read in base 10, up to the limit. *)
Lemma FromString_decimal (s : string) :
  decimal_form s = true ->
  PyLong_FromString s 0
  = if exceeds_limit (String.length s) then TooManyDigits (String.length s)
    else Value (digits_value 10 0 s).
Proof.
  unfold decimal_form. rewrite !andb_true_iff, orb_true_iff, negb_true_iff.
  intros [[Hne Hd] Hz]. destruct s as [|c r]; [discriminate Hne|].
  destruct Hz as [Hz | Hz].
  - apply negb_true_iff in Hz. apply head_not_zero in Hz.
    pose proof (all_digits_weaken _ Hd) as H16.
    assert (Hc : is_digit 16 c = true).
    { simpl in H16. apply andb_true_iff in H16 as [Hc _]. exact Hc. }
    destruct (hex_digit_char c Hc) as (Hsp & Hu & Hplus & Hminus).
    rewrite (FromString_digits (String c r) 0 10 c r); auto.
    + apply lstrip_plain, Hsp.
    + apply split_sign_plain; assumption.
    + apply detect_base_decimal, Hz.
    + apply strip_prefix_decimal.
  - apply String.eqb_eq in Hz. rewrite Hz. reflexivity.
Qed.

(** A [0x] literal is read in base 16, whether the base is given or
    read off the literal, whatever its length. *)
Lemma FromString_hex (base : Z) (r : string) :
  base = 0 \/ base = 16 ->
  is_empty r = false -> all_digits 16 r = true ->
  PyLong_FromString ("0x" ++ r) base = Value (digits_value 16 0 r).
Proof.
  intros Hbase Hne H16. destruct r as [|c r]; [discriminate Hne|].
  assert (Hc : is_digit 16 c = true).
  { simpl in H16. apply andb_true_iff in H16 as [Hc _]. exact Hc. }
  destruct (hex_digit_char c Hc) as (Hsp & Hu & Hplus & Hminus).
  rewrite (FromString_digits ("0x" ++ String c r) base 16 c r); auto.
  - destruct Hbase as [-> | ->]; reflexivity.
  - simpl. apply skip_underscore_plain, Hu.
Qed.

(** Base 16 is a power of two: its parse never ends at the limit. *)
Lemma FromString_16 (s : string) :
  forall digits, PyLong_FromString s 16 <> TooManyDigits digits.
Proof.
  intros digits. unfold PyLong_FromString.
  destruct (split_sign (lstrip s)) as [neg s2].
  change (detect_base 16 s2) with (16, false). cbv beta iota.
  destruct (starts_with_underscore (strip_prefix 16 s2)); [discriminate|].
  destruct (scan 16 false 0 0 (strip_prefix 16 s2)) as [[[v n] rest]|];
    [|discriminate].
  change (negb (is_binary_base 16)) with false. cbn [andb].
  destruct (Nat.eqb n 0); [discriminate|].
  destruct (is_empty (lstrip rest)); discriminate.
Qed.

(** ** The buffer of a text *)

(** The code points of an ASCII text are its characters. *)
Lemma code_points_ascii (s : string) :
  every (fun c => (N_of_ascii c <? 128)%N) s = true ->
  code_points s = map N_of_ascii (list_ascii_of_string s).
Proof.
  induction s as [|c s IH]; [reflexivity|].
  cbn [every]. rewrite andb_true_iff. intros [Hc Hs].
  cbn [code_points]. cbv zeta. rewrite Hc, (IH Hs). reflexivity.
Qed.

Lemma chars_of_text (s : string) :
  chars (map N_of_ascii (list_ascii_of_string s)) = s.
Proof.
  unfold chars. induction s as [|c s IH]; simpl; [reflexivity|].
  rewrite ascii_N_embedding, IH. reflexivity.
Qed.

Lemma is_ascii_of_text (s : string) :
  is_ascii (map N_of_ascii (list_ascii_of_string s))
  = every (fun c => (N_of_ascii c <? 128)%N) s.
Proof.
  unfold is_ascii. induction s as [|c s IH]; simpl; [reflexivity|].
  rewrite IH. reflexivity.
Qed.

(** An ASCII text is its own buffer. *)
Lemma buffer_of_text (s : string) :
  every (fun c => (N_of_ascii c <? 128)%N) s = true ->
  TransformDecimalAndSpaceToASCII (code_points s) = s.
Proof.
  intros H. unfold TransformDecimalAndSpaceToASCII.
  rewrite (code_points_ascii s H), is_ascii_of_text, H. apply chars_of_text.
Qed.

Lemma digit_ascii (c : ascii) :
  digit_value c <> None -> (N_of_ascii c <? 128)%N = true.
Proof.
  ascii_cases c; vm_compute; intros H; try reflexivity;
    exfalso; apply H; reflexivity.
Qed.

Lemma all_digits_ascii (b : Z) (s : string) :
  all_digits b s = true -> every (fun c => (N_of_ascii c <? 128)%N) s = true.
Proof.
  induction s as [|c s IH]; simpl; [reflexivity|].
  rewrite andb_true_iff. intros [Hc Hs]. rewrite (IH Hs), andb_true_r.
  apply digit_ascii. unfold is_digit in Hc.
  destruct (digit_value c); [discriminate | discriminate Hc].
Qed.

Lemma buffer_of_digits (b : Z) (s : string) :
  all_digits b s = true -> TransformDecimalAndSpaceToASCII (code_points s) = s.
Proof. intros H. apply buffer_of_text, (all_digits_ascii b), H. Qed.

(** The [0x] that [key_normalize] puts in front stays in front. *)
Lemma buffer_0x (u : pystr) :
  TransformDecimalAndSpaceToASCII (code_points "0x" ++ u)%list
  = "0x" ++ TransformDecimalAndSpaceToASCII u.
Proof.
  unfold TransformDecimalAndSpaceToASCII.
  change (is_ascii (code_points "0x" ++ u)%list) with (is_ascii u).
  destruct (is_ascii u); reflexivity.
Qed.

(** ** The two parses *)

(** What [int] makes of the three ends of [PyLong_FromString], for the
    bases of [key_normalize]. *)
Lemma py_int_run (x : pystr) (base : Z) :
  base = 0 \/ base = 16 ->
  py_int x base
  = match PyLong_FromString (TransformDecimalAndSpaceToASCII x) base with
    | Value v => inr v
    | Invalid => inl (invalid_literal x base)
    | TooManyDigits digits => inl (too_many_digits digits)
    end.
Proof. intros [-> | ->]; reflexivity. Qed.

Lemma key_normalize_first (u : pystr) (v : Z) :
  PyLong_FromString (TransformDecimalAndSpaceToASCII u) 0 = Value v ->
  key_normalize u = inr v.
Proof.
  intros H. unfold key_normalize. rewrite py_int_run by auto. rewrite H. reflexivity.
Qed.

(** When the first parse fails, in whichever way, the result is that of
    the second. *)
Lemma key_normalize_second (u : pystr) :
  (forall v, PyLong_FromString (TransformDecimalAndSpaceToASCII u) 0 <> Value v) ->
  key_normalize u
  = match PyLong_FromString ("0x" ++ TransformDecimalAndSpaceToASCII u) 16 with
    | Value v => inr v
    | _ => inl (invalid_literal (code_points "0x" ++ u)%list 16)
    end.
Proof.
  intros H. unfold key_normalize.
  rewrite (py_int_run u 0) by auto.
  pose proof (FromString_16 ("0x" ++ TransformDecimalAndSpaceToASCII u)) as H16.
  destruct (PyLong_FromString (TransformDecimalAndSpaceToASCII u) 0) as [v| |digits].
  - exfalso. apply (H v). reflexivity.
  - unfold invalid_literal at 1. rewrite py_int_run, buffer_0x by auto.
    destruct (PyLong_FromString ("0x" ++ TransformDecimalAndSpaceToASCII u) 16)
      as [v| |digits]; try reflexivity.
    exfalso. apply (H16 digits). reflexivity.
  - unfold too_many_digits at 1. rewrite py_int_run, buffer_0x by auto.
    destruct (PyLong_FromString ("0x" ++ TransformDecimalAndSpaceToASCII u) 16)
      as [v| |digits']; try reflexivity.
    exfalso. apply (H16 digits'). reflexivity.
Qed.

(** Reading a hexadecimal numeral in base 10 stops at its first letter. *)
Lemma scan_decimal_stops (s : string) :
  forall acc n,
    all_digits 16 s = true -> all_digits 10 s = false ->
    exists v m c r,
      scan 10 false acc n s = Some (v, m, String c r) /\ is_digit 16 c = true.
Proof.
  induction s as [|c r IH]; intros acc n H16 H10; simpl in *; [discriminate|].
  apply andb_true_iff in H16 as [Hc16 Hr16].
  destruct (hex_digit_char c Hc16) as (_ & Hu & _). rewrite Hu.
  pose proof Hc16 as Hc. unfold is_digit in Hc, H10.
  destruct (digit_value c) as [d|]; [|discriminate].
  destruct (d <? 10) eqn:Hd.
  - simpl in H10. apply IH; assumption.
  - exists acc, n, c, r. split; [reflexivity | exact Hc16].
Qed.

Lemma FromString_bare_hex_fails (s : string) :
  all_digits 16 s = true -> all_digits 10 s = false -> head_is "0" s = false ->
  forall v, PyLong_FromString s 0 <> Value v.
Proof.
  intros H16 H10 Hz v. destruct s as [|c r]; [discriminate H10|].
  apply head_not_zero in Hz.
  assert (Hc : is_digit 16 c = true).
  { simpl in H16. apply andb_true_iff in H16 as [Hc _]. exact Hc. }
  destruct (hex_digit_char c Hc) as (Hsp & Hu & Hplus & Hminus).
  unfold PyLong_FromString.
  rewrite (lstrip_plain c r Hsp), (split_sign_plain c r Hplus Hminus),
    (detect_base_decimal c r Hz), strip_prefix_decimal.
  simpl starts_with_underscore. rewrite Hu.
  destruct (scan_decimal_stops (String c r) 0 0 H16 H10) as (v' & m & c' & r' & Hscan & Hc').
  rewrite Hscan. change (negb (is_binary_base 10)) with true. cbn [andb].
  destruct (exceeds_limit m); [discriminate|].
  destruct (Nat.eqb m 0); [discriminate|].
  destruct (hex_digit_char c' Hc') as (Hsp' & _).
  rewrite (lstrip_plain c' r' Hsp'). discriminate.
Qed.

(** ** What an accepted buffer is made of *)

Lemma every_lstrip (P : ascii -> bool) (s : string) :
  (forall c, is_space c = true -> P c = true) ->
  every P (lstrip s) = true -> every P s = true.
Proof.
  intros Hsp. induction s as [|c r IH]; simpl; [auto|].
  destruct (is_space c) eqn:Hc; [|auto].
  intros H. rewrite (Hsp c Hc), (IH H). reflexivity.
Qed.

Lemma every_spaces (s : string) :
  is_empty (lstrip s) = true -> every is_space s = true.
Proof.
  induction s as [|c r IH]; simpl; [reflexivity|].
  destruct (is_space c); [exact IH | discriminate].
Qed.

Lemma every_weaken (P Q : ascii -> bool) (s : string) :
  (forall c, P c = true -> Q c = true) -> every P s = true -> every Q s = true.
Proof.
  intros HPQ. induction s as [|c r IH]; simpl; [reflexivity|].
  rewrite !andb_true_iff. intros [Hc Hr]. split; [apply HPQ, Hc | apply IH, Hr].
Qed.

Lemma literal_space (c : ascii) : is_space c = true -> literal_char c = true.
Proof. unfold literal_char. intros ->. rewrite orb_true_r. reflexivity. Qed.

Lemma literal_digit (b : Z) (c : ascii) :
  b <= 16 -> is_digit b c = true -> literal_char c = true.
Proof.
  intros Hb Hc. unfold literal_char.
  assert (H16 : is_digit 16 c = true).
  { unfold is_digit in *. destruct (digit_value c) as [d|]; [|discriminate].
    apply Z.ltb_lt in Hc. apply Z.ltb_lt. lia. }
  rewrite H16. reflexivity.
Qed.

Lemma literal_underscore (c : ascii) :
  is_underscore c = true -> literal_char c = true.
Proof. unfold literal_char. intros ->. rewrite !orb_true_r. reflexivity. Qed.

Lemma every_split_sign (s s2 : string) (neg : bool) :
  split_sign s = (neg, s2) ->
  every literal_char s2 = true -> every literal_char s = true.
Proof.
  destruct s as [|c r]; simpl.
  - intros H. injection H as _ <-. auto.
  - ascii_cases c; intros H; injection H as _ <-; auto;
      intros Hr; simpl; exact Hr.
Qed.

Lemma every_skip_underscore (r : string) :
  every literal_char (skip_underscore r) = true -> every literal_char r = true.
Proof.
  destruct r as [|c r]; [auto|]. ascii_cases c; auto.
Qed.

Lemma every_strip_prefix (b : Z) (s : string) :
  every literal_char (strip_prefix b s) = true -> every literal_char s = true.
Proof.
  destruct s as [|c r]; [auto|]. destruct r as [|c' r'].
  - ascii_cases c; auto.
  - unfold strip_prefix.
    destruct (Ascii.eqb c "0") eqn:Hc0.
    + apply Ascii.eqb_eq in Hc0. subst c.
      destruct (((b =? 16) && (Ascii.eqb c' "x" || Ascii.eqb c' "X"))
                || ((b =? 8) && (Ascii.eqb c' "o" || Ascii.eqb c' "O"))
                || ((b =? 2) && (Ascii.eqb c' "b" || Ascii.eqb c' "B"))) eqn:Hpre;
        [|auto].
      intros H. apply every_skip_underscore in H.
      change (every literal_char (String "0" (String c' r')))
        with (literal_char c' && every literal_char r').
      rewrite H, andb_true_r.
      assert (Hletter : (Ascii.eqb c' "x" || Ascii.eqb c' "X"
                         || Ascii.eqb c' "o" || Ascii.eqb c' "O"
                         || Ascii.eqb c' "b" || Ascii.eqb c' "B") = true).
      { destruct (Ascii.eqb c' "x"), (Ascii.eqb c' "X"), (Ascii.eqb c' "o"),
          (Ascii.eqb c' "O"), (Ascii.eqb c' "b"), (Ascii.eqb c' "B");
          try reflexivity.
        rewrite !andb_false_r in Hpre. discriminate Hpre. }
      revert Hletter. clear. ascii_cases c'; vm_compute; intros H;
        try reflexivity; discriminate H.
    + assert (Hsame : match String c (String c' r') with
                      | String "0" (String c1 r1) =>
                          if ((b =? 16) && (Ascii.eqb c1 "x" || Ascii.eqb c1 "X"))
                             || ((b =? 8) && (Ascii.eqb c1 "o" || Ascii.eqb c1 "O"))
                             || ((b =? 2) && (Ascii.eqb c1 "b" || Ascii.eqb c1 "B"))
                          then skip_underscore r1
                          else String c (String c' r')
                      | _ => String c (String c' r')
                      end = String c (String c' r')).
      { revert Hc0. clear. ascii_cases c; intros H; try reflexivity.
        discriminate H. }
      rewrite Hsame. auto.
Qed.

Lemma every_scan (b : Z) (s : string) :
  b <= 16 ->
  forall prev_us acc n v m rest,
    scan b prev_us acc n s = Some (v, m, rest) ->
    every literal_char rest = true -> every literal_char s = true.
Proof.
  intros Hb. induction s as [|c r IH]; intros prev_us acc n v m rest H Hrest;
    simpl in H.
  - destruct prev_us; [discriminate|]. injection H as _ _ <-. exact Hrest.
  - destruct (is_underscore c) eqn:Hu.
    + destruct prev_us; [discriminate|]. simpl.
      rewrite (literal_underscore c Hu). exact (IH _ _ _ _ _ _ H Hrest).
    + destruct (digit_value c) as [d|] eqn:Hd.
      * destruct (d <? b) eqn:Hlt.
        -- simpl. rewrite (literal_digit b c Hb), (IH _ _ _ _ _ _ H Hrest);
             [reflexivity|].
           unfold is_digit. rewrite Hd. exact Hlt.
        -- destruct prev_us; [discriminate|]. injection H as _ _ <-. exact Hrest.
      * destruct prev_us; [discriminate|]. injection H as _ _ <-. exact Hrest.
Qed.

Lemma detect_base_small (base : Z) (s : string) :
  base = 0 \/ base = 16 -> fst (detect_base base s) <= 16.
Proof.
  intros [-> | ->]; [|simpl; lia].
  unfold detect_base. simpl.
  destruct s as [|c r]; [simpl; lia|].
  destruct (Ascii.eqb c "0") eqn:Hc0.
  - apply Ascii.eqb_eq in Hc0. subst c. destruct r as [|c' r']; [simpl; lia|].
    destruct (Ascii.eqb c' "x" || Ascii.eqb c' "X"); [simpl; lia|].
    destruct (Ascii.eqb c' "o" || Ascii.eqb c' "O"); [simpl; lia|].
    destruct (Ascii.eqb c' "b" || Ascii.eqb c' "B"); simpl; lia.
  - revert Hc0. clear. ascii_cases c; intros H; try (simpl; lia). discriminate H.
Qed.

(** An accepted buffer has literal characters only. *)
Lemma accepted_literal (s : string) (base v : Z) :
  base = 0 \/ base = 16 ->
  PyLong_FromString s base = Value v -> every literal_char s = true.
Proof.
  intros Hbase. unfold PyLong_FromString.
  destruct (split_sign (lstrip s)) as [neg s2] eqn:Hsign.
  pose proof (detect_base_small base s2 Hbase) as Hb.
  destruct (detect_base base s2) as [b flag]. cbn [fst] in Hb.
  destruct (starts_with_underscore (strip_prefix b s2)); [discriminate|].
  destruct (scan b false 0 0 (strip_prefix b s2)) as [[[v' n] rest]|] eqn:Hscan;
    [|discriminate].
  destruct (negb (is_binary_base b) && exceeds_limit n); [discriminate|].
  destruct (flag && negb (v' =? 0)); [discriminate|].
  destruct (Nat.eqb n 0); [discriminate|].
  destruct (is_empty (lstrip rest)) eqn:Hrest; [|discriminate].
  intros _.
  apply (every_lstrip literal_char s literal_space).
  apply (every_split_sign _ _ _ Hsign).
  apply every_strip_prefix with (b := b).
  apply (every_scan b _ Hb _ _ _ _ _ _ Hscan).
  apply (every_weaken is_space literal_char rest literal_space).
  apply every_spaces, Hrest.
Qed.

(** A foreign code point leaves a character in the buffer that is no
    literal character: itself, or the [?] the buffer ends in. *)
Lemma foreign_in_buffer (u : pystr) (ch : N) :
  In ch u -> foreign ch = true ->
  every literal_char (TransformDecimalAndSpaceToASCII u) = false.
Proof.
  intros Hin Hf. unfold TransformDecimalAndSpaceToASCII.
  destruct (is_ascii u) eqn:Hascii.
  - unfold is_ascii in Hascii. rewrite forallb_forall in Hascii.
    pose proof (Hascii ch Hin) as Hlt. unfold foreign in Hf. rewrite Hlt in Hf.
    apply negb_true_iff in Hf. clear Hascii.
    unfold chars. induction u as [|ch0 rest IH]; [contradiction|].
    destruct Hin as [-> | Hin]; simpl.
    + rewrite Hf. reflexivity.
    + rewrite (IH Hin). apply andb_false_r.
  - clear Hascii. induction u as [|ch0 rest IH]; [contradiction|].
    cbn [transform_loop].
    destruct (ch0 <? 127)%N eqn:H127.
    + destruct Hin as [-> | Hin]; cbn [every].
      * unfold foreign in Hf.
        assert (Hlt : (ch <? 128)%N = true)
          by (apply N.ltb_lt; apply N.ltb_lt in H127; lia).
        rewrite Hlt in Hf. apply negb_true_iff in Hf. rewrite Hf. reflexivity.
      * rewrite (IH Hin). apply andb_false_r.
    + assert (Hhere : ch = ch0 ->
                      Py_UNICODE_ISSPACE ch0 = false
                      /\ Py_UNICODE_TODECIMAL ch0 = None).
      { intros <-. unfold foreign in Hf.
        unfold Py_UNICODE_ISSPACE, Py_UNICODE_TODECIMAL.
        destruct (ch <? 128)%N eqn:H128.
        - assert (ch = 127%N)
            by (apply N.ltb_lt in H128; apply N.ltb_ge in H127; lia).
          subst ch. split; reflexivity.
        - apply andb_true_iff in Hf as [Hsp Hdec].
          apply negb_true_iff in Hsp. split; [exact Hsp|].
          destruct (unicode_todecimal ch); [discriminate Hdec | reflexivity]. }
      destruct (Py_UNICODE_ISSPACE ch0) eqn:Hsp.
      * destruct Hin as [Heq | Hin].
        -- destruct (Hhere (eq_sym Heq)) as [Hno _]. discriminate Hno.
        -- cbn [every]. rewrite (IH Hin). apply andb_false_r.
      * destruct (Py_UNICODE_TODECIMAL ch0) as [decimal|] eqn:Hdec; [|reflexivity].
        destruct Hin as [Heq | Hin].
        -- destruct (Hhere (eq_sym Heq)) as [_ Hno]. discriminate Hno.
        -- cbn [every]. rewrite (IH Hin). apply andb_false_r.
Qed.

(** ** White space inside a buffer *)

Lemma underscore_not_space (c : ascii) :
  is_underscore c = true -> is_space c = false.
Proof. ascii_cases c; vm_compute; intros H; try reflexivity; discriminate H. Qed.

Lemma digit_not_space (c : ascii) :
  digit_value c <> None -> is_space c = false.
Proof.
  ascii_cases c; vm_compute; intros H; try reflexivity;
    exfalso; apply H; reflexivity.
Qed.

Lemma skip_split_sign (s s2 : string) (neg : bool) :
  split_sign s = (neg, s2) -> skip_nonspace s = skip_nonspace s2.
Proof.
  destruct s as [|c r]; simpl.
  - intros H. injection H as _ <-. reflexivity.
  - ascii_cases c; intros H; injection H as _ <-; reflexivity.
Qed.

Lemma skip_skip_underscore (r : string) :
  skip_nonspace (skip_underscore r) = skip_nonspace r.
Proof. destruct r as [|c r]; [reflexivity|]. ascii_cases c; reflexivity. Qed.

Lemma skip_strip_prefix (b : Z) (s : string) :
  skip_nonspace (strip_prefix b s) = skip_nonspace s.
Proof.
  destruct s as [|c r]; [reflexivity|]. destruct r as [|c' r'].
  - ascii_cases c; reflexivity.
  - destruct (Ascii.eqb c "0") eqn:Hc0.
    + apply Ascii.eqb_eq in Hc0. subst c. unfold strip_prefix.
      destruct (((b =? 16) && (Ascii.eqb c' "x" || Ascii.eqb c' "X"))
                || ((b =? 8) && (Ascii.eqb c' "o" || Ascii.eqb c' "O"))
                || ((b =? 2) && (Ascii.eqb c' "b" || Ascii.eqb c' "B"))) eqn:Hpre;
        [|reflexivity].
      rewrite skip_skip_underscore.
      assert (Hletter : (Ascii.eqb c' "x" || Ascii.eqb c' "X"
                         || Ascii.eqb c' "o" || Ascii.eqb c' "O"
                         || Ascii.eqb c' "b" || Ascii.eqb c' "B") = true).
      { destruct (Ascii.eqb c' "x"), (Ascii.eqb c' "X"), (Ascii.eqb c' "o"),
          (Ascii.eqb c' "O"), (Ascii.eqb c' "b"), (Ascii.eqb c' "B");
          try reflexivity.
        rewrite !andb_false_r in Hpre. discriminate Hpre. }
      assert (Hsp : is_space c' = false).
      { revert Hletter. clear. ascii_cases c'; vm_compute; intros H;
          try reflexivity; discriminate H. }
      cbn [skip_nonspace]. change (is_space "0") with false. cbv iota.
      rewrite Hsp. reflexivity.
    + replace (strip_prefix b (String c (String c' r')))
        with (String c (String c' r')); [reflexivity|].
      revert Hc0. clear. ascii_cases c; intros H; try reflexivity.
      discriminate H.
Qed.

Lemma skip_scan (b : Z) (s : string) :
  forall prev_us acc n v m rest,
    scan b prev_us acc n s = Some (v, m, rest) ->
    skip_nonspace s = skip_nonspace rest.
Proof.
  induction s as [|c r IH]; intros prev_us acc n v m rest H; simpl in H.
  - destruct prev_us; [discriminate|]. injection H as _ _ <-. reflexivity.
  - destruct (is_underscore c) eqn:Hu.
    + destruct prev_us; [discriminate|]. cbn [skip_nonspace].
      rewrite (underscore_not_space c Hu). exact (IH _ _ _ _ _ _ H).
    + destruct (digit_value c) as [d|] eqn:Hd.
      * destruct (d <? b).
        -- cbn [skip_nonspace]. rewrite (digit_not_space c); [|congruence].
           exact (IH _ _ _ _ _ _ H).
        -- destruct prev_us; [discriminate|]. injection H as _ _ <-. reflexivity.
      * destruct prev_us; [discriminate|]. injection H as _ _ <-. reflexivity.
Qed.

Lemma skip_spaces (s : string) :
  is_empty (lstrip s) = true -> is_empty (lstrip (skip_nonspace s)) = true.
Proof.
  destruct s as [|c r]; [auto|]. simpl.
  destruct (is_space c) eqn:Hc; [|discriminate].
  intros H. simpl. rewrite Hc. exact H.
Qed.

(** An accepted buffer is one run of characters that are not white
    space, with white space before and behind it at most. *)
Lemma accepted_compact (s : string) (base v : Z) :
  PyLong_FromString s base = Value v ->
  is_empty (lstrip (skip_nonspace (lstrip s))) = true.
Proof.
  unfold PyLong_FromString.
  destruct (split_sign (lstrip s)) as [neg s2] eqn:Hsign.
  destruct (detect_base base s2) as [b flag].
  destruct (starts_with_underscore (strip_prefix b s2)); [discriminate|].
  destruct (scan b false 0 0 (strip_prefix b s2)) as [[[v' n] rest]|] eqn:Hscan;
    [|discriminate].
  destruct (negb (is_binary_base b) && exceeds_limit n); [discriminate|].
  destruct (flag && negb (v' =? 0)); [discriminate|].
  destruct (Nat.eqb n 0); [discriminate|].
  destruct (is_empty (lstrip rest)) eqn:Hrest; [|discriminate].
  intros _.
  rewrite (skip_split_sign _ _ _ Hsign), <- (skip_strip_prefix b s2),
    (skip_scan _ _ _ _ _ _ _ _ Hscan).
  apply skip_spaces, Hrest.
Qed.

Lemma lstrip_nonspace (s : string) :
  has_nonspace s = true -> is_empty (lstrip s) = false.
Proof.
  induction s as [|c r IH]; simpl; [discriminate|].
  destruct (is_space c); [exact IH | reflexivity].
Qed.

Lemma lstrip_before (w : ascii) (b : string) :
  is_space w = true -> has_nonspace b = true ->
  forall x, is_empty (lstrip (x ++ String w b)) = false.
Proof.
  intros Hw Hb. induction x as [|c x IH]; simpl.
  - rewrite Hw. apply lstrip_nonspace, Hb.
  - destruct (is_space c); [exact IH | reflexivity].
Qed.

Lemma skip_before (w : ascii) (b : string) :
  is_space w = true -> has_nonspace b = true ->
  forall x, is_empty (lstrip (skip_nonspace (x ++ String w b))) = false.
Proof.
  intros Hw Hb. induction x as [|c x IH].
  - simpl. rewrite Hw. simpl. rewrite Hw. apply lstrip_nonspace, Hb.
  - change (String c x ++ String w b) with (String c (x ++ String w b)).
    cbn [skip_nonspace]. destruct (is_space c) eqn:Hc; [|exact IH].
    apply (lstrip_before w b Hw Hb (String c x)).
Qed.

(** White space between two characters that are not: the buffer is not
    one run. *)
Lemma interior_space (a b : string) (w : ascii) :
  has_nonspace a = true -> is_space w = true -> has_nonspace b = true ->
  is_empty (lstrip (skip_nonspace (lstrip (a ++ String w b)))) = false.
Proof.
  intros Ha Hw Hb. induction a as [|c a IH]; [discriminate Ha|].
  change (String c a ++ String w b) with (String c (a ++ String w b)).
  cbn [lstrip]. cbn [has_nonspace] in Ha.
  destruct (is_space c) eqn:Hc.
  - apply IH. exact Ha.
  - cbn [skip_nonspace]. rewrite Hc. apply skip_before; assumption.
Qed.

(** A decimal digit is none of the letters of a base prefix. *)
Lemma decimal_digit_no_prefix (c : ascii) (r : string) :
  is_digit 10 c = true ->
  detect_base 0 (String "0" (String c r)) = (10, true).
Proof.
  ascii_cases c; vm_compute; intros H; try discriminate H; reflexivity.
Qed.

(** Decimal digits behind a superfluous zero are no literal of base 0. *)
Lemma FromString_leading_zero_fails (s : string) :
  all_digits 10 s = true -> head_is "0" s = true ->
  digits_value 10 0 s <> 0 ->
  forall v, PyLong_FromString s 0 <> Value v.
Proof.
  intros Hd Hz Hv v. destruct s as [|c r]; [discriminate Hz|].
  cbn [head_is] in Hz. apply Ascii.eqb_eq in Hz. subst c.
  destruct r as [|c r]; [exfalso; apply Hv; reflexivity|].
  assert (Hc : is_digit 10 c = true).
  { pose proof Hd as Hd'. cbn [all_digits] in Hd'.
    apply andb_true_iff in Hd' as [_ Hd'].
    apply andb_true_iff in Hd' as [Hc _]. exact Hc. }
  pose proof (all_digits_weaken _ Hd) as H16.
  assert (Hl : lstrip (String "0" (String c r)) = String "0" (String c r))
    by reflexivity.
  assert (Hs : split_sign (String "0" (String c r))
               = (false, String "0" (String c r))) by reflexivity.
  assert (Hu : starts_with_underscore (String "0" (String c r)) = false)
    by reflexivity.
  unfold PyLong_FromString.
  rewrite Hl, Hs, (decimal_digit_no_prefix c r Hc), strip_prefix_decimal, Hu,
    (scan_all_digits 10 (String "0" (String c r)) 0 0 H16 Hd).
  apply Z.eqb_neq in Hv. rewrite Hv.
  destruct (negb (is_binary_base 10)
            && exceeds_limit (0 + String.length (String "0" (String c r))));
    discriminate.
Qed.

(** A literal with a sign in front. *)
Lemma FromString_signed (s0 s : string) (neg : bool) (base b : Z) (flag : bool)
  (c : ascii) (r : string) :
  lstrip s0 = s0 ->
  split_sign s0 = (neg, s) ->
  detect_base base s = (b, flag) ->
  strip_prefix b s = String c r ->
  all_digits 16 (String c r) = true ->
  all_digits b (String c r) = true ->
  negb (is_binary_base b) && exceeds_limit (String.length (String c r)) = false ->
  flag && negb (digits_value b 0 (String c r) =? 0) = false ->
  PyLong_FromString s0 base
  = Value (if neg then - digits_value b 0 (String c r)
           else digits_value b 0 (String c r)).
Proof.
  intros Hl Hs Hb Hp H16 Hd Hlimit Hflag. unfold PyLong_FromString.
  rewrite Hl, Hs, Hb, Hp.
  assert (Hu : starts_with_underscore (String c r) = false).
  { simpl in H16. apply andb_true_iff in H16 as [Hc _].
    apply (hex_digit_char c Hc). }
  rewrite Hu, (scan_all_digits b (String c r) 0 0 H16 Hd).
  cbn [Nat.add]. rewrite Hlimit, Hflag. reflexivity.
Qed.

Lemma FromString_signed_decimal (sign : ascii) (neg : bool) (s : string) :
  (sign = "+"%char /\ neg = false) \/ (sign = "-"%char /\ neg = true) ->
  decimal_form s = true ->
  exceeds_limit (String.length s) = false ->
  PyLong_FromString (String sign s) 0
  = Value (if neg then - digits_value 10 0 s else digits_value 10 0 s).
Proof.
  intros Hsign Hform Hlimit. revert Hform. unfold decimal_form.
  rewrite !andb_true_iff, orb_true_iff, negb_true_iff.
  intros [[Hne Hd] Hz]. destruct s as [|c r]; [discriminate Hne|].
  pose proof (all_digits_weaken _ Hd) as H16.
  assert (Hc : is_digit 16 c = true).
  { simpl in H16. apply andb_true_iff in H16 as [Hc _]. exact Hc. }
  assert (Hl : lstrip (String sign (String c r)) = String sign (String c r)).
  { destruct Hsign as [[-> _] | [-> _]]; reflexivity. }
  assert (Hs : split_sign (String sign (String c r)) = (neg, String c r)).
  { destruct Hsign as [[-> ->] | [-> ->]]; reflexivity. }
  destruct Hz as [Hz | Hz].
  - apply negb_true_iff in Hz. apply head_not_zero in Hz.
    apply FromString_signed with (s := String c r) (b := 10) (flag := false);
      [exact Hl | exact Hs | apply detect_base_decimal, Hz
      | apply strip_prefix_decimal | exact H16 | exact Hd
      | rewrite Hlimit; reflexivity | reflexivity].
  - apply String.eqb_eq in Hz. injection Hz as -> ->.
    destruct Hsign as [[-> ->] | [-> ->]]; reflexivity.
Qed.

End Interpreter.

End KeyFacts.

Section KeyNormalize.

Context {py : Interpreter}.

(** C3 (amended): [key_normalize] reads a key through the ASCII buffer
    [int] makes of it, in which Unicode white space and decimal digits
    stand as their ASCII counterparts.  A decimal numeral without a
    superfluous leading zero is accepted with its value as long as it
    has no more digits than the limit of the interpreter, whatever the
    size of the value; one with more digits is read as hexadecimal; a
    [0x]-prefixed hexadecimal numeral is accepted with its value at any
    length; a run of hexadecimal digits that has a letter and no leading
    zero is accepted too and read as hexadecimal.  A key with a code
    point that can stand in no literal, or with white space between two
    characters that are not white space, is rejected with the
    [ValueError] of the second parse. *)
Theorem key_normalize_forms :
  (forall (u : pystr) (s : string),
      PyInt.TransformDecimalAndSpaceToASCII u = s ->
      decimal_form s = true ->
      PyInt.exceeds_limit (String.length s) = false ->
      key_normalize u = inr (digits_value 10 0 s))
  /\ (forall (u : pystr) (s : string),
         PyInt.TransformDecimalAndSpaceToASCII u = s ->
         decimal_form s = true ->
         PyInt.exceeds_limit (String.length s) = true ->
         key_normalize u = inr (digits_value 16 0 s))
  /\ (forall (u : pystr) (r : string),
         PyInt.TransformDecimalAndSpaceToASCII u = "0x" ++ r ->
         PyInt.is_empty r = false -> all_digits 16 r = true ->
         key_normalize u = inr (digits_value 16 0 r))
  /\ (forall (u : pystr) (s : string),
         PyInt.TransformDecimalAndSpaceToASCII u = s ->
         all_digits 16 s = true -> all_digits 10 s = false ->
         head_is "0" s = false ->
         key_normalize u = inr (digits_value 16 0 s))
  /\ (forall (u : pystr) (ch : N),
         In ch u -> foreign ch = true ->
         key_normalize u
         = inl (PyInt.invalid_literal (code_points "0x" ++ u)%list 16))
  /\ (forall (u : pystr) (a b : string) (w : ascii),
         PyInt.TransformDecimalAndSpaceToASCII u = a ++ String w b ->
         has_nonspace a = true -> PyInt.is_space w = true ->
         has_nonspace b = true ->
         key_normalize u
         = inl (PyInt.invalid_literal (code_points "0x" ++ u)%list 16)).
Proof.
  split; [|split; [|split; [|split; [|split]]]].
  - intros u s <- Hform Hlimit. apply KeyFacts.key_normalize_first.
    rewrite (KeyFacts.FromString_decimal _ Hform), Hlimit. reflexivity.
  - intros u s Hbuf Hform Hlimit.
    rewrite KeyFacts.key_normalize_second.
    + rewrite Hbuf, (KeyFacts.FromString_hex 16 s); [reflexivity | auto | |].
      * destruct s; [discriminate Hform | reflexivity].
      * apply KeyFacts.all_digits_weaken.
        unfold decimal_form in Hform. rewrite !andb_true_iff in Hform.
        apply Hform.
    + intros v. rewrite Hbuf, (KeyFacts.FromString_decimal _ Hform), Hlimit.
      discriminate.
  - intros u r Hbuf Hne H16. apply KeyFacts.key_normalize_first.
    rewrite Hbuf. apply KeyFacts.FromString_hex; auto.
  - intros u s Hbuf H16 H10 Hz.
    rewrite KeyFacts.key_normalize_second.
    + rewrite Hbuf, (KeyFacts.FromString_hex 16 s); [reflexivity | auto | | exact H16].
      destruct s; [discriminate H10 | reflexivity].
    + rewrite Hbuf. apply KeyFacts.FromString_bare_hex_fails; assumption.
  - intros u ch Hin Hforeign.
    pose proof (KeyFacts.foreign_in_buffer u ch Hin Hforeign) as Hbad.
    rewrite KeyFacts.key_normalize_second.
    + destruct (PyInt.PyLong_FromString
                  ("0x" ++ PyInt.TransformDecimalAndSpaceToASCII u) 16)
        as [v| |digits] eqn:Hsecond; try reflexivity.
      apply KeyFacts.accepted_literal in Hsecond; [|auto].
      change (every literal_char ("0x" ++ PyInt.TransformDecimalAndSpaceToASCII u))
        with (every literal_char (PyInt.TransformDecimalAndSpaceToASCII u))
        in Hsecond.
      congruence.
    + intros v Hfirst. apply KeyFacts.accepted_literal in Hfirst; [|auto].
      congruence.
  - intros u a b w Hbuf Ha Hw Hb.
    rewrite KeyFacts.key_normalize_second.
    + destruct (PyInt.PyLong_FromString
                  ("0x" ++ PyInt.TransformDecimalAndSpaceToASCII u) 16)
        as [v| |digits] eqn:Hsecond; try reflexivity.
      apply KeyFacts.accepted_compact in Hsecond.
      rewrite Hbuf in Hsecond.
      change ("0x" ++ (a ++ String w b)) with (("0x" ++ a) ++ String w b)
        in Hsecond.
      rewrite (KeyFacts.interior_space ("0x" ++ a) b w) in Hsecond;
        [discriminate | reflexivity | exact Hw | exact Hb].
    + intros v Hfirst. apply KeyFacts.accepted_compact in Hfirst.
      rewrite Hbuf, (KeyFacts.interior_space a b w Ha Hw Hb) in Hfirst.
      discriminate.
Qed.

End KeyNormalize.

(** C3 (as stated, refuted): a string of neither documented form is
    accepted, and so is a numeral beyond 64 bits: the bare hexadecimal
    ["ff"] is neither a decimal numeral nor [0x]-prefixed and is read as
    255; the decimal numeral of [2^64] is returned as it is; and the
    decimal digits ["010"] are read as hexadecimal 16. *)
Lemma key_normalize_not_as_documented :
  (decimal_digits_form "ff" = false /\ hex_form "ff" = false
   /\ @key_normalize Reference.interpreter "ff" = inr 255)
  /\ (decimal_form "18446744073709551616" = true
      /\ @key_normalize Reference.interpreter "18446744073709551616"
         = inr (2 ^ 64)
      /\ fits_64_bits (2 ^ 64) = false)
  /\ (decimal_digits_form "010" = true
      /\ @key_normalize Reference.interpreter "010" = inr 16).
Proof. vm_compute. repeat split. Qed.

(** The amended statement at ["1234"], at the Arabic-Indic digits of 12
    behind a no-break space, at 4301 digits, at ["0x1F"], ["c0ffee"],
    ["0xg"] and ["12 34"]. *)
Lemma key_normalize_forms_witness :
  @key_normalize Reference.interpreter "1234" = inr 1234
  /\ @key_normalize Reference.interpreter [1633; 1634]%N = inr 12
  /\ @key_normalize Reference.interpreter
       (string_of_list_ascii (repeat "1"%char 4301))
     = inr (digits_value 16 0 (string_of_list_ascii (repeat "1"%char 4301)))
  /\ @key_normalize Reference.interpreter "0x1F" = inr 31
  /\ @key_normalize Reference.interpreter "c0ffee" = inr 12648430
  /\ @key_normalize Reference.interpreter "0xg"
     = inl (ValueError "invalid literal for int() with base 16: '0x0xg'")
  /\ @key_normalize Reference.interpreter "12 34"
     = inl (ValueError "invalid literal for int() with base 16: '0x12 34'").
Proof.
  destruct (@key_normalize_forms Reference.interpreter)
    as (Hdec & Hlong & Hhex & Hbare & Hforeign & Hspace).
  split; [|split; [|split; [|split; [|split; [|split]]]]].
  - apply (Hdec "1234" "1234"); reflexivity.
  - apply (Hdec [1633; 1634]%N "12"); reflexivity.
  - apply (Hlong (string_of_list_ascii (repeat "1"%char 4301))
             (string_of_list_ascii (repeat "1"%char 4301)));
      vm_compute; reflexivity.
  - apply (Hhex "0x1F" "1F"); reflexivity.
  - apply (Hbare "c0ffee" "c0ffee"); reflexivity.
  - apply (Hforeign "0xg" 103%N); [right; right; left; reflexivity | reflexivity].
  - apply (Hspace "12 34" "12" "34" " "%char); reflexivity.
Defined.

(** ** [find_usm] on a single file *)
Section FindUsmFile.

Context {core : UsmCore}.

Lemma isfile_of_stat (t : node) (cwd : list string) (p : string) (content : list byte) :
  stat t cwd p = inr (File content) -> isfile t cwd p = true.
Proof. unfold isfile. intros ->. reflexivity. Qed.

Lemma isfile_inv (t : node) (cwd : list string) (p : string) :
  isfile t cwd p = true -> exists content, stat t cwd p = inr (File content).
Proof.
  unfold isfile. destruct (stat t cwd p) as [e|[content|es]]; try discriminate.
  intros _. exists content. reflexivity.
Qed.

(** A regular file is not a directory. *)
Lemma isfile_not_isdir (t : node) (cwd : list string) (p : string) :
  isfile t cwd p = true -> isdir t cwd p = false.
Proof.
  unfold isfile, isdir. destruct (stat t cwd p) as [e|[content|es]];
    intros H; try discriminate H; reflexivity.
Qed.

Lemma read_magic_file (w : world) (p : string) (content : list byte) :
  stat (root w) (cwd w) p = inr (File content) ->
  read_magic p w = (inr (firstn 4 content), w).
Proof.
  intros H. unfold read_magic, bind, get_world, lift, read_prefix.
  rewrite H. reflexivity.
Qed.

(** A single file with a bad signature: [ValueError], nothing touched. *)
Lemma find_usm_file_bad (w : world) (input : string) (content : list byte) :
  stat (root w) (cwd w) input = inr (File content) ->
  is_usm (firstn 4 content) = false ->
  find_usm input w = (inl (ValueError "Not a usm file."), w).
Proof.
  intros Hstat Hbad. unfold find_usm, bind at 1, get_world.
  rewrite (isfile_of_stat _ _ _ _ Hstat). unfold bind.
  rewrite (read_magic_file w input content Hstat), Hbad. reflexivity.
Qed.

(** A single file with a good signature is handed back as it came. *)
Lemma find_usm_file_good (w : world) (input : string) (content : list byte) :
  stat (root w) (cwd w) input = inr (File content) ->
  is_usm (firstn 4 content) = true ->
  find_usm input w = (inr [UStr input], w).
Proof.
  intros Hstat Hgood. unfold find_usm, bind at 1, get_world.
  rewrite (isfile_of_stat _ _ _ _ Hstat). unfold bind.
  rewrite (read_magic_file w input content Hstat), Hgood. reflexivity.
Qed.

(** [dir_or_parent_dir] only looks. *)
Lemma dir_or_parent_dir_eq (w : world) (p : string) :
  dir_or_parent_dir p w
  = (inr (if isdir (root w) (cwd w) (path_str (Path p))
          then path_resolve (cwd w) (path_parent (Path p))
          else Path p), w).
Proof.
  unfold dir_or_parent_dir, bind, get_world.
  destruct (isdir (root w) (cwd w) (path_str (Path p))); reflexivity.
Qed.

(** C4: when the input names a regular file whose first four bytes are
    not a USM signature, [extract_usm], [probe_usm] and [encrypt_usm]
    all end with [ValueError("Not a usm file.")] and leave the world as
    it was: nothing is printed, nothing written, and no call into the
    container ([Usm.open], [demux], [stream]) is in the trace. *)
Theorem bad_signature_stops_commands (w : world) (input : string)
  (content : list byte) :
  stat (root w) (cwd w) input = inr (File content) ->
  is_usm (firstn 4 content) = false ->
  forall (output : string) (out : option string) (key : option Z)
         (encoding ffprobe : string) (pages : bool) (workers : Z),
    extract_usm input output key encoding pages workers w
    = (inl (ValueError "Not a usm file."), w)
    /\ probe_usm input out ffprobe encoding w
       = (inl (ValueError "Not a usm file."), w)
    /\ encrypt_usm input out key encoding w
       = (inl (ValueError "Not a usm file."), w).
Proof.
  intros Hstat Hbad output out key encoding ffprobe pages workers.
  pose proof (find_usm_file_bad w input content Hstat Hbad) as Hfind.
  repeat split.
  - unfold extract_usm, bind at 1. rewrite Hfind. reflexivity.
  - unfold probe_usm, bind at 1. rewrite Hfind. reflexivity.
  - unfold encrypt_usm, bind at 1.
    destruct out as [o|].
    + unfold ret, bind at 1. rewrite Hfind. reflexivity.
    + rewrite dir_or_parent_dir_eq. unfold bind at 1. rewrite Hfind. reflexivity.
Qed.

End FindUsmFile.

(** C4 at the file [work/fake.usm] of the reference tree, which starts
    with [RIFF]. *)
Lemma bad_signature_stops_commands_witness :
  extract_usm "work/fake.usm" "out" (Some 7) "shift-jis" false 4
    (Reference.start [])
  = (inl (ValueError "Not a usm file."), Reference.start [])
  /\ probe_usm "work/fake.usm" (Some "logs") "." "shift-jis" (Reference.start [])
     = (inl (ValueError "Not a usm file."), Reference.start [])
  /\ encrypt_usm "work/fake.usm" (Some "logs") (Some 7) "shift-jis"
       (Reference.start [])
     = (inl (ValueError "Not a usm file."), Reference.start []).
Proof.
  exact (bad_signature_stops_commands (Reference.start []) "work/fake.usm"
           (Reference.bytes "RIFFxxxx") eq_refl eq_refl
           "out" (Some "logs") (Some 7) "shift-jis" "." false 4).
Defined.

(** ** Paths and the tree *)
Section PathFacts.

Lemma split_nonempty (sep : ascii) (s : string) : split sep s <> [].
Proof.
  destruct s as [|c r]; simpl; [discriminate|].
  destruct (Ascii.eqb c sep); [discriminate|].
  destruct (split sep r); discriminate.
Qed.

(** No piece of a split contains the separator. *)
Lemma split_pieces (sep : ascii) (s : string) :
  Forall (fun x => contains sep x = false) (split sep s).
Proof.
  induction s as [|c r IH]; simpl.
  - constructor; [reflexivity | constructor].
  - destruct (Ascii.eqb c sep) eqn:Hc.
    + constructor; [reflexivity | exact IH].
    + destruct (split sep r) as [|h t]; inversion IH; subst.
      * constructor; [simpl; rewrite Hc; reflexivity | constructor].
      * constructor; [simpl; rewrite Hc; assumption | assumption].
Qed.

Lemma split_one (sep : ascii) (x : string) :
  contains sep x = false -> split sep x = [x].
Proof.
  induction x as [|c r IH]; simpl; [reflexivity|].
  rewrite orb_false_iff. intros [Hc Hr]. rewrite Hc, (IH Hr). reflexivity.
Qed.

Lemma split_app (sep : ascii) (x r : string) :
  contains sep x = false ->
  split sep (x ++ String sep r) = x :: split sep r.
Proof.
  induction x as [|c x IH]; simpl.
  - intros _. rewrite Ascii.eqb_refl. reflexivity.
  - rewrite orb_false_iff. intros [Hc Hx]. rewrite Hc, (IH Hx). reflexivity.
Qed.

(** Splitting what was joined gives the pieces back. *)
Lemma split_concat (sep : ascii) (l : list string) :
  l <> [] -> Forall (fun x => contains sep x = false) l ->
  split sep (String.concat (String sep EmptyString) l) = l.
Proof.
  induction l as [|x l IH]; intros Hne Hall; [contradiction|].
  inversion Hall as [|? ? Hx Hl]; subst.
  destruct l as [|y l].
  - simpl. apply split_one, Hx.
  - change (String.concat (String sep "") (x :: y :: l))
      with (x ++ String sep (String.concat (String sep "") (y :: l))).
    rewrite (split_app sep x _ Hx), IH; [reflexivity | discriminate | exact Hl].
Qed.

Lemma Forall_filter {A} (P : A -> Prop) (f : A -> bool) (l : list A) :
  Forall P l -> Forall P (filter f l).
Proof.
  induction 1 as [|a l Ha Hl IH]; simpl; [constructor|].
  destruct (f a); [constructor|]; assumption.
Qed.

(** Dropping the empty and [.] components keeps where a successful walk
    ends. *)
Lemma walk_filter (t : node) (pn pn' : string) (comps : list string) :
  forall loc l,
    walk t pn loc comps = inr l ->
    walk t pn' loc (filter keep_component comps) = inr l.
Proof.
  induction comps as [|c cs IH]; intros loc l H; simpl in *; [exact H|].
  destruct (node_at t loc) as [[content|es]|] eqn:Hn; try discriminate H.
  unfold keep_component at 1.
  destruct (String.eqb c "" || String.eqb c ".") eqn:Hskip; simpl.
  - apply IH, H.
  - rewrite Hn, Hskip. destruct (String.eqb c ".."); apply IH, H.
Qed.

Lemma walk_from_root (t : node) (pn : string) (cs : list string) :
  walk t pn [] (EmptyString :: cs)
  = match t with
    | Dir _ => walk t pn [] cs
    | File _ => inl (NotADirectoryError pn)
    end.
Proof. destruct t; reflexivity. Qed.

Lemma head_is_concat (c : ascii) (x : string) (l : list string) :
  head_is c x = false -> PyInt.is_empty x = false ->
  head_is c (String.concat "/" (x :: l)) = false.
Proof.
  destruct x as [|c' x]; [discriminate|]. intros H _.
  destruct l; simpl in *; exact H.
Qed.

Lemma contains_head (c : ascii) (x : string) :
  contains c x = false -> head_is c x = false.
Proof.
  destruct x as [|c' x]; simpl; [reflexivity|].
  rewrite orb_false_iff, Ascii.eqb_sym. intros [H _]. exact H.
Qed.

Lemma keep_component_nonempty (x : string) :
  keep_component x = true -> PyInt.is_empty x = false.
Proof. destruct x; [discriminate | reflexivity]. Qed.

(** The parts of a path are proper components. *)
Lemma parts_Path (p : string) :
  Forall (fun x => contains "/" x = false /\ keep_component x = true)
    (parts (Path p)).
Proof.
  unfold Path. simpl. pose proof (split_pieces "/" p) as H.
  induction H as [|x l Hx Hl IH]; simpl; [constructor|].
  destruct (keep_component x) eqn:Hk; [|exact IH].
  constructor; [|exact IH]. split; [exact Hx | exact Hk].
Qed.

(** The text of [Path(p)] resolves to a regular file whenever [p] does:
    normalising the text cannot turn a file into a directory. *)
Lemma stat_Path_file (t : node) (cwd : list string) (p : string) (content : list byte) :
  stat t cwd p = inr (File content) ->
  isdir t cwd (path_str (Path p)) = false.
Proof.
  unfold stat, locate. destruct (PyInt.is_empty p) eqn:Hp; [discriminate|].
  destruct (walk t p (if head_is "/" p then [] else cwd) (split "/" p))
    as [e|loc] eqn:Hwalk; [discriminate|].
  destruct (node_at t loc) as [n|] eqn:Hloc; [|discriminate].
  intros Hn. injection Hn as ->.
  pose proof (parts_Path p) as Hparts.
  set (q := path_str (Path p)).
  pose proof (walk_filter t p q _ _ _ Hwalk) as Hw.
  change (filter keep_component (split "/" p)) with (parts (Path p)) in Hw.
  unfold isdir, stat, locate. subst q. unfold path_str in *.
  change (anchored (Path p)) with (head_is "/" p) in *.
  destruct (parts (Path p)) as [|x l] eqn:Hps.
  - simpl in Hw. injection Hw as <-.
    destruct (head_is "/" p); simpl.
    + simpl in Hloc. injection Hloc as ->. reflexivity.
    + rewrite Hloc. reflexivity.
  - inversion Hparts as [|? ? [Hx Hxk] Hl]; subst.
    pose proof (keep_component_nonempty x Hxk) as Hxe.
    assert (Hall : Forall (fun y => contains "/" y = false) (x :: l)).
    { constructor; [exact Hx|]. eapply Forall_impl; [|exact Hl]. intros ? [? _]. assumption. }
    destruct (head_is "/" p).
    + change (("/" ++ String.concat "/" (x :: l))%string)
        with (String "/" (String.concat "/" (x :: l))) in *.
      simpl PyInt.is_empty. simpl head_is.
      change (split "/" (String "/" (String.concat "/" (x :: l))))
        with (EmptyString :: split "/" (String.concat "/" (x :: l))).
      rewrite (split_concat "/" (x :: l)) by (discriminate || exact Hall).
      rewrite walk_from_root.
      destruct t as [c0|es0]; [reflexivity|].
      rewrite Hw, Hloc. reflexivity.
    + change (("" ++ String.concat "/" (x :: l))%string)
        with (String.concat "/" (x :: l)) in *.
      rewrite (head_is_concat "/" x l (contains_head _ _ Hx) Hxe).
      rewrite (split_concat "/" (x :: l)) by (discriminate || exact Hall).
      assert (He : PyInt.is_empty (String.concat "/" (x :: l)) = false).
      { destruct x; [discriminate|]. destruct l; reflexivity. }
      rewrite He, Hw, Hloc. reflexivity.
Qed.

End PathFacts.

(** ** Running the building blocks *)
Section Runs.

Context {core : UsmCore}.

Lemma write_packets_run (dest : string) (loc : list string)
  (packets : list (list byte)) :
  forall w,
    write_packets dest loc packets w
    = (inr tt,
       mkWorld (written (root w) loc packets) (cwd w)
         (trace w ++ map (EvWrite dest) packets) (entropy w)).
Proof.
  unfold write_packets.
  induction packets as [|packet rest IH]; intros w.
  - simpl. unfold ret. rewrite app_nil_r. destruct w; reflexivity.
  - cbn [for_each]. unfold bind at 1.
    cbv beta iota delta [bind get_world set_root emit].
    rewrite IH. cbn [root cwd trace entropy map written fold_left].
    rewrite <- app_assoc. reflexivity.
Qed.

(** What [write_stream] does, in one equation. *)
Lemma write_stream_run (dest : string) (u : container) (mode : OpMode)
  (encoding : string) (w : world) :
  write_stream dest u mode encoding w
  = match open_wb (root w) (cwd w) dest with
    | inl e => (inl e, w)
    | inr (loc, t) =>
        (match snd (Usm_stream u mode encoding) with
         | Some e => inl e
         | None => inr tt
         end,
         mkWorld (written t loc (fst (Usm_stream u mode encoding))) (cwd w)
           (trace w ++ EvStream u mode encoding
              :: map (EvWrite dest) (fst (Usm_stream u mode encoding)))
           (entropy w))
    end.
Proof.
  unfold write_stream.
  cbv beta iota delta [bind get_world lift set_root emit].
  destruct (open_wb (root w) (cwd w) dest) as [e|[loc t]]; [reflexivity|].
  destruct (Usm_stream u mode encoding) as [packets failure].
  rewrite write_packets_run. cbn [root cwd trace entropy fst snd].
  rewrite <- app_assoc.
  destruct failure; reflexivity.
Qed.

Lemma usm_open_run (f : usmfile) (encoding : option string) (key : option Z)
  (w : world) :
  usm_open f encoding key w
  = (Usm_open (root w) (cwd w) f encoding key,
     mkWorld (root w) (cwd w) (trace w ++ [EvUsmOpen f encoding key]) (entropy w)).
Proof. reflexivity. Qed.

End Runs.

(** ** [dir_or_parent_dir] and the destination of [encrypt_usm] *)
Section Destination.

Context {core : UsmCore}.

Lemma walk_app (t : node) (pn : string) (a b : list string) :
  forall loc,
    walk t pn loc (a ++ b)
    = match walk t pn loc a with
      | inr l => walk t pn l b
      | inl e => inl e
      end.
Proof.
  induction a as [|c a IH]; intros loc; simpl; [reflexivity|].
  destruct (node_at t loc) as [[content|es]|]; try reflexivity.
  destruct (String.eqb c "" || String.eqb c "."); [apply IH|].
  destruct (String.eqb c ".."); apply IH.
Qed.

Lemma last_In {A} (l : list A) (d a : A) : In (last (a :: l) d) (a :: l).
Proof.
  revert a. induction l as [|b l IH]; intros a; [left; reflexivity|].
  right. apply (IH b).
Qed.

(** A proper component read as a path is that one part. *)
Lemma Path_component (x : string) :
  contains "/" x = false -> keep_component x = true ->
  Path x = {| anchored := false; parts := [x] |}.
Proof.
  intros Hx Hk. unfold Path. rewrite (split_one "/" x Hx). simpl.
  rewrite Hk, (contains_head "/" x Hx). reflexivity.
Qed.

(** Under a regular file nothing can be opened: the destination that
    [encrypt_usm] builds from the file itself cannot be created. *)
Lemma open_wb_under_file (t : node) (cwd : list string) (p : string)
  (content : list byte) :
  stat t cwd p = inr (File content) ->
  open_wb t cwd (encrypt_destination (Path p) (UStr p))
  = inl (NotADirectoryError (encrypt_destination (Path p) (UStr p))).
Proof.
  unfold stat, locate. destruct (PyInt.is_empty p) eqn:Hp; [discriminate|].
  destruct (walk t p (if head_is "/" p then [] else cwd) (split "/" p))
    as [e|loc] eqn:Hwalk; [discriminate|].
  destruct (node_at t loc) as [n|] eqn:Hloc; [|discriminate].
  intros Hn. injection Hn as ->.
  pose proof (parts_Path p) as Hparts.
  unfold encrypt_destination, usmfile_name, path_name.
  set (name := last (parts (Path p)) "").
  destruct (parts (Path p)) as [|x l] eqn:Hps.
  - (* the path has no part: it is the root or the current directory *)
    pose proof (walk_filter t p p _ _ _ Hwalk) as Hw.
    change (filter keep_component (split "/" p)) with (parts (Path p)) in Hw.
    rewrite Hps in Hw. simpl in Hw. injection Hw as <-.
    subst name. cbn [last]. unfold joinpath.
    change (Path "") with {| anchored := false; parts := [] |}.
    cbn [anchored parts]. rewrite Hps. unfold path_str. cbn [anchored parts app].
    change (anchored (Path p)) with (head_is "/" p).
    unfold open_wb, locate.
    destruct (head_is "/" p); simpl.
    + simpl in Hloc. injection Hloc as ->. reflexivity.
    + rewrite Hloc. reflexivity.
  - assert (Hin : In name (x :: l)) by apply last_In.
    rewrite Forall_forall in Hparts. destruct (Hparts name Hin) as [Hname Hkeep].
    unfold joinpath. rewrite (Path_component name Hname Hkeep).
    cbn [anchored parts]. rewrite Hps.
    set (dest := path_str {| anchored := anchored (Path p);
                             parts := (x :: l) ++ [name] |}).
    pose proof (walk_filter t p dest _ _ _ Hwalk) as Hw.
    change (filter keep_component (split "/" p)) with (parts (Path p)) in Hw.
    rewrite Hps in Hw.
    assert (Hall : Forall (fun y => contains "/" y = false) ((x :: l) ++ [name])).
    { rewrite Forall_forall. intros y Hy. apply in_app_or in Hy as [Hy|[<-|[]]].
      - apply (Hparts y Hy).
      - exact Hname. }
    destruct (Hparts x (or_introl eq_refl)) as [Hx Hxk].
    pose proof (keep_component_nonempty x Hxk) as Hxe.
    assert (Hstep : walk t dest (if head_is "/" p then [] else cwd) ((x :: l) ++ [name])
                    = inl (NotADirectoryError dest)).
    { rewrite walk_app, Hw. simpl. rewrite Hloc. reflexivity. }
    assert (Hdest : dest = ((if head_is "/" p then "/" else "")
                            ++ String.concat "/" (x :: (l ++ [name])))%string).
    { reflexivity. }
    assert (Hsplit : split "/" (String.concat "/" (x :: (l ++ [name])))
                     = ((x :: l) ++ [name])%list).
    { apply (split_concat "/" (x :: (l ++ [name]))); [discriminate | exact Hall]. }
    assert (Hhead : head_is "/" (String.concat "/" (x :: (l ++ [name]))) = false).
    { apply head_is_concat; [apply contains_head, Hx | exact Hxe]. }
    assert (He : PyInt.is_empty (String.concat "/" (x :: (l ++ [name]))) = false).
    { destruct x; [discriminate|]. destruct (l ++ [name])%list; reflexivity. }
    unfold open_wb, locate.
    destruct (head_is "/" p) eqn:Ha.
    + assert (H1 : PyInt.is_empty dest = false) by (rewrite Hdest; reflexivity).
      assert (H2 : head_is "/" dest = true) by (rewrite Hdest; reflexivity).
      assert (H3 : split "/" dest = (EmptyString :: (x :: l) ++ [name])%list).
      { rewrite Hdest, <- Hsplit. reflexivity. }
      rewrite H1, H2, H3, walk_from_root.
      destruct t as [c0|es0]; [reflexivity|].
      rewrite Hstep. reflexivity.
    + assert (H1 : PyInt.is_empty dest = false) by (rewrite Hdest; exact He).
      assert (H2 : head_is "/" dest = false) by (rewrite Hdest; exact Hhead).
      assert (H3 : split "/" dest = ((x :: l) ++ [name])%list) by (rewrite Hdest; exact Hsplit).
      rewrite H1, H2, H3, Hstep. reflexivity.
Qed.

(** With no output option and a single file as input, [encrypt_usm] runs
    its loop once, with the input itself as the output directory. *)
Lemma encrypt_single_file_run (w : world) (p : string) (content : list byte)
  (key : option Z) (encoding : string) :
  stat (root w) (cwd w) p = inr (File content) ->
  is_usm (firstn 4 content) = true ->
  encrypt_usm p None key encoding w
  = for_each [UStr p] (encrypt_one (Path p) key encoding) w.
Proof.
  intros Hstat Hgood. unfold encrypt_usm.
  unfold bind at 1. rewrite dir_or_parent_dir_eq.
  rewrite (stat_Path_file _ _ _ _ Hstat).
  unfold bind at 1. rewrite (find_usm_file_good w p content Hstat Hgood).
  reflexivity.
Qed.

(** Whatever the core, that one round opens the container and then
    fails to create its destination; nothing is written. *)
Lemma encrypt_single_file_fails (w : world) (p : string) (content : list byte)
  (key : option Z) (encoding : string) (u : container) (vk ak : KeyMaterial) :
  stat (root w) (cwd w) p = inr (File content) ->
  is_usm (firstn 4 content) = true ->
  Usm_open (root w) (cwd w) (UStr p) None None = inr u ->
  generate_keys key = inr (vk, ak) ->
  encrypt_usm p None key encoding w
  = (inl (NotADirectoryError (encrypt_destination (Path p) (UStr p))),
     mkWorld (root w) (cwd w) (trace w ++ [EvUsmOpen (UStr p) None None])
       (entropy w)).
Proof.
  intros Hstat Hgood Hopen Hkeys.
  rewrite (encrypt_single_file_run w p content key encoding Hstat Hgood).
  cbn [for_each]. unfold bind at 1. unfold encrypt_one.
  unfold bind at 1. rewrite usm_open_run, Hopen.
  unfold bind at 1. unfold lift, install_keys. rewrite Hkeys.
  rewrite write_stream_run. cbn [root cwd trace entropy].
  rewrite (open_wb_under_file _ _ _ _ Hstat). reflexivity.
Qed.

(** Where a resolution ends is where folding the components lexically
    ends. *)
Lemma walk_normalize (t : node) (pn : string) (comps : list string) :
  Forall (fun c => keep_component c = true) comps ->
  forall start loc,
    walk t pn start comps = inr loc -> loc = normalize start comps.
Proof.
  induction 1 as [|c cs Hc _ IH]; intros start loc H; simpl in H.
  - injection H as <-. reflexivity.
  - destruct (node_at t start) as [[content|es]|]; try discriminate H.
    unfold keep_component in Hc. apply negb_true_iff in Hc. rewrite Hc in H.
    simpl. destruct (String.eqb c ".."); apply IH, H.
Qed.

Lemma normalize_app (a b : list string) :
  forall acc, normalize acc (a ++ b) = normalize (normalize acc a) b.
Proof.
  induction a as [|c a IH]; intros acc; simpl; [reflexivity|].
  destruct (String.eqb c ".."); apply IH.
Qed.

(** The location of [str(Path(p))] is the fold of the parts of the path,
    from the root or from the working directory. *)
Lemma locate_Path (t : node) (cwd : list string) (p : string) (loc : list string) :
  locate t cwd (path_str (Path p)) = inr loc ->
  loc = normalize (if anchored (Path p) then [] else cwd) (parts (Path p)).
Proof.
  pose proof (parts_Path p) as Hparts.
  unfold locate, path_str.
  destruct (parts (Path p)) as [|x l] eqn:Hps.
  - destruct (anchored (Path p)); simpl.
    + destruct t as [content|es]; [discriminate|].
      intros H. injection H as <-. reflexivity.
    + destruct (node_at t cwd) as [[content|es]|]; try discriminate.
      intros H. injection H as <-. reflexivity.
  - inversion Hparts as [|? ? [Hx Hxk] Hl]; subst.
    pose proof (keep_component_nonempty x Hxk) as Hxe.
    assert (Hall : Forall (fun y => contains "/" y = false) (x :: l)).
    { constructor; [exact Hx|]. eapply Forall_impl; [|exact Hl].
      intros ? [? _]. assumption. }
    assert (Hkeep : Forall (fun c => keep_component c = true) (x :: l)).
    { constructor; [exact Hxk|]. eapply Forall_impl; [|exact Hl].
      intros ? [_ ?]. assumption. }
    destruct (anchored (Path p)).
    + change (("/" ++ String.concat "/" (x :: l))%string)
        with (String "/" (String.concat "/" (x :: l))).
      simpl PyInt.is_empty. simpl head_is.
      change (split "/" (String "/" (String.concat "/" (x :: l))))
        with (EmptyString :: split "/" (String.concat "/" (x :: l))).
      rewrite (split_concat "/" (x :: l)) by (discriminate || exact Hall).
      rewrite walk_from_root.
      destruct t as [c0|es0]; [discriminate|].
      apply walk_normalize, Hkeep.
    + change (("" ++ String.concat "/" (x :: l))%string)
        with (String.concat "/" (x :: l)).
      rewrite (head_is_concat "/" x l (contains_head _ _ Hx) Hxe).
      rewrite (split_concat "/" (x :: l)) by (discriminate || exact Hall).
      assert (He : PyInt.is_empty (String.concat "/" (x :: l)) = false).
      { destruct x; [discriminate|]. destruct l; reflexivity. }
      rewrite He. apply walk_normalize, Hkeep.
Qed.

Lemma isdir_of_location (t : node) (cwd : list string) (pathname : string)
  (loc : list string) :
  locate t cwd pathname = inr loc -> is_dir_at t loc = true ->
  isdir t cwd pathname = true.
Proof.
  unfold isdir, stat, is_dir_at. intros ->.
  destruct (node_at t loc) as [[content|es]|]; try discriminate. reflexivity.
Qed.

(** C9 (amended): what [dir_or_parent_dir] returns for a directory is
    [path.parent.resolve()], the path without its last component, made
    absolute.  When the last component is a name, that is the directory
    which holds the given one, as an absolute path without [..]; when
    the path has no component at all, as [.] has, it is the given
    directory itself; and when the last component is [..], it is a
    directory below the given one, or the root.  For every other path
    the result is the path itself, as [Path(path)]; a path naming a
    regular file is such a path, so that [encrypt_usm] on a single file
    with no output option runs its loop once with the input as output
    directory, and the destination is the name of the file joined onto
    the path of the file. *)
Theorem dir_or_parent_dir_cases (w : world) (p : string) :
  (forall ps name loc,
      parts (Path p) = (ps ++ [name])%list -> name <> ".." ->
      locate (root w) (cwd w) (path_str (Path p)) = inr loc ->
      is_dir_at (root w) loc = true ->
      dir_or_parent_dir p w
      = (inr {| anchored := true; parts := removelast loc |}, w)
      /\ loc = (removelast loc ++ [name])%list)
  /\ (forall loc,
        parts (Path p) = [] ->
        locate (root w) (cwd w) (path_str (Path p)) = inr loc ->
        is_dir_at (root w) loc = true ->
        dir_or_parent_dir p w = (inr {| anchored := true; parts := loc |}, w))
  /\ (forall ps loc,
        parts (Path p) = (ps ++ [".."])%list ->
        locate (root w) (cwd w) (path_str (Path p)) = inr loc ->
        is_dir_at (root w) loc = true ->
        exists below,
          dir_or_parent_dir p w
          = (inr {| anchored := true; parts := below |}, w)
          /\ loc = removelast below)
  /\ (isdir (root w) (cwd w) (path_str (Path p)) = false ->
      dir_or_parent_dir p w = (inr (Path p), w))
  /\ (forall content key encoding,
        stat (root w) (cwd w) p = inr (File content) ->
        is_usm (firstn 4 content) = true ->
        dir_or_parent_dir p w = (inr (Path p), w)
        /\ encrypt_usm p None key encoding w
           = for_each [UStr p] (encrypt_one (Path p) key encoding) w
        /\ encrypt_destination (Path p) (UStr p)
           = path_str (joinpath (Path p) (path_name (Path p)))).
Proof.
  split; [|split; [|split; [|split]]].
  - intros ps name loc Hparts Hname Hloc Hdir.
    rewrite dir_or_parent_dir_eq, (isdir_of_location _ _ _ _ Hloc Hdir).
    apply locate_Path in Hloc. rewrite Hparts, normalize_app in Hloc.
    simpl in Hloc. apply String.eqb_neq in Hname. rewrite Hname in Hloc.
    subst loc. rewrite removelast_last.
    unfold path_resolve, path_parent. cbn [anchored parts].
    rewrite Hparts, removelast_last. auto.
  - intros loc Hparts Hloc Hdir.
    rewrite dir_or_parent_dir_eq, (isdir_of_location _ _ _ _ Hloc Hdir).
    apply locate_Path in Hloc. rewrite Hparts in Hloc. simpl in Hloc. subst loc.
    unfold path_resolve, path_parent. cbn [anchored parts].
    rewrite Hparts. reflexivity.
  - intros ps loc Hparts Hloc Hdir.
    rewrite dir_or_parent_dir_eq, (isdir_of_location _ _ _ _ Hloc Hdir).
    apply locate_Path in Hloc. rewrite Hparts, normalize_app in Hloc.
    simpl in Hloc. subst loc.
    exists (normalize (if anchored (Path p) then [] else cwd w) ps).
    unfold path_resolve, path_parent. cbn [anchored parts].
    rewrite Hparts, removelast_last. auto.
  - intros H. rewrite dir_or_parent_dir_eq, H. reflexivity.
  - intros content key encoding Hstat Hgood. split; [|split].
    + rewrite dir_or_parent_dir_eq, (stat_Path_file _ _ _ _ Hstat). reflexivity.
    + apply (encrypt_single_file_run w p content key encoding Hstat Hgood).
    + reflexivity.
Qed.

End Destination.

(** C9 (as stated, refuted): for the directory [.], seen from [/work],
    the result is [/work], the directory itself, where its resolved
    parent is the root; and for [..], seen from [/work/sub], the result
    is [/work/sub], a directory below the one the path names. *)
Lemma dir_or_parent_dir_not_the_parent :
  (locate Reference.tree ["work"] "." = inr ["work"]
   /\ is_dir_at Reference.tree ["work"] = true
   /\ dir_or_parent_dir "." (Reference.start ["work"])
      = (inr {| anchored := true; parts := ["work"] |}, Reference.start ["work"])
   /\ removelast ["work"] <> ["work"])
  /\ (locate Reference.tree ["work"; "sub"] ".." = inr ["work"]
      /\ is_dir_at Reference.tree ["work"] = true
      /\ dir_or_parent_dir ".." (Reference.start ["work"; "sub"])
         = (inr {| anchored := true; parts := ["work"; "sub"] |},
            Reference.start ["work"; "sub"])).
Proof.
  split; [split; [|split; [|split]] | split; [|split]];
    try reflexivity. discriminate.
Qed.

(** C9 on the reference tree: the directory [work/sub] gives [/work];
    the directory [.] in [/work] gives [/work] itself; the directory
    [sub/..] in [/work] gives a directory below [/work]; and the file [work/a.usm]
    gives itself, with [work/a.usm/a.usm] as the destination of
    [encrypt_usm]. *)
Lemma dir_or_parent_dir_cases_witness :
  dir_or_parent_dir "work/sub" (Reference.start [])
  = (inr {| anchored := true; parts := ["work"] |}, Reference.start [])
  /\ dir_or_parent_dir "." (Reference.start ["work"])
     = (inr {| anchored := true; parts := ["work"] |}, Reference.start ["work"])
  /\ (exists below,
        dir_or_parent_dir "sub/.." (Reference.start ["work"])
        = (inr {| anchored := true; parts := below |}, Reference.start ["work"])
        /\ ["work"] = removelast below)
  /\ dir_or_parent_dir "work/a.usm" (Reference.start [])
     = (inr (Path "work/a.usm"), Reference.start [])
  /\ encrypt_destination (Path "work/a.usm") (UStr "work/a.usm")
     = "work/a.usm/a.usm".
Proof.
  destruct (dir_or_parent_dir_cases (Reference.start []) "work/sub")
    as (Hnamed & _).
  destruct (dir_or_parent_dir_cases (Reference.start ["work"]) ".")
    as (_ & Hnone & _).
  destruct (dir_or_parent_dir_cases (Reference.start ["work"]) "sub/..")
    as (_ & _ & Hup & _).
  destruct (dir_or_parent_dir_cases (Reference.start []) "work/a.usm")
    as (_ & _ & _ & _ & Hfile).
  destruct (Hnamed ["work"] "sub" ["work"; "sub"] eq_refl) as [Hsub _];
    [discriminate | reflexivity | reflexivity |].
  destruct (Hfile Reference.plain_usm (Some 5) "shift-jis" eq_refl eq_refl)
    as (Hsame & _ & Hdest).
  split; [exact Hsub|].
  split; [exact (Hnone ["work"] eq_refl eq_refl eq_refl)|].
  split; [exact (Hup ["sub"] ["work"] eq_refl eq_refl eq_refl)|].
  split; [exact Hsame | reflexivity].
Defined.

(** C5 (the failing input): [encrypt_usm] on the single container
    [work/a.usm] with no output option and key 5.  The container is
    opened, then [open("work/a.usm/a.usm", "wb")] raises: no packet is
    written and the tree is as before. *)
Lemma encrypt_single_file_without_output_fails :
  encrypt_usm "work/a.usm" None (Some 5) "shift-jis" (Reference.start [])
  = (inl (NotADirectoryError "work/a.usm/a.usm"),
     mkWorld Reference.tree [] [EvUsmOpen (UStr "work/a.usm") None None]
       ["abc"; "def"; "ghi"]).
Proof.
  exact (encrypt_single_file_fails (Reference.start []) "work/a.usm"
           Reference.plain_usm (Some 5) "shift-jis"
           Reference.opened_a 5 0 eq_refl eq_refl eq_refl eq_refl).
Qed.


(** ** [create_usm] *)
Section Create.

Context {core : UsmCore}.

(** [create_usm] step by step: every failure before the output file is
    opened leaves the world as it was. *)
Lemma create_usm_run (input : string) (input_audio output : option string)
  (ffprobe : string) (key : option Z) (encoding : string) (w : world) :
  create_usm input input_audio output ffprobe key encoding w
  = match codec_from_file (root w) (cwd w) input with
    | inl e => (inl e, w)
    | inr codec =>
        match video_for w input codec with
        | inl e => (inl e, w)
        | inr video =>
            match audios_for w input_audio with
            | inl e => (inl e, w)
            | inr audios =>
                match Usm_new [video] audios key with
                | inl e => (inl e, w)
                | inr u =>
                    match write_stream (create_destination input) u
                            (create_mode key) encoding w with
                    | (inr _, w') => print "Done creating USM file." w'
                    | (inl e, w') => (inl e, w')
                    end
                end
            end
        end
    end.
Proof.
  unfold create_usm, find_ffprobe, video_for, audios_for.
  cbv beta iota delta [bind ret get_world lift raise].
  destruct (codec_from_file (root w) (cwd w) input) as [e|codec]; [reflexivity|].
  destruct codec as [| |tag]; cbn beta iota.
  - destruct (Vp9 (root w) (cwd w) input None) as [e|video]; [reflexivity|].
    destruct (truthy input_audio) as [a|].
    + destruct (HCA (root w) (cwd w) a) as [e|audio]; [reflexivity|].
      destruct (Usm_new [video] (Some [audio]) key); reflexivity.
    + destruct (Usm_new [video] None key); reflexivity.
  - destruct (H264_ (root w) (cwd w) input None) as [e|video]; [reflexivity|].
    destruct (truthy input_audio) as [a|].
    + destruct (HCA (root w) (cwd w) a) as [e|audio]; [reflexivity|].
      destruct (Usm_new [video] (Some [audio]) key); reflexivity.
    + destruct (Usm_new [video] None key); reflexivity.
  - reflexivity.
Qed.

(** C7: when the probe reports a codec that is neither VP9 nor H.264,
    [create_usm] raises [NotImplementedError] and the world is as it
    was: no file was opened, created or written. *)
Theorem unsupported_codec_rejected (w : world) (input : string)
  (input_audio output : option string) (ffprobe : string) (key : option Z)
  (encoding : string) (codec : Sofdec2Codec) :
  codec_from_file (root w) (cwd w) input = inr codec ->
  codec <> VP9 -> codec <> H264 ->
  create_usm input input_audio output ffprobe key encoding w
  = (inl (NotImplementedError "Non-Vp9/H.264 files are not yet implemented."), w).
Proof.
  intros Hcodec Hvp9 Hh264. rewrite create_usm_run, Hcodec.
  destruct codec as [| |tag]; [contradiction | contradiction | reflexivity].
Qed.

(** What a run of [create_usm] adds to the trace: nothing, or the call
    of [stream] on the container the constructor returned, the writes of
    its packets and, when all went well, the closing message. *)
Lemma create_usm_trace (input : string) (input_audio output : option string)
  (ffprobe : string) (key : option Z) (encoding : string) (w : world) :
  let r := create_usm input input_audio output ffprobe key encoding w in
  (trace (snd r) = trace w /\ root (snd r) = root w /\ exists e, fst r = inl e)
  \/ (exists u packets tail,
        trace (snd r)
        = (trace w ++ EvStream u (create_mode key) encoding
             :: map (EvWrite (create_destination input)) packets ++ tail)%list
        /\ (tail = []
            \/ tail = [EvPrint (String.append "Done creating USM file." nl)])
        /\ (fst r = inr tt -> tail <> [])
        /\ exists video audios, Usm_new [video] audios key = inr u).
Proof.
  cbv zeta. rewrite create_usm_run.
  destruct (codec_from_file (root w) (cwd w) input) as [e|codec];
    [left; simpl; eauto|].
  destruct (video_for w input codec) as [e|video]; [left; simpl; eauto|].
  destruct (audios_for w input_audio) as [e|audios]; [left; simpl; eauto|].
  destruct (Usm_new [video] audios key) as [e|u] eqn:Hnew; [left; simpl; eauto|].
  rewrite write_stream_run.
  destruct (open_wb (root w) (cwd w) (create_destination input)) as [e|[loc t]];
    [left; simpl; eauto|].
  right. exists u, (fst (Usm_stream u (create_mode key) encoding)).
  destruct (snd (Usm_stream u (create_mode key) encoding)) as [e|].
  - exists []. simpl. rewrite app_nil_r.
    repeat split; eauto. discriminate.
  - exists [EvPrint (String.append "Done creating USM file." nl)]. simpl.
    rewrite <- app_assoc. simpl.
    repeat split; eauto. discriminate.
Qed.

(** Once the output file is open, [stream] is called, on the container
    the constructor returned. *)
Lemma create_usm_streams (input : string) (input_audio output : option string)
  (ffprobe : string) (key : option Z) (encoding : string) (w : world)
  (codec : Sofdec2Codec) (video : Video) (audios : option (list Audio))
  (u : container) (loc : list string) (t : node) :
  codec_from_file (root w) (cwd w) input = inr codec ->
  video_for w input codec = inr video ->
  audios_for w input_audio = inr audios ->
  Usm_new [video] audios key = inr u ->
  open_wb (root w) (cwd w) (create_destination input) = inr (loc, t) ->
  exists tail,
    trace (snd (create_usm input input_audio output ffprobe key encoding w))
    = (trace w ++ EvStream u (create_mode key) encoding
         :: map (EvWrite (create_destination input))
              (fst (Usm_stream u (create_mode key) encoding)) ++ tail)%list
    /\ (tail = []
        \/ tail = [EvPrint (String.append "Done creating USM file." nl)]).
Proof.
  intros Hcodec Hvideo Haudios Hnew Hopen.
  rewrite create_usm_run, Hcodec, Hvideo, Haudios, Hnew, write_stream_run, Hopen.
  destruct (snd (Usm_stream u (create_mode key) encoding)) as [e|].
  - exists []. simpl. rewrite app_nil_r. auto.
  - exists [EvPrint (String.append "Done creating USM file." nl)]. simpl.
    rewrite <- app_assoc. simpl. auto.
Qed.

Lemma new_events_app (w w' : world) (added : list event) :
  trace w' = (trace w ++ added)%list -> new_events w w' = added.
Proof.
  unfold new_events. intros ->.
  rewrite skipn_app, skipn_all, Nat.sub_diag. reflexivity.
Qed.

Lemma new_events_same (w w' : world) : trace w' = trace w -> new_events w w' = [].
Proof. intros H. apply new_events_app. rewrite app_nil_r. exact H. Qed.

Lemma stream_calls_writes (dest : string) (packets : list (list byte)) :
  stream_calls (map (EvWrite dest) packets) = [].
Proof. induction packets; simpl; auto. Qed.

Lemma writes_of_packets (dest : string) (packets : list (list byte)) :
  writes (map (EvWrite dest) packets) = map (fun p => (dest, p)) packets.
Proof. induction packets as [|p r IH]; simpl; [|rewrite IH]; reflexivity. Qed.

Lemma stream_calls_app (a b : list event) :
  stream_calls (a ++ b) = (stream_calls a ++ stream_calls b)%list.
Proof. apply flat_map_app. Qed.

Lemma writes_app (a b : list event) :
  writes (a ++ b) = (writes a ++ writes b)%list.
Proof. apply flat_map_app. Qed.

(** C6: [create_usm] calls [stream] on the container its constructor
    returned for the key argument, in mode [ENCRYPT] exactly when a key
    was supplied and in mode [NONE] exactly when none was, with the
    encoding it was given.  This holds of every call of [stream] in every
    run; and in every run in which the codec is probed, the streams are
    built, the container is constructed and the output file is opened,
    there is exactly one such call, whether or not the stream then
    fails.  Given that the constructor installs the key it receives, the
    container has both keys with [ENCRYPT] and neither with [NONE]. *)
Theorem create_stream_mode (input : string) (input_audio output : option string)
  (ffprobe : string) (key : option Z) (encoding : string) (w : world) :
  (forall u mode enc,
      In (u, mode, enc)
        (stream_calls
           (new_events w
              (snd (create_usm input input_audio output ffprobe key encoding w)))) ->
      (mode = ENCRYPT <-> key <> None) /\ (mode = NONE <-> key = None)
      /\ enc = encoding
      /\ (exists video audios, Usm_new [video] audios key = inr u)
      /\ (constructor_installs_key ->
          (mode = ENCRYPT -> keys_installed u = true)
          /\ (mode = NONE -> keys_absent u = true)))
  /\ (forall codec video audios u loc t,
        codec_from_file (root w) (cwd w) input = inr codec ->
        video_for w input codec = inr video ->
        audios_for w input_audio = inr audios ->
        Usm_new [video] audios key = inr u ->
        open_wb (root w) (cwd w) (create_destination input) = inr (loc, t) ->
        stream_calls
          (new_events w
             (snd (create_usm input input_audio output ffprobe key encoding w)))
        = [(u, match key with Some _ => ENCRYPT | None => NONE end, encoding)]).
Proof.
  assert (Hcalls : forall u packets tail,
    tail = [] \/ tail = [EvPrint (String.append "Done creating USM file." nl)] ->
    stream_calls (EvStream u (create_mode key) encoding
                    :: map (EvWrite (create_destination input)) packets ++ tail)
    = [(u, create_mode key, encoding)]).
  { intros u packets tail Htail.
    change (EvStream u (create_mode key) encoding
              :: map (EvWrite (create_destination input)) packets ++ tail)%list
      with ([EvStream u (create_mode key) encoding]
              ++ map (EvWrite (create_destination input)) packets ++ tail)%list.
    rewrite !stream_calls_app, stream_calls_writes.
    destruct Htail as [-> | ->]; reflexivity. }
  split.
  - pose proof (create_usm_trace input input_audio output ffprobe key encoding w) as H.
    cbv zeta in H.
    destruct H as [(Htrace & _) | (u & packets & tail & Htrace & Htail & _ & Hnew)].
    + rewrite (new_events_same _ _ Htrace). intros ? ? ? [].
    + rewrite (new_events_app _ _ _ Htrace), (Hcalls u packets tail Htail).
      intros u' mode enc [Heq | []]. injection Heq as <- <- <-.
      split; [|split; [|split; [|split]]].
      * destruct key; simpl; split; intros; congruence.
      * destruct key; simpl; split; intros; congruence.
      * reflexivity.
      * exact Hnew.
      * intros Hspec. destruct Hnew as (video & audios & Hnew).
        pose proof (Hspec _ _ _ _ Hnew) as Hkeys.
        destruct key; simpl; split; intros; congruence.
  - intros codec video audios u loc t Hcodec Hvideo Haudios Hnew Hopen.
    destruct (create_usm_streams input input_audio output ffprobe key encoding w
                codec video audios u loc t Hcodec Hvideo Haudios Hnew Hopen)
      as (tail & Htrace & Htail).
    rewrite (new_events_app _ _ _ Htrace), (Hcalls u _ tail Htail).
    destruct key; reflexivity.
Qed.

(** Every write of [create_usm] goes to the file named after the input,
    whatever the output option says. *)
Lemma create_usm_writes (input : string) (input_audio output : option string)
  (ffprobe : string) (key : option Z) (encoding : string) (w : world) :
  forall pathname data,
    In (pathname, data)
      (writes
         (new_events w
            (snd (create_usm input input_audio output ffprobe key encoding w)))) ->
    pathname = create_destination input.
Proof.
  pose proof (create_usm_trace input input_audio output ffprobe key encoding w) as H.
  cbv zeta in H.
  destruct H as [(Htrace & _) | (u & packets & tail & Htrace & Htail & _)].
  - rewrite (new_events_same _ _ Htrace). intros ? ? [].
  - rewrite (new_events_app _ _ _ Htrace).
    change (EvStream u (create_mode key) encoding
              :: map (EvWrite (create_destination input)) packets ++ tail)%list
      with ([EvStream u (create_mode key) encoding]
              ++ map (EvWrite (create_destination input)) packets ++ tail)%list.
    rewrite !writes_app, writes_of_packets.
    assert (Ht : writes tail = []) by (destruct Htail as [-> | ->]; reflexivity).
    rewrite Ht, app_nil_r. simpl.
    intros pathname data Hin. apply in_map_iff in Hin as (p & Heq & _).
    injection Heq as <- _. reflexivity.
Qed.

End Create.

(** The reference constructor installs the key. *)
Lemma reference_constructor :
  @constructor_installs_key Reference.core.
Proof.
  intros videos audios [k|] u H; injection H as <-; reflexivity.
Qed.

(** C6 on the reference tree, with key 5: [create_usm] on
    [work/movie.ivf] makes one call of [stream], in mode [ENCRYPT], on
    the container the constructor built, which has both keys. *)
Lemma create_stream_mode_witness :
  stream_calls
    (new_events (Reference.start [])
       (snd (create_usm "work/movie.ivf" None None "." (Some 5) "shift-jis"
               (Reference.start []))))
  = [(Reference.encrypted_movie, ENCRYPT, "shift-jis")]
  /\ keys_installed Reference.encrypted_movie = true.
Proof.
  destruct (create_stream_mode "work/movie.ivf" None None "." (Some 5)
              "shift-jis" (Reference.start [])) as [Hevery Hone].
  pose proof (Hone VP9 (Reference.bytes "DKIF-frames") None
                Reference.encrypted_movie ["work"; "movie.usm"]
                (put_node Reference.tree ["work"; "movie.usm"] (File []))
                eq_refl eq_refl eq_refl eq_refl eq_refl) as Hcalls.
  split; [exact Hcalls|].
  destruct (Hevery Reference.encrypted_movie ENCRYPT "shift-jis")
    as (_ & _ & _ & _ & Hkeys).
  { rewrite Hcalls. left. reflexivity. }
  apply (Hkeys reference_constructor). reflexivity.
Defined.

(** C7 on the reference tree: [work/clip.mpg] is probed as MPEG-2. *)
Lemma unsupported_codec_rejected_witness :
  create_usm "work/clip.mpg" None (Some "empty/out.usm") "." None "shift-jis"
    (Reference.start [])
  = (inl (NotImplementedError "Non-Vp9/H.264 files are not yet implemented."),
     Reference.start []).
Proof.
  apply (unsupported_codec_rejected (Reference.start []) "work/clip.mpg" None
           (Some "empty/out.usm") "." None "shift-jis" (OtherCodec "mpeg2video"));
    [reflexivity | discriminate | discriminate].
Defined.

(** C1 (the failing input): [create_usm] on [work/movie.ivf] with the
    output option [empty/out.usm].  The command returns; the stream is in
    [work/movie.usm], next to the input, and nothing exists at the output
    path; the run is the same as without the option. *)
Lemma create_usm_ignores_output :
  fst (create_usm "work/movie.ivf" None (Some "empty/out.usm") "."
         None "shift-jis" (Reference.start [])) = inr tt
  /\ node_at (root (snd (create_usm "work/movie.ivf" None (Some "empty/out.usm")
                            "." None "shift-jis" (Reference.start []))))
       ["work"; "movie.usm"]
     = Some (File (Reference.bytes "CRIDDKIF-frames"))
  /\ node_at (root (snd (create_usm "work/movie.ivf" None (Some "empty/out.usm")
                            "." None "shift-jis" (Reference.start []))))
       ["empty"; "out.usm"] = None
  /\ writes (new_events (Reference.start [])
               (snd (create_usm "work/movie.ivf" None (Some "empty/out.usm")
                       "." None "shift-jis" (Reference.start []))))
     = [("work/movie.usm", Reference.bytes "CRID");
        ("work/movie.usm", Reference.bytes "DKIF-frames")]
  /\ create_usm "work/movie.ivf" None (Some "empty/out.usm") "." None "shift-jis"
       (Reference.start [])
     = create_usm "work/movie.ivf" None None "." None "shift-jis"
         (Reference.start []).
Proof.
  split; [vm_compute; reflexivity|].
  split; [vm_compute; reflexivity|].
  split; [vm_compute; reflexivity|].
  split; [vm_compute; reflexivity|].
  reflexivity.
Qed.

(** ** The worker pool: no container is shared *)
Module PoolFacts.
Import Pool.
Section PoolFacts.

Context {core : UsmCore}.
Variables (output : string) (key : option Z) (encoding : string) (pages : bool).
Variables (root0 : node) (cwd0 : list string) (files : list usmfile).

Lemma nth_error_set_nth {A} (l : list A) (i j : nat) (a b : A) :
  nth_error (set_nth i a l) j = Some b ->
  (i = j /\ b = a) \/ (i <> j /\ nth_error l j = Some b).
Proof.
  revert i j. induction l as [|x l IH]; intros i j H.
  - destruct i, j; discriminate H.
  - destruct i as [|i], j as [|j]; simpl in H.
    + injection H as <-. left. auto.
    + right. split; [discriminate | exact H].
    + right. split; [discriminate | exact H].
    + destruct (IH i j H) as [[-> ->] | [Hne Hj]]; [left; auto|].
      right. split; [congruence | exact Hj].
Qed.

Lemma invariant_initial : invariant files (initial root0 cwd0 files).
Proof.
  constructor; simpl; try (intros; contradiction).
  - intros i f H. rewrite nth_error_map in H.
    destruct (nth_error files i) as [g|]; simpl in H; [|discriminate].
    injection H as ->. reflexivity.
  - intros i f r H. rewrite nth_error_map in H.
    destruct (nth_error files i); simpl in H; discriminate.
Qed.

(** A task that only finishes changes nothing that matters. *)
Lemma invariant_finish (p : pool) (i : nat) (result : exn + unit)
  (t : node) (lines : list string) :
  invariant files p ->
  invariant files (mkPool (set_nth i (Finished result) (tasks p)) (heap p)
               (accesses p) t (pool_cwd p) lines).
Proof.
  intros [H1 H2 H3 H4 H5]. constructor; simpl.
  - intros j f H. apply nth_error_set_nth in H as [[_ H] | [_ H]];
      [discriminate | eauto].
  - intros j f r H. apply nth_error_set_nth in H as [[_ H] | [_ H]];
      [discriminate | eauto].
  - exact H3.
  - exact H4.
  - exact H5.
Qed.

Lemma invariant_step (p q : pool) :
  invariant files p -> step output key encoding pages p q -> invariant files q.
Proof.
  intros Hinv Hstep. destruct Hstep as [i p' q' Hstep]. unfold step_task in Hstep.
  destruct (nth_error (tasks p') i) as [[f | f r | result]|] eqn:Hi;
    try discriminate Hstep.
  - (* the task opens its file *)
    destruct (Usm_open (pool_root p') (pool_cwd p') f (Some encoding) key)
      as [e|u].
    + destruct (handled f e) as [result lines]. injection Hstep as <-.
      apply invariant_finish, Hinv.
    + injection Hstep as <-.
      destruct Hinv as [H1 H2 H3 H4 H5]. constructor; simpl.
      * intros j g H. apply nth_error_set_nth in H as [[_ H] | [_ H]];
          [discriminate | eauto].
      * intros j g r H. apply in_or_app.
        apply nth_error_set_nth in H as [[<- H] | [_ H]].
        -- injection H as -> ->. right. left. reflexivity.
        -- left. eauto.
      * intros j r g H. rewrite length_app. simpl.
        apply in_app_or in H as [H | [H | []]].
        -- destruct (H3 j r g H). split; [lia | assumption].
        -- injection H as <- <- <-. split; [lia | eauto].
      * intros j r H. apply in_app_or in H as [H | [H | []]]; [|discriminate].
        destruct (H4 j r H) as [g Hg]. exists g. apply in_or_app. left. exact Hg.
      * intros j k r g h Hj Hk.
        apply in_app_or in Hj as [Hj | [Hj | []]];
          apply in_app_or in Hk as [Hk | [Hk | []]].
        -- eauto.
        -- injection Hk as <- <- <-. destruct (H3 j _ g Hj). lia.
        -- injection Hj as <- <- <-. destruct (H3 k _ h Hk). lia.
        -- injection Hj as <- _ _. injection Hk as <- _ _. reflexivity.
  - (* the task demuxes the container it holds *)
    destruct (usmfile_parent f) as [e|folder].
    + destruct (handled f e) as [result lines]. injection Hstep as <-.
      apply invariant_finish, Hinv.
    + destruct (nth_error (heap p') r) as [u|]; [|discriminate].
      destruct (Usm_demux u (pool_root p') (pool_cwd p')
                  (mkDemuxArgs output true true pages (Some folder))) as [res t].
      destruct (match res with inr _ => (inr tt, []) | inl e => handled f e end)
        as [result lines].
      injection Hstep as <-.
      destruct Hinv as [H1 H2 H3 H4 H5]. constructor; simpl.
      * intros j g H. apply nth_error_set_nth in H as [[_ H] | [_ H]];
          [discriminate | eauto].
      * intros j g s H. apply in_or_app. left.
        apply nth_error_set_nth in H as [[_ H] | [_ H]]; [discriminate | eauto].
      * intros j s g H.
        apply in_app_or in H as [H | [H | []]]; [eauto | discriminate].
      * intros j s H. apply in_app_or in H as [H | [H | []]].
        -- destruct (H4 j s H) as [g Hg]. exists g. apply in_or_app. left. exact Hg.
        -- injection H as <- <-. exists f. apply in_or_app. left. eauto.
      * intros j k s g h Hj Hk.
        apply in_app_or in Hj as [Hj | [Hj | []]]; [|discriminate].
        apply in_app_or in Hk as [Hk | [Hk | []]]; [|discriminate].
        eauto.
Qed.

Lemma invariant_reachable (p : pool) :
  reachable output key encoding pages root0 cwd0 files p -> invariant files p.
Proof.
  induction 1 as [|p q _ IH Hstep];
    [apply invariant_initial | exact (invariant_step p q IH Hstep)].
Qed.

(** Whoever touches a container built it. *)
Lemma access_constructed (p : pool) (i : nat) (a : access) :
  invariant files p -> In (i, a) (accesses p) ->
  exists f, In (i, Construct (access_address a) f) (accesses p).
Proof.
  intros Hinv Hin. destruct a as [r f | r]; simpl.
  - exists f. exact Hin.
  - exact (inv_demuxed files p Hinv i r Hin).
Qed.

(** C8: in every state the pool can reach, under any interleaving of the
    tasks, a container is touched by one task only, and the task that
    calls [demux] on a container is the one that built it with
    [Usm.open], from the file that was submitted with that task. *)
Theorem containers_not_shared (p : pool) :
  reachable output key encoding pages root0 cwd0 files p ->
  (forall i j a b,
      In (i, a) (accesses p) -> In (j, b) (accesses p) ->
      access_address a = access_address b -> i = j)
  /\ (forall i r,
        In (i, Demux r) (accesses p) ->
        exists f u,
          nth_error files i = Some f
          /\ In (i, Construct r f) (accesses p)
          /\ nth_error (heap p) r = Some u).
Proof.
  intros Hreach. pose proof (invariant_reachable p Hreach) as Hinv. split.
  - intros i j a b Ha Hb Heq.
    destruct (access_constructed p i a Hinv Ha) as [f Hf].
    destruct (access_constructed p j b Hinv Hb) as [g Hg].
    rewrite Heq in Hf. exact (inv_fresh files p Hinv i j _ f g Hf Hg).
  - intros i r Hin.
    destruct (inv_demuxed files p Hinv i r Hin) as [f Hf].
    destruct (inv_constructed files p Hinv i r f Hf) as [Hlt Hfile].
    destruct (nth_error (heap p) r) as [u|] eqn:Hu.
    + exists f, u. auto.
    + apply nth_error_None in Hu. lia.
Qed.

(** Running a schedule stays within the reachable states. *)
Lemma run_reachable (schedule : list nat) :
  forall p,
    reachable output key encoding pages root0 cwd0 files p ->
    reachable output key encoding pages root0 cwd0 files
      (run output key encoding pages schedule p).
Proof.
  induction schedule as [|i rest IH]; intros p Hp; simpl; [exact Hp|].
  destruct (step_task output key encoding pages i p) as [q|] eqn:Hstep.
  - apply IH. eapply reach_step;
      [exact Hp | exact (step_of output key encoding pages i p q Hstep)].
  - apply IH, Hp.
Qed.

End PoolFacts.
End PoolFacts.

(** C8 on the reference tree: two files, the tasks interleaved as
    0, 1, 1, 0.  Each task built one container and demuxed that one. *)
Lemma containers_not_shared_witness :
  Pool.accesses (Reference.pool_after [0; 1; 1; 0]%nat)
  = [(0%nat, Pool.Construct 0 (UPath (Path "work/a.usm")));
     (1%nat, Pool.Construct 1 (UPath (Path "work/b.usm")));
     (1%nat, Pool.Demux 1); (0%nat, Pool.Demux 0)]
  /\ (forall i j a b,
        In (i, a) (Pool.accesses (Reference.pool_after [0; 1; 1; 0]%nat)) ->
        In (j, b) (Pool.accesses (Reference.pool_after [0; 1; 1; 0]%nat)) ->
        Pool.access_address a = Pool.access_address b -> i = j).
Proof.
  split; [reflexivity|].
  apply (PoolFacts.containers_not_shared "out" None "shift-jis" false
           Reference.tree [] Reference.two_files
           (Reference.pool_after [0; 1; 1; 0]%nat)).
  apply (Pool.reach_step _ _ _ _ _ _ _ (Reference.pool_after [0; 1; 1]%nat));
    [|apply (Pool.step_of _ _ _ _ 0%nat); reflexivity].
  apply (Pool.reach_step _ _ _ _ _ _ _ (Reference.pool_after [0; 1]%nat));
    [|apply (Pool.step_of _ _ _ _ 1%nat); reflexivity].
  apply (Pool.reach_step _ _ _ _ _ _ _ (Reference.pool_after [0]%nat));
    [|apply (Pool.step_of _ _ _ _ 1%nat); reflexivity].
  apply (Pool.reach_step _ _ _ _ _ _ _ (Reference.pool_after []));
    [|apply (Pool.step_of _ _ _ _ 0%nat); reflexivity].
  apply Pool.reach_initial.
Defined.

(** ** [find_usm] on a directory *)
Section FindUsmDirectory.

Context {core : UsmCore}.

(** The globbed paths are children of the directory itself, named by
    entries whose name ends in [.usm], in the order of the entries. *)
Lemma glob_usm_children (t : node) (cwd : list string) (p f : path) :
  In f (glob_usm t cwd p) ->
  exists es name n,
    stat t cwd (path_str p) = inr (Dir es)
    /\ In (name, n) es
    /\ matches_usm_glob name = true
    /\ f = make_child_relpath p name.
Proof.
  unfold glob_usm.
  destruct (stat t cwd (path_str p)) as [e|[content|es]]; try (intros []).
  intros Hin. apply in_map_iff in Hin as ([name n] & <- & Hin).
  apply filter_In in Hin as [Hin Hmatch].
  exists es, name, n. auto.
Qed.

Lemma glob_usm_dir (t : node) (cwd : list string) (p : path)
  (es : list (string * node)) :
  stat t cwd (path_str p) = inr (Dir es) ->
  glob_usm t cwd p
  = map (make_child_relpath p)
      (filter matches_usm_glob (map fst es)).
Proof.
  unfold glob_usm. intros ->.
  induction es as [|[name n] es IH]; simpl; [reflexivity|].
  destruct (matches_usm_glob name); simpl; rewrite IH; reflexivity.
Qed.

(** Over regular files the loop is a filter. *)
Lemma find_usm_loop_files (files : list path) :
  forall acc w,
    forallb (is_regular_file (root w) (cwd w)) files = true ->
    find_usm_loop files acc w
    = (inr (acc ++ map UPath (filter (passes_is_usm (root w) (cwd w)) files))%list, w).
Proof.
  induction files as [|f rest IH]; intros acc w Hfiles; simpl in *.
  - rewrite app_nil_r. reflexivity.
  - apply andb_true_iff in Hfiles as [Hf Hrest].
    unfold is_regular_file in Hf. apply isfile_inv in Hf as [content Hstat].
    unfold bind at 1. rewrite (read_magic_file w _ content Hstat).
    unfold passes_is_usm at 1. unfold read_prefix. rewrite Hstat.
    destruct (is_usm (firstn 4 content)).
    + rewrite (IH _ w Hrest). simpl. rewrite <- app_assoc. reflexivity.
    + apply (IH _ w Hrest).
Qed.

(** The first entry that is not a regular file ends the loop with the
    error of [open]. *)
Lemma find_usm_loop_directory (f : path) (rest : list path)
  (acc : list usmfile) (w : world) (es : list (string * node)) :
  stat (root w) (cwd w) (path_str f) = inr (Dir es) ->
  find_usm_loop (f :: rest) acc w = (inl (IsADirectoryError (path_str f)), w).
Proof.
  intros Hstat. simpl. unfold bind at 1.
  unfold read_magic, bind, get_world, lift, read_prefix. rewrite Hstat. reflexivity.
Qed.

(** When every entry of the directory whose name ends in [.usm] is a
    regular file, [find_usm] returns those of them whose first four bytes
    pass [is_usm], in the order of the entries, and reports their number;
    with none it returns the empty list. *)
Lemma find_usm_directory (w : world) (directory : string) :
  isfile (root w) (cwd w) directory = false ->
  forallb (is_regular_file (root w) (cwd w))
    (glob_usm (root w) (cwd w) (Path directory)) = true ->
  find_usm directory w
  = (inr (map UPath
            (filter (passes_is_usm (root w) (cwd w))
               (glob_usm (root w) (cwd w) (Path directory)))),
     mkWorld (root w) (cwd w)
       (trace w
        ++ [EvPrint "Finding USM files... ";
            EvPrint (String.append
                       (String.append "Found "
                          (string_of_nat
                             (List.length
                                (filter (passes_is_usm (root w) (cwd w))
                                   (glob_usm (root w) (cwd w) (Path directory))))))
                       nl)])%list
       (entropy w)).
Proof.
  intros Hfile Hall. unfold find_usm, bind at 1, get_world. rewrite Hfile.
  unfold bind at 1. unfold print_end, emit at 1.
  unfold bind at 1.
  rewrite (find_usm_loop_files _ []
             (mkWorld (root w) (cwd w)
                (trace w ++ [EvPrint (String.append "Finding USM files... " "")])
                (entropy w)) Hall).
  cbn [root cwd trace entropy app].
  unfold bind, print, emit, ret. cbn [root cwd trace entropy].
  rewrite length_map, <- app_assoc. reflexivity.
Qed.

End FindUsmDirectory.

(** C10 (the failing input): the directory [odd] of the reference tree
    holds one entry, a directory named [folder.usm].  No file qualifies,
    yet [find_usm] does not return the empty list: [open] raises on the
    directory.  No function of the core is reached, so this holds for
    every core. *)
Lemma find_usm_stops_at_directory_entry (core : UsmCore) :
  glob_usm Reference.tree [] (Path "odd") = [make_child_relpath (Path "odd") "folder.usm"]
  /\ find_usm "odd" (mkWorld Reference.tree [] [] [])
     = (inl (IsADirectoryError "odd/folder.usm"),
        mkWorld Reference.tree [] [EvPrint "Finding USM files... "] []).
Proof. split; reflexivity. Qed.

(** On the directory [work], whose [.usm] entries are regular files, the
    containers come back in the order of the entries; [fake.usm] fails
    the signature, [notes.txt] and [sub/deep.usm] are never looked at. *)
Example find_usm_work :
  fst (find_usm "work" (Reference.start []))
  = inr [UPath (Path "work/a.usm"); UPath (Path "work/b.usm");
         UPath (Path "work/short.usm")].
Proof. vm_compute. reflexivity. Qed.

Example find_usm_empty :
  fst (find_usm "empty" (Reference.start [])) = inr [].
Proof. vm_compute. reflexivity. Qed.

(** ** [extract_usm] *)
Section Extract.

Context {core : UsmCore}.

(** A [ValueError] of [Usm.open] is caught: two fixed lines are printed
    and the worker returns. *)
Lemma process_usm_open_ValueError (output : string) (key : option Z)
  (encoding : string) (pages : bool) (f : usmfile) (w : world) (msg : string) :
  Usm_open (root w) (cwd w) f (Some encoding) key = inl (ValueError msg) ->
  process_usm output key encoding pages f w
  = (inr tt,
     mkWorld (root w) (cwd w)
       (trace w ++ EvUsmOpen f (Some encoding) key :: error_lines f)%list
       (entropy w)).
Proof.
  intros Hopen. unfold process_usm, try_except.
  unfold bind at 1. rewrite usm_open_run, Hopen.
  cbv beta iota delta [bind print emit error_lines].
  cbn [root cwd trace entropy].
  rewrite <- !app_assoc. reflexivity.
Qed.

(** So is a [ValueError] of [demux]. *)
Lemma process_usm_demux_ValueError (output : string) (key : option Z)
  (encoding : string) (pages : bool) (f : usmfile) (w : world)
  (u : container) (folder : path) (msg : string) (t : node) :
  Usm_open (root w) (cwd w) f (Some encoding) key = inr u ->
  usmfile_parent f = inr folder ->
  Usm_demux u (root w) (cwd w) (mkDemuxArgs output true true pages (Some folder))
  = (inl (ValueError msg), t) ->
  process_usm output key encoding pages f w
  = (inr tt,
     mkWorld t (cwd w)
       (trace w ++ EvUsmOpen f (Some encoding) key
          :: EvDemux u (mkDemuxArgs output true true pages (Some folder))
          :: error_lines f)%list
       (entropy w)).
Proof.
  intros Hopen Hparent Hdemux. unfold process_usm, try_except.
  unfold bind at 1. rewrite usm_open_run, Hopen.
  unfold bind at 1. unfold lift at 1. rewrite Hparent.
  unfold bind at 1. unfold usm_demux.
  cbv beta iota delta [bind emit get_world set_root lift].
  cbn [root cwd trace entropy]. rewrite Hdemux.
  cbv beta iota delta [bind print emit set_root lift error_lines].
  cbn [root cwd trace entropy].
  rewrite <- !app_assoc. reflexivity.
Qed.

(** Any other exception leaves the worker and stays in its future. *)
Lemma submit_open_other (output : string) (key : option Z)
  (encoding : string) (pages : bool) (f : usmfile) (w : world) (e : exn) :
  Usm_open (root w) (cwd w) f (Some encoding) key = inl e ->
  is_ValueError e = false ->
  submit (process_usm output key encoding pages f) w
  = (inr (inl e),
     mkWorld (root w) (cwd w)
       (trace w ++ [EvUsmOpen f (Some encoding) key])%list (entropy w)).
Proof.
  intros Hopen Hother. unfold submit, process_usm, try_except.
  unfold bind at 1. rewrite usm_open_run, Hopen.
  destruct e; try discriminate Hother; reflexivity.
Qed.

(** The pool never raises: every task ends in its future. *)
Lemma pool_returns (output : string) (key : option Z) (encoding : string)
  (pages : bool) (files : list usmfile) :
  forall w, exists futures w',
    map_each files (fun f => submit (process_usm output key encoding pages f)) w
    = (inr futures, w').
Proof.
  induction files as [|f rest IH]; intros w; simpl.
  - exists [], w. reflexivity.
  - unfold bind at 1. unfold submit at 1.
    destruct (process_usm output key encoding pages f w) as [r w1].
    unfold bind at 1. destruct (IH w1) as (futures & w2 & ->).
    exists (r :: futures), w2. reflexivity.
Qed.

(** C2 (amended): once [find_usm] has returned and the number of workers
    is positive, [extract_usm] returns and the exit status is 0, whatever
    happens to the files; a [ValueError] from [Usm.open] or from [demux]
    is caught in the worker of that file, which prints [ERROR] and
    [Please run probe on <file>] and returns; the exit status is 1 when
    [find_usm] raises or the number of workers is not positive. *)
Theorem extract_exit_status (input output : string) (key : option Z)
  (encoding : string) (pages : bool) (workers : Z) (w : world) :
  (forall files w1,
      find_usm input w = (inr files, w1) -> 0 < workers ->
      exit_code (extract_usm input output key encoding pages workers w) = 0)
  /\ (forall e w1,
        find_usm input w = (inl e, w1) ->
        extract_usm input output key encoding pages workers w = (inl e, w1)
        /\ exit_code (extract_usm input output key encoding pages workers w) = 1)
  /\ (forall files w1,
        find_usm input w = (inr files, w1) -> workers <= 0 ->
        exit_code (extract_usm input output key encoding pages workers w) = 1)
  /\ (forall f w' msg,
        Usm_open (root w') (cwd w') f (Some encoding) key = inl (ValueError msg) ->
        process_usm output key encoding pages f w'
        = (inr tt,
           mkWorld (root w') (cwd w')
             (trace w' ++ EvUsmOpen f (Some encoding) key :: error_lines f)%list
             (entropy w')))
  /\ (forall f w' u folder msg t,
        Usm_open (root w') (cwd w') f (Some encoding) key = inr u ->
        usmfile_parent f = inr folder ->
        Usm_demux u (root w') (cwd w')
          (mkDemuxArgs output true true pages (Some folder))
        = (inl (ValueError msg), t) ->
        process_usm output key encoding pages f w'
        = (inr tt,
           mkWorld t (cwd w')
             (trace w' ++ EvUsmOpen f (Some encoding) key
                :: EvDemux u (mkDemuxArgs output true true pages (Some folder))
                :: error_lines f)%list
             (entropy w'))).
Proof.
  split; [|split; [|split; [|split]]].
  - intros files w1 Hfind Hworkers. unfold extract_usm.
    unfold bind at 1. rewrite Hfind. unfold bind at 1.
    destruct (Z.leb_spec workers 0) as [Hle|_]; [lia|].
    unfold ret at 1. unfold bind at 1.
    destruct (pool_returns output key encoding pages files w1) as (futures & w2 & ->).
    reflexivity.
  - intros e w1 Hfind.
    assert (Hrun : extract_usm input output key encoding pages workers w = (inl e, w1)).
    { unfold extract_usm. unfold bind at 1. rewrite Hfind. reflexivity. }
    rewrite Hrun. split; reflexivity.
  - intros files w1 Hfind Hworkers. unfold extract_usm.
    unfold bind at 1. rewrite Hfind. unfold bind at 1.
    destruct (Z.leb_spec workers 0) as [_|Hlt]; [reflexivity | lia].
  - intros f w' msg. apply process_usm_open_ValueError.
  - intros f w' u folder msg t. apply process_usm_demux_ValueError.
Qed.

End Extract.

(** C2 (as stated, refuted): [extract_usm] on the directory [work] of the
    reference tree.  Opening [work/short.usm] fails with a core error,
    the [ValueError] for a malformed chunk; the exit status is 0 all the
    same, and what is printed names the file, not the kind of failure. *)
Lemma extract_exit_status_zero_on_failure :
  @Usm_open Reference.core Reference.tree [] (UPath (Path "work/short.usm"))
    (Some "shift-jis") None
  = inl (ValueError "MalformedChunk")
  /\ exit_code (extract_usm "work" "out" None "shift-jis" false 4
                 (Reference.start [])) = 0
  /\ stdout (snd (extract_usm "work" "out" None "shift-jis" false 4
                    (Reference.start [])))
     = String.concat nl
         ["Finding USM files... Found 3"; "ERROR";
          "Please run probe on work/short.usm"; ""].
Proof.
  split; [vm_compute; reflexivity|].
  split; vm_compute; reflexivity.
Qed.

(** The amended statement on the same run. *)
Lemma extract_exit_status_witness :
  exit_code (extract_usm "work" "out" None "shift-jis" false 4
               (Reference.start [])) = 0
  /\ exit_code (extract_usm "work/fake.usm" "out" None "shift-jis" false 4
                  (Reference.start [])) = 1
  /\ exit_code (extract_usm "work" "out" None "shift-jis" false 0
                  (Reference.start [])) = 1.
Proof.
  split; [|split].
  - destruct (extract_exit_status "work" "out" None "shift-jis" false 4
                (Reference.start [])) as (Hzero & _).
    apply (Hzero [UPath (Path "work/a.usm"); UPath (Path "work/b.usm");
                  UPath (Path "work/short.usm")]
             (snd (find_usm "work" (Reference.start []))));
      [reflexivity | lia].
  - destruct (extract_exit_status "work/fake.usm" "out" None "shift-jis" false 4
                (Reference.start [])) as (_ & Hone & _).
    apply (Hone (ValueError "Not a usm file.") (Reference.start [])).
    reflexivity.
  - destruct (extract_exit_status "work" "out" None "shift-jis" false 0
                (Reference.start [])) as (_ & _ & Hone & _).
    apply (Hone [UPath (Path "work/a.usm"); UPath (Path "work/b.usm");
                 UPath (Path "work/short.usm")]
             (snd (find_usm "work" (Reference.start []))));
      [reflexivity | lia].
Defined.

(** ** [encrypt_usm] when the destination can be opened *)
Section Encrypt.

Context {core : UsmCore}.

(** One round of the loop: the container is opened, both keys are set
    from the one key, and every packet of [stream(ENCRYPT)] is written,
    in order, to the file named like the input under [outdir]. *)
Lemma encrypt_one_run (outdir : path) (key : option Z) (encoding : string)
  (f : usmfile) (w : world) (u : container) (vk ak : KeyMaterial)
  (loc : list string) (t : node) :
  Usm_open (root w) (cwd w) f None None = inr u ->
  generate_keys key = inr (vk, ak) ->
  open_wb (root w) (cwd w) (encrypt_destination outdir f) = inr (loc, t) ->
  exists u',
    install_keys u key = inr u'
    /\ video_key u' = Some vk /\ audio_key u' = Some ak
    /\ encrypt_one outdir key encoding f w
       = (match snd (Usm_stream u' ENCRYPT encoding) with
          | Some e => inl e
          | None => inr tt
          end,
          mkWorld (written t loc (fst (Usm_stream u' ENCRYPT encoding))) (cwd w)
            (trace w ++ EvUsmOpen f None None :: EvStream u' ENCRYPT encoding
               :: map (EvWrite (encrypt_destination outdir f))
                    (fst (Usm_stream u' ENCRYPT encoding)))%list
            (entropy w)).
Proof.
  intros Hopen Hkeys Hdest.
  exists (mkUsm (usm_source u) (usm_videos u) (usm_audios u) (Some vk) (Some ak)).
  assert (Hinstall : install_keys u key
                     = inr (mkUsm (usm_source u) (usm_videos u) (usm_audios u)
                              (Some vk) (Some ak))).
  { unfold install_keys. rewrite Hkeys. reflexivity. }
  repeat split; [exact Hinstall|].
  unfold encrypt_one. unfold bind at 1. rewrite usm_open_run, Hopen.
  unfold bind at 1. unfold lift at 1. rewrite Hinstall.
  rewrite write_stream_run. cbn [root cwd trace entropy]. rewrite Hdest.
  rewrite <- app_assoc. reflexivity.
Qed.

End Encrypt.

(** With an output directory the command does what its help says: the
    two containers of [good] are written, encrypted, into [empty]. *)
Example encrypt_usm_into_directory :
  fst (encrypt_usm "good" (Some "empty") (Some 5) "shift-jis" (Reference.start []))
  = inr tt
  /\ node_at (root (snd (encrypt_usm "good" (Some "empty") (Some 5) "shift-jis"
                          (Reference.start [])))) ["empty"]
     = Some (Dir [("a.usm", File (Reference.bytes "CRID" ++ Reference.plain_usm));
                  ("b.usm", File (Reference.bytes "CRID" ++ Reference.plain_usm))]).
Proof. split; vm_compute; reflexivity. Qed.

(** * Further properties *)

(** ** What a command adds to the trace *)
Section Adds.

Context {core : UsmCore}.

Lemma adds_nothing {A} (P : event -> Prop) (c : M A) :
  (forall w, trace (snd (c w)) = trace w) -> adds P c.
Proof.
  intros H w. exists []. rewrite app_nil_r. split; [apply H | constructor].
Qed.

Lemma adds_ret {A} (P : event -> Prop) (a : A) : adds P (ret a).
Proof. apply adds_nothing. reflexivity. Qed.

Lemma adds_raise {A} (P : event -> Prop) (e : exn) : adds P (@raise _ A e).
Proof. apply adds_nothing. reflexivity. Qed.

Lemma adds_lift {A} (P : event -> Prop) (r : exn + A) : adds P (lift r).
Proof. apply adds_nothing. reflexivity. Qed.

Lemma adds_get_world (P : event -> Prop) : adds P get_world.
Proof. apply adds_nothing. reflexivity. Qed.

Lemma adds_set_root (P : event -> Prop) (t : node) : adds P (set_root t).
Proof. apply adds_nothing. reflexivity. Qed.

Lemma adds_random_str (P : event -> Prop) : adds P random_str.
Proof. apply adds_nothing. reflexivity. Qed.

Lemma adds_emit (P : event -> Prop) (e : event) : P e -> adds P (emit e).
Proof.
  intros He w. exists [e]. split; [reflexivity | constructor; [exact He | constructor]].
Qed.

Lemma adds_bind {A B} (P : event -> Prop) (c : M A) (k : A -> M B) :
  adds P c -> (forall a, adds P (k a)) -> adds P (bind c k).
Proof.
  intros Hc Hk w. unfold bind. destruct (Hc w) as (added & Htrace & Hadded).
  destruct (c w) as [[e|a] w1]; simpl in Htrace.
  - exists added. auto.
  - destruct (Hk a w1) as (added' & Htrace' & Hadded').
    exists (added ++ added')%list. split.
    + rewrite Htrace', Htrace, app_assoc. reflexivity.
    + apply Forall_app. auto.
Qed.


Lemma adds_try_except {A} (P : event -> Prop) (c : M A)
  (h : exn -> option (M A)) :
  adds P c -> (forall e handler, h e = Some handler -> adds P handler) ->
  adds P (try_except c h).
Proof.
  intros Hc Hh w. unfold try_except. destruct (Hc w) as (added & Htrace & Hadded).
  destruct (c w) as [[e|a] w1]; simpl in Htrace.
  - destruct (h e) as [handler|] eqn:He.
    + destruct (Hh e handler He w1) as (added' & Htrace' & Hadded').
      exists (added ++ added')%list. split.
      * rewrite Htrace', Htrace, app_assoc. reflexivity.
      * apply Forall_app. auto.
    + exists added. auto.
  - exists added. auto.
Qed.

Lemma adds_submit {A} (P : event -> Prop) (c : M A) : adds P c -> adds P (submit c).
Proof.
  intros Hc w. unfold submit. destruct (Hc w) as (added & Htrace & Hadded).
  destruct (c w) as [r w1]. exists added. auto.
Qed.

Lemma adds_for_each {A} (P : event -> Prop) (l : list A) (body : A -> M unit) :
  (forall a, adds P (body a)) -> adds P (for_each l body).
Proof.
  intros Hbody. induction l as [|a l IH]; simpl.
  - apply adds_ret.
  - apply adds_bind; [apply Hbody | intros _; exact IH].
Qed.

Lemma adds_map_each {A B} (P : event -> Prop) (l : list A) (body : A -> M B) :
  (forall a, adds P (body a)) -> adds P (map_each l body).
Proof.
  intros Hbody. induction l as [|a l IH]; simpl.
  - apply adds_ret.
  - apply adds_bind; [apply Hbody | intros b].
    apply adds_bind; [exact IH | intros bs; apply adds_ret].
Qed.

Lemma adds_weaken {A} (P Q : event -> Prop) (c : M A) :
  (forall e, P e -> Q e) -> adds P c -> adds Q c.
Proof.
  intros HPQ Hc w. destruct (Hc w) as (added & Htrace & Hadded).
  exists added. split; [exact Htrace | eapply Forall_impl; eauto].
Qed.

(** [find_usm] only prints. *)
Lemma adds_find_usm_loop (files : list path) :
  forall acc, adds is_print (find_usm_loop files acc).
Proof.
  induction files as [|f rest IH]; intros acc; simpl.
  - apply adds_ret.
  - apply adds_bind.
    + unfold read_magic. apply adds_bind; [apply adds_get_world | intros w; apply adds_lift].
    + intros magic. destruct (is_usm magic); apply IH.
Qed.

Lemma adds_find_usm (directory : string) : adds is_print (find_usm directory).
Proof.
  unfold find_usm. apply adds_bind; [apply adds_get_world | intros w].
  destruct (isfile (root w) (cwd w) directory).
  - apply adds_bind.
    + unfold read_magic. apply adds_bind; [apply adds_get_world | intros w'; apply adds_lift].
    + intros magic. destruct (negb (is_usm magic)); [apply adds_raise | apply adds_ret].
  - apply adds_bind; [apply adds_emit; exact I | intros _].
    apply adds_bind; [apply adds_find_usm_loop | intros usmfiles].
    apply adds_bind; [apply adds_emit; exact I | intros _; apply adds_ret].
Qed.

Lemma adds_print (P : event -> Prop) (text : string) :
  (forall t, P (EvPrint t)) -> adds P (print text).
Proof. intros H. apply adds_emit, H. Qed.

Lemma adds_usm_open (P : event -> Prop) (f : usmfile) (enc : option string)
  (key : option Z) :
  P (EvUsmOpen f enc key) -> adds P (usm_open f enc key).
Proof.
  intros H. unfold usm_open. apply adds_bind; [apply adds_emit, H | intros _].
  apply adds_bind; [apply adds_get_world | intros w; apply adds_lift].
Qed.

Lemma adds_usm_demux (P : event -> Prop) (u : container) (a : demux_args) :
  P (EvDemux u a) -> adds P (usm_demux u a).
Proof.
  intros H. unfold usm_demux. apply adds_bind; [apply adds_emit, H | intros _].
  apply adds_bind; [apply adds_get_world | intros w].
  destruct (Usm_demux u (root w) (cwd w) a) as [r t].
  apply adds_bind; [apply adds_set_root | intros _; apply adds_lift].
Qed.


(** X1: whatever the input and whatever happens to the files,
    [extract_usm] only prints, opens containers with the encoding and the
    key it was given, and calls [demux] with the output path, video and
    audio switched on, the pages flag as given and a folder name; it never
    calls [stream] and never writes a file itself. *)
Theorem extract_usm_events (input output : string) (key : option Z)
  (encoding : string) (pages : bool) (workers : Z) :
  adds (extract_event output key encoding pages)
    (extract_usm input output key encoding pages workers).
Proof.
  unfold extract_usm. apply adds_bind.
  { apply (adds_weaken is_print); [|apply adds_find_usm].
    intros [] H; try contradiction; exact I. }
  intros usmfiles. apply adds_bind.
  { destruct (workers <=? 0); [apply adds_raise | apply adds_ret]. }
  intros _. apply adds_bind; [|intros _; apply adds_ret].
  apply adds_map_each. intros f. apply adds_submit.
  unfold process_usm. apply adds_try_except.
  - apply adds_bind; [apply adds_usm_open; simpl; auto | intros u].
    apply adds_bind; [apply adds_lift | intros folder].
    apply adds_bind; [|intros _; apply adds_ret].
    apply adds_usm_demux. simpl. repeat split. discriminate.
  - intros e handler He. destruct e; try discriminate He.
    injection He as <-.
    apply adds_bind; [apply adds_print; intros; exact I | intros _].
    apply adds_print. intros; exact I.
Qed.


Ltac adds_auto :=
  repeat first
    [ apply adds_ret | apply adds_raise | apply adds_lift | apply adds_get_world
    | apply adds_set_root | apply adds_random_str
    | apply (adds_weaken is_print);
        [intros [] ?; try contradiction; exact I | apply adds_find_usm]
    | apply adds_emit; simpl; solve [auto | repeat split; auto]
    | apply adds_usm_open; simpl; solve [auto]
    | apply adds_usm_demux; simpl; solve [auto | repeat split; auto]
    | apply adds_for_each; intro
    | apply adds_try_except;
        [|let e := fresh "e" in
          let h := fresh "h" in
          let He := fresh "He" in
          intros e h He; destruct e; try discriminate He; injection He as <-]
    | match goal with
      | |- adds _ (match ?x with _ => _ end) => destruct x
      end
    | apply adds_bind; [|intro] ].

(** X3: whatever the input, [probe_usm] opens every container with the
    encoding it was given and without a key, calls [demux] for video and
    audio without pages and without a folder name, and never calls
    [stream]: apart from that it prints, logs and probes. *)
Theorem probe_usm_events (input : string) (output : option string)
  (ffprobe encoding : string) :
  adds (probe_event encoding) (probe_usm input output ffprobe encoding).
Proof.
  unfold probe_usm, probe_one, probe_guard, probe_all, on_ValueError, logging,
    makedirs, mkdtemp, rmtree, listdir, find_ffprobe, print.
  adds_auto.
Qed.

End Adds.

(** ** More on [extract_usm] *)
Section ExtractMore.

Context {core : UsmCore}.

Lemma opens_app (a b : list event) : opens (a ++ b) = (opens a ++ opens b)%list.
Proof. apply flat_map_app. Qed.

Lemma opens_not_open (l : list event) : Forall not_open l -> opens l = [].
Proof.
  induction 1 as [|e l He _ IH]; [reflexivity|].
  destruct e; simpl in *; try contradiction; exact IH.
Qed.

Lemma print_not_open (e : event) : is_print e -> not_open e.
Proof. destruct e; simpl; auto. Qed.

(** A worker opens its file first, and opens nothing else. *)
Lemma process_usm_trace (output : string) (key : option Z) (encoding : string)
  (pages : bool) (f : usmfile) (w : world) :
  exists rest,
    trace (snd (process_usm output key encoding pages f w))
    = (trace w ++ EvUsmOpen f (Some encoding) key :: rest)%list
    /\ Forall not_open rest.
Proof.
  set (w0 := mkWorld (root w) (cwd w)
               (trace w ++ [EvUsmOpen f (Some encoding) key]) (entropy w)).
  set (rest_of :=
         try_except
           (u <- (w' <- get_world ;;
                  lift (Usm_open (root w') (cwd w') f (Some encoding) key)) ;;
            folder <- lift (usmfile_parent f) ;;
            _ <- usm_demux u (mkDemuxArgs output true true pages (Some folder)) ;;
            ret tt)
           (fun e =>
              match e with
              | ValueError _ =>
                  Some (print "ERROR" ;;
                        print ("Please run probe on " ++ fspath f))
              | _ => None
              end)).
  assert (Hrun : process_usm output key encoding pages f w = rest_of w0)
    by reflexivity.
  assert (Hrest : adds not_open rest_of).
  { subst rest_of. apply adds_try_except.
    - apply adds_bind.
      + apply adds_bind; [apply adds_get_world | intros w'; apply adds_lift].
      + intros u. apply adds_bind; [apply adds_lift | intros folder].
        apply adds_bind; [apply adds_usm_demux; exact I | intros _; apply adds_ret].
    - intros e handler He. destruct e; try discriminate He. injection He as <-.
      apply adds_bind; [apply adds_emit; exact I | intros _].
      apply adds_emit. exact I. }
  destruct (Hrest w0) as (rest & Htrace & Hno).
  exists rest. rewrite Hrun, Htrace. subst w0. cbn [trace].
  rewrite <- app_assoc. auto.
Qed.

Lemma pool_opens (output : string) (key : option Z) (encoding : string)
  (pages : bool) (files : list usmfile) :
  forall w, exists added,
    trace (snd (map_each files
                  (fun f => submit (process_usm output key encoding pages f)) w))
    = (trace w ++ added)%list
    /\ opens added = files.
Proof.
  induction files as [|f rest IH]; intros w.
  - exists []. rewrite app_nil_r. auto.
  - cbn [map_each]. unfold bind at 1. unfold submit at 1.
    destruct (process_usm_trace output key encoding pages f w)
      as (mine & Hmine & Hno).
    destruct (process_usm output key encoding pages f w) as [r w1].
    cbn [snd] in Hmine. unfold bind at 1.
    destruct (IH w1) as (others & Hothers & Hopens).
    destruct (map_each rest _ w1) as [[e|futures] w2]; cbn [snd] in *.
    + exists (EvUsmOpen f (Some encoding) key :: mine ++ others)%list. split.
      * rewrite Hothers, Hmine, <- app_assoc. reflexivity.
      * cbn [opens flat_map app]. fold (opens (mine ++ others)).
        rewrite opens_app, (opens_not_open mine Hno), Hopens. reflexivity.
    + unfold ret. cbn [snd].
      exists (EvUsmOpen f (Some encoding) key :: mine ++ others)%list. split.
      * rewrite Hothers, Hmine, <- app_assoc. reflexivity.
      * cbn [opens flat_map app]. fold (opens (mine ++ others)).
        rewrite opens_app, (opens_not_open mine Hno), Hopens. reflexivity.
Qed.

(** With the tasks run in submission order, the files are opened in the
    order they were found. *)
Lemma extract_opens_in_order (input output : string) (key : option Z)
  (encoding : string) (pages : bool) (workers : Z) (w w1 : world)
  (files : list usmfile) :
  find_usm input w = (inr files, w1) ->
  0 < workers ->
  opens (new_events w
           (snd (extract_usm input output key encoding pages workers w)))
  = files.
Proof.
  intros Hfind Hworkers.
  destruct (adds_find_usm input w) as (prints & Hprints & Hp).
  rewrite Hfind in Hprints. cbn [snd] in Hprints.
  unfold extract_usm. unfold bind at 1. rewrite Hfind. unfold bind at 1.
  destruct (Z.leb_spec workers 0) as [Hle|_]; [lia|].
  unfold ret at 1. unfold bind at 1.
  destruct (pool_opens output key encoding pages files w1)
    as (added & Hadded & Hopens).
  destruct (map_each files _ w1) as [[e|futures] w2]; cbn [snd] in *.
  - rewrite (new_events_app w w2 (prints ++ added)).
    + rewrite opens_app, Hopens, opens_not_open; [reflexivity|].
      eapply Forall_impl; [apply print_not_open | exact Hp].
    + rewrite Hadded, Hprints, app_assoc. reflexivity.
  - unfold ret. cbn [snd].
    rewrite (new_events_app w w2 (prints ++ added)).
    + rewrite opens_app, Hopens, opens_not_open; [reflexivity|].
      eapply Forall_impl; [apply print_not_open | exact Hp].
    + rewrite Hadded, Hprints, app_assoc. reflexivity.
Qed.

(** X4: once [find_usm] has returned its files and the number of workers
    is positive, [extract_usm] opens every one of them exactly once,
    whatever happens to the others: a failure on one file does not keep
    another from being opened.  (The order of the calls is left open: it
    is the pool's.) *)
Theorem extract_opens_every_file (input output : string) (key : option Z)
  (encoding : string) (pages : bool) (workers : Z) (w w1 : world)
  (files : list usmfile) :
  find_usm input w = (inr files, w1) ->
  0 < workers ->
  Permutation
    (opens (new_events w
              (snd (extract_usm input output key encoding pages workers w))))
    files.
Proof.
  intros Hfind Hworkers.
  rewrite (extract_opens_in_order input output key encoding pages workers
             w w1 files Hfind Hworkers).
  apply Permutation_refl.
Qed.

(** X5: on a single file with a good signature that [Usm.open] accepts,
    [extract_usm] opens the container and stops there: [demux] is never
    called, nothing is printed, and the command returns.  ([find_usm]
    hands the file back as the [str] it was given, [usmfile.parent] raises
    [AttributeError] inside the worker, and nobody asks the future.) *)
Theorem extract_single_file_not_demuxed (input output : string)
  (key : option Z) (encoding : string) (pages : bool) (workers : Z)
  (w : world) (content : list byte) (u : container) :
  stat (root w) (cwd w) input = inr (File content) ->
  is_usm (firstn 4 content) = true ->
  0 < workers ->
  Usm_open (root w) (cwd w) (UStr input) (Some encoding) key = inr u ->
  extract_usm input output key encoding pages workers w
  = (inr tt,
     mkWorld (root w) (cwd w)
       (trace w ++ [EvUsmOpen (UStr input) (Some encoding) key])%list
       (entropy w)).
Proof.
  intros Hstat Hgood Hworkers Hopen.
  unfold extract_usm. unfold bind at 1.
  rewrite (find_usm_file_good w input content Hstat Hgood). unfold bind at 1.
  destruct (Z.leb_spec workers 0) as [Hle|_]; [lia|].
  unfold ret at 1. unfold bind at 1. cbn [map_each].
  unfold bind at 1. unfold submit, process_usm, try_except.
  unfold bind at 1. rewrite usm_open_run, Hopen. reflexivity.
Qed.

End ExtractMore.

(** X4 on the directory [work] of the reference tree: three files are
    found and opened, although the third cannot be opened. *)
Lemma extract_opens_every_file_witness :
  Permutation
    (opens (new_events (Reference.start [])
              (snd (extract_usm "work" "out" None "shift-jis" false 4
                      (Reference.start [])))))
    [UPath (Path "work/a.usm"); UPath (Path "work/b.usm");
     UPath (Path "work/short.usm")].
Proof.
  apply (extract_opens_every_file "work" "out" None "shift-jis" false 4
           (Reference.start []) (snd (find_usm "work" (Reference.start []))));
    [reflexivity | lia].
Defined.

(** X5 on [work/a.usm]. *)
Lemma extract_single_file_not_demuxed_witness :
  extract_usm "work/a.usm" "out" None "shift-jis" false 4 (Reference.start [])
  = (inr tt,
     mkWorld Reference.tree [] [EvUsmOpen (UStr "work/a.usm") (Some "shift-jis") None]
       ["abc"; "def"; "ghi"]).
Proof.
  apply (extract_single_file_not_demuxed "work/a.usm" "out" None "shift-jis"
           false 4 (Reference.start []) Reference.plain_usm
           (mkUsm (Some "work/a.usm") [Reference.plain_usm] [] None None));
    [reflexivity | reflexivity | lia | reflexivity].
Defined.

(** ** More on [probe_usm] and [encrypt_usm] *)
Section ProbeEncryptMore.

Context {core : UsmCore}.

Lemma reads_only_pure {A} (c : M A) :
  (forall w, root (snd (c w)) = root w /\ cwd (snd (c w)) = cwd w
             /\ entropy (snd (c w)) = entropy w) ->
  reads_only c.
Proof. intros H. exact H. Qed.

Lemma reads_only_bind {A B} (c : M A) (k : A -> M B) :
  reads_only c -> (forall a, reads_only (k a)) -> reads_only (bind c k).
Proof.
  intros Hc Hk w. unfold bind. destruct (Hc w) as (Hr & Hd & He).
  destruct (c w) as [[e|a] w1]; cbn [snd] in *; [auto|].
  destruct (Hk a w1) as (Hr' & Hd' & He'). rewrite Hr', Hd', He'. auto.
Qed.

Ltac reads_only_auto :=
  repeat first
    [ apply reads_only_bind; [|intro]
    | match goal with
      | |- reads_only (match ?x with _ => _ end) => destruct x
      end
    | solve [intros ?; cbn; auto] ].

(** [find_usm] reads and prints: the tree, the working directory and the
    entropy stay as they are. *)
Lemma find_usm_loop_keeps (files : list path) :
  forall acc, reads_only (find_usm_loop files acc).
Proof.
  induction files as [|f rest IH]; intros acc; simpl.
  - intros w. cbn. auto.
  - apply reads_only_bind.
    + unfold read_magic. apply reads_only_bind; [intros w; cbn; auto | intros w].
      intros w'. cbn. auto.
    + intros magic. destruct (is_usm magic); apply IH.
Qed.

Lemma find_usm_keeps (directory : string) : reads_only (find_usm directory).
Proof.
  unfold find_usm. apply reads_only_bind; [intros w; cbn; auto | intros w].
  destruct (isfile (root w) (cwd w) directory).
  - apply reads_only_bind.
    + unfold read_magic. apply reads_only_bind; [intros w'; cbn; auto | intros w'].
      intros w''. cbn. auto.
    + intros magic. destruct (negb (is_usm magic)); intros w'; cbn; auto.
  - apply reads_only_bind; [intros w'; cbn; auto | intros _].
    apply reads_only_bind; [apply find_usm_loop_keeps | intros usmfiles].
    apply reads_only_bind; [intros w'; cbn; auto | intros _].
    intros w'. cbn. auto.
Qed.

(** X6: without an output option [probe_usm] always ends in an
    exception (the [TypeError] of [os.makedirs(None)], or what [find_usm]
    raised), having left the tree as it was and done nothing but print. *)
Theorem probe_usm_without_output (input ffprobe encoding : string) (w : world) :
  (exists e, fst (probe_usm input None ffprobe encoding w) = inl e)
  /\ root (snd (probe_usm input None ffprobe encoding w)) = root w
  /\ Forall is_print
       (new_events w (snd (probe_usm input None ffprobe encoding w))).
Proof.
  destruct (adds_find_usm input w) as (prints & Hprints & Hp).
  destruct (find_usm_keeps input w) as (Hroot & _).
  assert (Hrun : probe_usm input None ffprobe encoding w
                 = match find_usm input w with
                   | (inr _, w1) =>
                       (inl (TypeError
                               "expected str, bytes or os.PathLike object, not NoneType"),
                        w1)
                   | (inl e, w1) => (inl e, w1)
                   end).
  { unfold probe_usm. unfold bind at 1.
    destruct (find_usm input w) as [[e|files] w1]; reflexivity. }
  rewrite Hrun. destruct (find_usm input w) as [[e|files] w1]; cbn [fst snd] in *;
    (split; [eexists; reflexivity|]; split; [exact Hroot|];
     rewrite (new_events_app w w1 prints Hprints); exact Hp).
Qed.

(** X7: given a directory in which [find_usm] finds at least one
    container, [probe_usm] creates the output directory, the temporary
    directory and the log file of the first container, prints
    [Processing 1 of n], and then raises [TypeError]: the entries are
    [Path] objects, and [usmfile.replace(input, "")] is [Path.replace]
    with one argument too many.  No container is opened, and the
    temporary directory is left behind. *)
Theorem probe_usm_directory_fails (input output ffprobe encoding : string)
  (w w1 w2 w3 : world) (f : path) (rest : list usmfile) (temp_dir : string)
  (loc : list string) (t : node) :
  find_usm input w = (inr (UPath f :: rest), w1) ->
  makedirs output w1 = (inr tt, w2) ->
  mkdtemp w2 = (inr temp_dir, w3) ->
  open_wb (root w3) (cwd w3)
    (path_join output
       (basename (path_str f) ++ "_" ++ hd "" (entropy w3) ++ ".log"))
  = inr (loc, t) ->
  exists message,
    probe_usm input (Some output) ffprobe encoding w
    = (inl (TypeError message),
       mkWorld t (cwd w3)
         (trace w3
          ++ [EvPrint (String.append
                         (String.append "Processing 1 of "
                            (string_of_nat (S (List.length rest))))
                         nl)])%list
         (tl (entropy w3))).
Proof.
  intros Hfind Hmk Htmp Hlog.
  exists "replace() takes 2 positional arguments but 3 were given".
  unfold probe_usm. unfold bind at 1. rewrite Hfind.
  unfold bind at 1. unfold bind at 1. rewrite Hmk. unfold ret at 1.
  unfold bind at 1. rewrite Htmp.
  unfold bind at 1. unfold find_ffprobe, ret at 1.
  unfold bind at 1. cbn [enumerate_from for_each fst snd].
  unfold bind at 1. unfold probe_one.
  unfold bind at 1. unfold print at 1, emit at 1.
  unfold bind at 1. unfold random_str at 1. cbn [root cwd trace entropy].
  unfold bind at 1. unfold get_world at 1.
  unfold bind at 1. unfold lift at 1. cbn [root cwd trace entropy fspath].
  rewrite Hlog. unfold bind at 1. unfold set_root at 1.
  cbn [root cwd trace entropy]. unfold bind at 1. unfold raise.
  cbn [List.length Nat.add]. reflexivity.
Qed.

(** X8: [encrypt_usm] has no handler: when [Usm.open] raises on the
    first file that [find_usm] returned, the command ends with that
    exception; the other files are not opened and nothing is written. *)
Theorem encrypt_usm_stops_at_first_failure (input : string)
  (output : option string) (key : option Z) (encoding : string)
  (w w1 : world) (f : usmfile) (rest : list usmfile) (e : exn) :
  find_usm input w = (inr (f :: rest), w1) ->
  Usm_open (root w1) (cwd w1) f None None = inl e ->
  encrypt_usm input output key encoding w
  = (inl e,
     mkWorld (root w1) (cwd w1) (trace w1 ++ [EvUsmOpen f None None])%list
       (entropy w1)).
Proof.
  intros Hfind Hopen. unfold encrypt_usm. unfold bind at 1.
  assert (Hout : exists outdir,
             match output with
             | Some o => ret (Path o)
             | None => dir_or_parent_dir input
             end w = (inr outdir, w)).
  { destruct output as [o|]; [eexists; reflexivity|].
    rewrite dir_or_parent_dir_eq. eexists; reflexivity. }
  destruct Hout as (outdir & ->).
  unfold bind at 1. rewrite Hfind. cbn [for_each].
  unfold bind at 1. unfold encrypt_one. unfold bind at 1.
  rewrite usm_open_run, Hopen. reflexivity.
Qed.

End ProbeEncryptMore.

(** X7 on the directory [good] of the reference tree, with the output
    [logs]: the exception, no container operation in the trace, and the
    temporary directory still there. *)
Lemma probe_usm_directory_fails_witness :
  (exists message,
     fst (probe_usm "good" (Some "logs") "." "shift-jis" (Reference.start []))
     = inl (TypeError message))
  /\ existsb is_container_op
       (trace (snd (probe_usm "good" (Some "logs") "." "shift-jis"
                      (Reference.start [])))) = false
  /\ node_at (root (snd (probe_usm "good" (Some "logs") "." "shift-jis"
                           (Reference.start [])))) ["tmp"; "tmpabc"]
     = Some (Dir []).
Proof.
  destruct (probe_usm_directory_fails "good" "logs" "." "shift-jis"
              (Reference.start [])
              (snd (find_usm "good" (Reference.start [])))
              (snd (makedirs "logs" (snd (find_usm "good" (Reference.start [])))))
              (snd (mkdtemp
                      (snd (makedirs "logs"
                              (snd (find_usm "good" (Reference.start [])))))))
              (Path "good/a.usm") [UPath (Path "good/b.usm")] "/tmp/tmpabc"
              ["logs"; "a.usm_def.log"]
              (put_node
                 (root (snd (mkdtemp
                               (snd (makedirs "logs"
                                       (snd (find_usm "good" (Reference.start []))))))))
                 ["logs"; "a.usm_def.log"] (File []))
              eq_refl eq_refl eq_refl eq_refl) as [message Hrun].
  rewrite Hrun. split; [exists message; reflexivity|]. split; reflexivity.
Defined.

(** X8 on [work/short.usm], which has the signature and nothing else. *)
Lemma encrypt_usm_stops_at_first_failure_witness :
  encrypt_usm "work/short.usm" (Some "empty") (Some 5) "shift-jis"
    (Reference.start [])
  = (inl (ValueError "MalformedChunk"),
     mkWorld Reference.tree [] [EvUsmOpen (UStr "work/short.usm") None None]
       ["abc"; "def"; "ghi"]).
Proof.
  apply (encrypt_usm_stops_at_first_failure "work/short.usm" (Some "empty")
           (Some 5) "shift-jis" (Reference.start []) (Reference.start [])
           (UStr "work/short.usm") [] (ValueError "MalformedChunk"));
    reflexivity.
Defined.

(** ** More on [find_usm] *)
Section FindUsmMore.

Context {core : UsmCore}.

(** [endswith] is what it says. *)
Lemma ends_with_iff (suf s : string) :
  ends_with suf s = true <-> exists stem, s = (stem ++ suf)%string.
Proof.
  split.
  - induction s as [|c r IH]; simpl; rewrite orb_true_iff.
    + intros [H | H]; [|discriminate]. apply String.eqb_eq in H.
      exists EmptyString. symmetry. exact H.
    + intros [H | H].
      * apply String.eqb_eq in H. exists EmptyString. symmetry. exact H.
      * destruct (IH H) as [stem ->]. exists (String c stem). reflexivity.
  - intros [stem ->]. induction stem as [|c stem IH].
    + destruct suf; simpl; rewrite ?String.eqb_refl, ?Ascii.eqb_refl; reflexivity.
    + change ((String c stem ++ suf)%string) with (String c (stem ++ suf)).
      cbn [ends_with]. rewrite IH. apply orb_true_r.
Qed.

(** Whatever the files are, the loop returns files it was given that
    passed the signature test, behind what it had already. *)
Lemma find_usm_loop_sound (files : list path) :
  forall acc w l w',
    find_usm_loop files acc w = (inr l, w') ->
    exists selected,
      l = (acc ++ map UPath selected)%list
      /\ forall f, In f selected ->
           In f files /\ passes_is_usm (root w) (cwd w) f = true.
Proof.
  induction files as [|f rest IH]; intros acc w l w' H; simpl in H.
  - injection H as <- _. exists []. rewrite app_nil_r. split; [reflexivity|].
    intros ? [].
  - unfold bind at 1 in H. unfold read_magic, bind, get_world, lift in H.
    destruct (read_prefix (root w) (cwd w) (path_str f) 4) as [e|magic] eqn:Hread;
      [discriminate|].
    destruct (is_usm magic) eqn:Hmagic.
    + destruct (IH _ _ _ _ H) as (selected & -> & Hsel).
      exists (f :: selected). split.
      * rewrite <- app_assoc. reflexivity.
      * intros g [<- | Hg].
        -- split; [left; reflexivity|]. unfold passes_is_usm. rewrite Hread. exact Hmagic.
        -- destruct (Hsel g Hg). split; [right|]; assumption.
    + destruct (IH _ _ _ _ H) as (selected & -> & Hsel).
      exists selected. split; [reflexivity|].
      intros g Hg. destruct (Hsel g Hg). split; [right|]; assumption.
Qed.

(** X9: what [find_usm] returns, when it returns.  For a regular file it
    is the input itself, as the string it was given, and nothing is
    printed.  Otherwise every path returned is an entry of the directory
    itself (never of a subdirectory) whose name ends in [.usm] and whose
    first four bytes pass [is_usm]. *)
Theorem find_usm_sound (directory : string) (w w' : world) (l : list usmfile) :
  find_usm directory w = (inr l, w') ->
  (isfile (root w) (cwd w) directory = true /\ l = [UStr directory] /\ w' = w)
  \/ (isfile (root w) (cwd w) directory = false
      /\ forall u, In u l ->
           exists name stem es n,
             u = UPath (make_child_relpath (Path directory) name)
             /\ name = (stem ++ ".usm")%string
             /\ stat (root w) (cwd w) (path_str (Path directory)) = inr (Dir es)
             /\ In (name, n) es
             /\ passes_is_usm (root w) (cwd w)
                  (make_child_relpath (Path directory) name) = true).
Proof.
  intros H. unfold find_usm in H. unfold bind at 1 in H. unfold get_world in H.
  destruct (isfile (root w) (cwd w) directory) eqn:Hfile.
  - left. split; [reflexivity|].
    unfold bind, read_magic, bind, get_world, lift in H.
    destruct (read_prefix (root w) (cwd w) directory 4) as [e|magic]; [discriminate|].
    destruct (negb (is_usm magic)); [discriminate|].
    injection H as <- <-. auto.
  - right. split; [reflexivity|].
    unfold bind at 1 in H. unfold print_end, emit at 1 in H.
    unfold bind at 1 in H.
    set (w0 := mkWorld (root w) (cwd w)
                 (trace w ++ [EvPrint ("Finding USM files... " ++ "")]) (entropy w)) in H.
    destruct (find_usm_loop (glob_usm (root w) (cwd w) (Path directory)) [] w0)
      as [[e|usmfiles] w1] eqn:Hloop; [discriminate|].
    destruct (find_usm_loop_sound _ _ _ _ _ Hloop) as (selected & -> & Hsel).
    unfold bind, print, emit, ret in H. injection H as <- _.
    intros u Hu. cbn [app] in Hu. apply in_map_iff in Hu as (f & <- & Hf).
    destruct (Hsel f Hf) as [Hglob Hpass].
    destruct (glob_usm_children _ _ _ _ Hglob) as (es & name & n & Hstat & Hin & Hmatch & ->).
    apply ends_with_iff in Hmatch as [stem ->].
    exists (stem ++ ".usm")%string, stem, es, n. auto.
Qed.

(** X10: when every entry of the directory whose name ends in [.usm] is a
    regular file, [find_usm] returns without error exactly those of them
    whose first four bytes pass [is_usm], in the order of the entries, and
    prints how many they are. *)
Theorem find_usm_directory_of_files (w : world) (directory : string) :
  isfile (root w) (cwd w) directory = false ->
  forallb (is_regular_file (root w) (cwd w))
    (glob_usm (root w) (cwd w) (Path directory)) = true ->
  find_usm directory w
  = (inr (map UPath
            (filter (passes_is_usm (root w) (cwd w))
               (glob_usm (root w) (cwd w) (Path directory)))),
     mkWorld (root w) (cwd w)
       (trace w
        ++ [EvPrint "Finding USM files... ";
            EvPrint (String.append
                       (String.append "Found "
                          (string_of_nat
                             (List.length
                                (filter (passes_is_usm (root w) (cwd w))
                                   (glob_usm (root w) (cwd w) (Path directory))))))
                       nl)])%list
       (entropy w)).
Proof. apply find_usm_directory. Qed.

(** X11: a path that names neither a regular file nor a directory, one
    that does not exist for instance, is no error for [find_usm]: it
    prints that it found 0 files and returns the empty list. *)
Theorem find_usm_missing_path (w : world) (directory : string) :
  isfile (root w) (cwd w) directory = false ->
  isdir (root w) (cwd w) (path_str (Path directory)) = false ->
  find_usm directory w
  = (inr [],
     mkWorld (root w) (cwd w)
       (trace w ++ [EvPrint "Finding USM files... ";
                    EvPrint (String.append "Found 0" nl)])%list
       (entropy w)).
Proof.
  intros Hfile Hdir.
  assert (Hglob : glob_usm (root w) (cwd w) (Path directory) = []).
  { unfold glob_usm. unfold isdir in Hdir.
    destruct (stat (root w) (cwd w) (path_str (Path directory))) as [e|[c|es]];
      [reflexivity | reflexivity | discriminate]. }
  rewrite (find_usm_directory w directory Hfile); rewrite Hglob; reflexivity.
Qed.

End FindUsmMore.

(** X9 on the directory [work] and on the file [work/a.usm]. *)
Lemma find_usm_sound_witness :
  (isfile Reference.tree [] "work/a.usm" = true
   /\ [UStr "work/a.usm"] = [UStr "work/a.usm"]
   /\ Reference.start [] = Reference.start [])
  \/ (isfile Reference.tree [] "work/a.usm" = false
      /\ forall u, In u [UStr "work/a.usm"] ->
           exists name stem es n,
             u = UPath (make_child_relpath (Path "work/a.usm") name)
             /\ name = (stem ++ ".usm")%string
             /\ stat Reference.tree [] (path_str (Path "work/a.usm")) = inr (Dir es)
             /\ In (name, n) es
             /\ @passes_is_usm Reference.core Reference.tree []
                  (make_child_relpath (Path "work/a.usm") name) = true).
Proof.
  apply (find_usm_sound "work/a.usm" (Reference.start []) (Reference.start [])
           [UStr "work/a.usm"]).
  reflexivity.
Defined.

(** X10 on the directory [work]. *)
Lemma find_usm_directory_of_files_witness :
  fst (find_usm "work" (Reference.start []))
  = inr [UPath (Path "work/a.usm"); UPath (Path "work/b.usm");
         UPath (Path "work/short.usm")].
Proof.
  rewrite (find_usm_directory_of_files (Reference.start []) "work" eq_refl eq_refl).
  reflexivity.
Defined.

(** X11 on a path of the reference tree that does not exist. *)
Lemma find_usm_missing_path_witness :
  fst (find_usm "nowhere/at/all" (Reference.start [])) = inr [].
Proof.
  rewrite (find_usm_missing_path (Reference.start []) "nowhere/at/all"
             eq_refl eq_refl).
  reflexivity.
Defined.

(** ** More on [key_normalize] *)
Section KeyNormalizeMore.

Context {py : Interpreter}.

(** X12: when [key_normalize] rejects a key, the exception is the
    [ValueError] of the second parse, [int("0x" + key_str, 16)]: its
    message names base 16 and quotes, by the first 200 characters of its
    [repr], the key with the [0x] that [key_normalize] put in front, not
    the key as typed. *)
Theorem key_normalize_error (u : pystr) (e : exn) :
  key_normalize u = inl e ->
  e = ValueError
        ("invalid literal for int() with base 16: "
         ++ text (firstn 200 (PyRepr.unicode_repr (code_points "0x" ++ u)%list))).
Proof.
  intros H.
  destruct (PyInt.PyLong_FromString (PyInt.TransformDecimalAndSpaceToASCII u) 0)
    as [v| |digits] eqn:Hfirst.
  - rewrite (KeyFacts.key_normalize_first u v Hfirst) in H. discriminate H.
  - rewrite KeyFacts.key_normalize_second in H by (intros v; rewrite Hfirst; discriminate).
    destruct (PyInt.PyLong_FromString
                ("0x" ++ PyInt.TransformDecimalAndSpaceToASCII u) 16);
      [discriminate H | |]; injection H as <-; reflexivity.
  - rewrite KeyFacts.key_normalize_second in H by (intros v; rewrite Hfirst; discriminate).
    destruct (PyInt.PyLong_FromString
                ("0x" ++ PyInt.TransformDecimalAndSpaceToASCII u) 16);
      [discriminate H | |]; injection H as <-; reflexivity.
Qed.

(** X13: decimal digits with a superfluous leading zero are not read as
    the decimal number: [int(s, 0)] rejects them unless they denote zero,
    and the second parse reads the same digits as hexadecimal. *)
Theorem key_normalize_leading_zero (s : string) :
  all_digits 10 s = true -> head_is "0" s = true ->
  digits_value 10 0 s <> 0 ->
  key_normalize s = inr (digits_value 16 0 s).
Proof.
  intros Hd Hz Hv.
  pose proof (KeyFacts.all_digits_weaken _ Hd) as H16.
  rewrite KeyFacts.key_normalize_second;
    rewrite (KeyFacts.buffer_of_digits 10 s Hd).
  - rewrite (KeyFacts.FromString_hex 16 s); [reflexivity | auto | | exact H16].
    destruct s; [discriminate Hz | reflexivity].
  - apply KeyFacts.FromString_leading_zero_fails; assumption.
Qed.

(** X14: a sign is accepted in front of a decimal numeral that has no
    more digits than the limit of the interpreter: with [-] the key is
    the negative number, so [key_normalize] can return a key below
    zero. *)
Theorem key_normalize_signed (s : string) :
  decimal_form s = true ->
  PyInt.exceeds_limit (String.length s) = false ->
  key_normalize ("-" ++ s) = inr (- digits_value 10 0 s)
  /\ key_normalize ("+" ++ s) = inr (digits_value 10 0 s).
Proof.
  intros Hs Hlimit.
  assert (Hd : all_digits 10 s = true).
  { unfold decimal_form in Hs. rewrite !andb_true_iff in Hs. apply Hs. }
  assert (Hbuf : forall sign : ascii,
             (N_of_ascii sign <? 128)%N = true ->
             PyInt.TransformDecimalAndSpaceToASCII (code_points (String sign s))
             = String sign s).
  { intros sign Hsign. apply KeyFacts.buffer_of_text. cbn [every].
    rewrite Hsign. apply (KeyFacts.all_digits_ascii 10 s Hd). }
  split; apply KeyFacts.key_normalize_first.
  - change ("-" ++ s) with (String "-" s). rewrite (Hbuf "-"%char eq_refl).
    apply (KeyFacts.FromString_signed_decimal "-" true s); auto.
  - change ("+" ++ s) with (String "+" s). rewrite (Hbuf "+"%char eq_refl).
    apply (KeyFacts.FromString_signed_decimal "+" false s); auto.
Qed.

End KeyNormalizeMore.

(** X12 on ["12 34"]. *)
Lemma key_normalize_error_witness :
  ValueError "invalid literal for int() with base 16: '0x12 34'"
  = ValueError
      ("invalid literal for int() with base 16: "
       ++ text (firstn 200
                  (@PyRepr.unicode_repr Reference.interpreter
                     (code_points "0x" ++ code_points "12 34")%list))).
Proof.
  apply (@key_normalize_error Reference.interpreter "12 34"
           (ValueError "invalid literal for int() with base 16: '0x12 34'")).
  reflexivity.
Defined.

(** X13 on ["0123"]. *)
Lemma key_normalize_leading_zero_witness :
  @key_normalize Reference.interpreter "0123" = inr 291.
Proof.
  apply (@key_normalize_leading_zero Reference.interpreter "0123");
    [reflexivity | reflexivity | discriminate].
Defined.

(** X14 on ["42"]. *)
Lemma key_normalize_signed_witness :
  @key_normalize Reference.interpreter "-42" = inr (-42)
  /\ @key_normalize Reference.interpreter "+42" = inr 42.
Proof.
  apply (@key_normalize_signed Reference.interpreter "42"); reflexivity.
Defined.

(** ** [os.path.splitext] and the destination of [create_usm] *)
Section SplitextFacts.

Lemma append_empty_r (s : string) : (s ++ "")%string = s.
Proof. induction s as [|c s IH]; simpl; [|rewrite IH]; reflexivity. Qed.

Lemma substring_whole (s : string) : substring 0 (String.length s) s = s.
Proof. induction s as [|c s IH]; simpl; [|rewrite IH]; reflexivity. Qed.

(** Cutting a string at any index and gluing the two parts gives the
    string back. *)
Lemma substring_cut (p : string) :
  forall n,
    (substring 0 n p ++ substring n (String.length p - n) p)%string = p.
Proof.
  induction p as [|c p IH]; intros n.
  - destruct n; reflexivity.
  - destruct n as [|n].
    + change (substring 0 0 (String c p)) with EmptyString.
      rewrite Nat.sub_0_r. apply substring_whole.
    + simpl. rewrite IH. reflexivity.
Qed.

Lemma splitext_loop_some (p : string) (dotIndex : Z) (fuel : nat) :
  forall filenameIndex r,
    splitext_loop p dotIndex filenameIndex fuel = Some r ->
    r = (slice_to p dotIndex, slice_from p dotIndex).
Proof.
  induction fuel as [|k IH]; intros filenameIndex r H; simpl in H; [discriminate|].
  destruct (String.get (Z.to_nat filenameIndex) p) as [c|].
  - destruct (Ascii.eqb_spec c ".") as [->|Hne].
    + apply (IH _ _ H).
    + assert (Hr : Some (slice_to p dotIndex, slice_from p dotIndex) = Some r).
      { rewrite <- H. destruct c as [[|] [|] [|] [|] [|] [|] [|] [|]];
          try reflexivity. exfalso. apply Hne. reflexivity. }
      injection Hr as <-. reflexivity.
  - injection H as <-. reflexivity.
Qed.

(** [os.path.splitext] only cuts: the root and the extension, put
    together again, are the path. *)
Lemma splitext_glue (p : string) :
  (fst (splitext p) ++ snd (splitext p))%string = p.
Proof.
  unfold splitext. destruct (rfind "/" p <? rfind "." p).
  - destruct (splitext_loop p (rfind "." p) (rfind "/" p + 1)
                (Z.to_nat (rfind "." p - (rfind "/" p + 1)))) as [r|] eqn:Hloop.
    + rewrite (splitext_loop_some _ _ _ _ _ Hloop). cbn [fst snd].
      apply substring_cut.
    + apply append_empty_r.
  - apply append_empty_r.
Qed.

End SplitextFacts.


Section CreateMore.

Context {core : UsmCore}.

(** X15: when the input of [create_usm] already has the extension
    [.usm], the file the command opens for writing is the input itself:
    every packet is written over the video it was given. *)
Theorem create_usm_over_its_input (input : string)
  (input_audio output : option string) (ffprobe : string) (key : option Z)
  (encoding : string) (w : world) :
  snd (splitext input) = ".usm" ->
  create_destination input = input
  /\ forall pathname data,
       In (pathname, data)
         (writes
            (new_events w
               (snd (create_usm input input_audio output ffprobe key encoding w)))) ->
       pathname = input.
Proof.
  intros Hext.
  assert (Hdest : create_destination input = input).
  { unfold create_destination. rewrite <- Hext. apply splitext_glue. }
  split; [exact Hdest|].
  intros pathname data Hin. rewrite <- Hdest.
  exact (create_usm_writes input input_audio output ffprobe key encoding w
           pathname data Hin).
Qed.

End CreateMore.

(** [splitext] on paths with dots in a directory name, two extensions, and
    a leading dot. *)
Example splitext_example :
  splitext "a/b.c/d.tar.gz" = ("a/b.c/d.tar", ".gz")
  /\ splitext "a.b/.profile" = ("a.b/.profile", "").
Proof. split; reflexivity. Qed.

(** X15 on [work/a.usm]. *)
Lemma create_usm_over_its_input_witness :
  create_destination "work/a.usm" = "work/a.usm"
  /\ forall pathname data,
       In (pathname, data)
         (writes
            (new_events (Reference.start [])
               (snd (create_usm "work/a.usm" None None "." None "shift-jis"
                       (Reference.start []))))) ->
       pathname = "work/a.usm".
Proof.
  apply (create_usm_over_its_input "work/a.usm" None None "." None "shift-jis"
           (Reference.start [])).
  reflexivity.
Defined.

(** ** Writing a file and reading it back *)
Section TreeFacts.

Lemma find_entry_set_same (name : string) (n : node) (es : list (string * node)) :
  find_entry name (set_entry name n es) = Some n.
Proof.
  induction es as [|[k v] es IH]; simpl.
  - rewrite String.eqb_refl. reflexivity.
  - destruct (String.eqb k name) eqn:Hk; simpl; rewrite Hk; [reflexivity | exact IH].
Qed.

Lemma find_entry_set_other (name name' : string) (n : node)
  (es : list (string * node)) :
  name <> name' ->
  find_entry name' (set_entry name n es) = find_entry name' es.
Proof.
  intros Hne. induction es as [|[k v] es IH]; simpl.
  - destruct (String.eqb_spec name name'); [contradiction | reflexivity].
  - destruct (String.eqb_spec k name) as [->|Hk]; simpl.
    + destruct (String.eqb_spec name name'); [contradiction | reflexivity].
    + destruct (String.eqb k name'); [reflexivity | exact IH].
Qed.

Lemma node_at_app (a b : list string) :
  forall t,
    node_at t (a ++ b)%list
    = match node_at t a with
      | Some n => node_at n b
      | None => None
      end.
Proof.
  induction a as [|c a IH]; intros t; simpl; [reflexivity|].
  destruct t as [content|es]; [reflexivity|].
  destruct (find_entry c es); [apply IH | reflexivity].
Qed.

Lemma is_dir_at_file (content : list byte) (l : list string) :
  is_dir_at (File content) l = false.
Proof. destruct l; reflexivity. Qed.

Lemma is_dir_at_cons (es : list (string * node)) (c : string) (l : list string) :
  is_dir_at (Dir es) (c :: l)
  = match find_entry c es with
    | Some sub => is_dir_at sub l
    | None => false
    end.
Proof. unfold is_dir_at. simpl. destruct (find_entry c es); reflexivity. Qed.

(** The way to a directory leads through directories. *)
Lemma is_dir_at_removelast (t : node) (l : list string) :
  is_dir_at t l = true -> is_dir_at t (removelast l) = true.
Proof.
  destruct l as [|c l] using rev_ind; [auto|].
  rewrite removelast_last. unfold is_dir_at. rewrite node_at_app.
  destruct (node_at t l) as [[content|es]|]; simpl; auto; discriminate.
Qed.

(** What is put at a location whose parent is a directory is found there. *)
Lemma node_at_put_same (loc : list string) :
  forall t n,
    loc = [] \/ is_dir_at t (removelast loc) = true ->
    node_at (put_node t loc n) loc = Some n.
Proof.
  induction loc as [|c cs IH]; intros t n H; [reflexivity|].
  destruct H as [H|H]; [discriminate|].
  destruct cs as [|c' cs].
  - destruct t as [content|es]; [discriminate H|].
    simpl. destruct (find_entry c es); simpl; rewrite find_entry_set_same; reflexivity.
  - change (removelast (c :: c' :: cs)) with (c :: removelast (c' :: cs)) in H.
    destruct t as [content|es]; [discriminate H|].
    rewrite is_dir_at_cons in H.
    destruct (find_entry c es) as [sub|] eqn:Hc; [|discriminate H].
    change (put_node (Dir es) (c :: c' :: cs) n)
      with (match find_entry c es with
            | Some sub => Dir (set_entry c (put_node sub (c' :: cs) n) es)
            | None => Dir es
            end).
    rewrite Hc.
    change (node_at (Dir (set_entry c (put_node sub (c' :: cs) n) es)) (c :: c' :: cs))
      with (match find_entry c (set_entry c (put_node sub (c' :: cs) n) es) with
            | Some s => node_at s (c' :: cs)
            | None => None
            end).
    rewrite find_entry_set_same. apply IH. right. exact H.
Qed.

(** Writing a file where a file can be written changes no directory into
    something else and nothing into a directory. *)
Lemma put_file_kinds (loc : list string) :
  forall t data l,
    writable t loc ->
    is_dir_at (put_node t loc (File data)) l = is_dir_at t l.
Proof.
  induction loc as [|c cs IH]; intros t data l (Hne & Hparent & Hself);
    [contradiction|].
  destruct t as [content|es].
  { destruct cs; discriminate Hparent. }
  rewrite is_dir_at_cons in Hself.
  destruct cs as [|c' cs].
  - (* the file is an entry of this directory *)
    assert (Hput : put_node (Dir es) [c] (File data)
                   = Dir (set_entry c (File data) es)).
    { simpl. destruct (find_entry c es); reflexivity. }
    rewrite Hput. destruct l as [|c2 l]; [reflexivity|].
    rewrite !is_dir_at_cons.
    destruct (String.eqb_spec c c2) as [<-|Hc].
    + rewrite find_entry_set_same, is_dir_at_file.
      destruct (find_entry c es) as [[content|es']|]; try reflexivity.
      * symmetry. apply is_dir_at_file.
      * discriminate Hself.
    + rewrite (find_entry_set_other c c2 _ es Hc). reflexivity.
  - change (removelast (c :: c' :: cs)) with (c :: removelast (c' :: cs)) in Hparent.
    rewrite is_dir_at_cons in Hparent.
    destruct (find_entry c es) as [sub|] eqn:Hsub; [|discriminate Hparent].
    assert (Hput : put_node (Dir es) (c :: c' :: cs) (File data)
                   = Dir (set_entry c (put_node sub (c' :: cs) (File data)) es)).
    { simpl. rewrite Hsub. reflexivity. }
    rewrite Hput. destruct l as [|c2 l]; [reflexivity|].
    rewrite !is_dir_at_cons.
    destruct (String.eqb_spec c c2) as [<-|Hc].
    + rewrite find_entry_set_same, Hsub. apply IH.
      split; [discriminate|]. split; assumption.
    + rewrite (find_entry_set_other c c2 _ es Hc). reflexivity.
Qed.

(** Resolution looks at directories only: it goes the same way in two
    trees with the same directories. *)
Lemma walk_kinds (t t' : node) (pn : string) :
  (forall l, is_dir_at t' l = is_dir_at t l) ->
  forall comps loc l,
    walk t pn loc comps = inr l -> walk t' pn loc comps = inr l.
Proof.
  intros Hkinds. induction comps as [|c cs IH]; intros loc l H; simpl in *;
    [exact H|].
  pose proof (Hkinds loc) as Hloc. unfold is_dir_at in Hloc.
  destruct (node_at t loc) as [[content|es]|]; try discriminate H.
  destruct (node_at t' loc) as [[content'|es']|]; try discriminate Hloc.
  destruct (String.eqb c "" || String.eqb c "."); [apply IH, H|].
  destruct (String.eqb c ".."); apply IH, H.
Qed.

(** Where a resolution ends: in a directory, or right under one. *)
Lemma walk_end (t : node) (pn : string) :
  forall comps loc l,
    walk t pn loc comps = inr l ->
    (comps = [] ->
     is_dir_at t loc = true \/ (loc <> [] /\ is_dir_at t (removelast loc) = true)) ->
    is_dir_at t l = true \/ (l <> [] /\ is_dir_at t (removelast l) = true).
Proof.
  induction comps as [|c cs IH]; intros loc l H Hstart; simpl in H.
  - injection H as <-. apply Hstart. reflexivity.
  - destruct (node_at t loc) as [[content|es]|] eqn:Hloc; try discriminate H.
    assert (Hdir : is_dir_at t loc = true) by (unfold is_dir_at; rewrite Hloc; reflexivity).
    destruct (String.eqb c "" || String.eqb c ".").
    + apply (IH _ _ H). intros _. left. exact Hdir.
    + destruct (String.eqb c "..").
      * apply (IH _ _ H). intros _. left. apply is_dir_at_removelast, Hdir.
      * apply (IH _ _ H). intros _. right. split.
        -- destruct loc; discriminate.
        -- rewrite removelast_last. exact Hdir.
Qed.

(** What [open(pathname, "wb")] gives when it succeeds. *)
Lemma open_wb_writable (t : node) (cwd : list string) (pathname : string)
  (loc : list string) (t' : node) :
  open_wb t cwd pathname = inr (loc, t') ->
  writable t loc /\ t' = put_node t loc (File [])
  /\ locate t cwd pathname = inr loc.
Proof.
  unfold open_wb. destruct (locate t cwd pathname) as [e|loc'] eqn:Hlocate;
    [discriminate|].
  intros H.
  assert (Hnot : is_dir_at t loc' = false /\ loc = loc'
                 /\ t' = put_node t loc' (File [])).
  { unfold is_dir_at. destruct (node_at t loc') as [[content|es]|];
      try discriminate H; injection H as <- <-; auto. }
  destruct Hnot as (Hnot & -> & ->). split; [|auto].
  unfold locate in Hlocate.
  destruct (PyInt.is_empty pathname); [discriminate|].
  destruct (walk_end t pathname _ _ _ Hlocate) as [Hdir | [Hne Hparent]].
  - intros Hempty. exfalso. exact (split_nonempty "/" pathname Hempty).
  - rewrite Hdir in Hnot. discriminate.
  - split; [exact Hne | split; assumption].
Qed.

(** The file after the packets were appended, and the directories as
    they were. *)
Lemma written_spec (packets : list (list byte)) :
  forall t loc content,
    writable t loc -> node_at t loc = Some (File content) ->
    node_at (written t loc packets) loc = Some (File (content ++ concat packets)%list)
    /\ forall l, is_dir_at (written t loc packets) l = is_dir_at t l.
Proof.
  induction packets as [|packet rest IH]; intros t loc content Hw Hnode.
  - simpl. rewrite app_nil_r. auto.
  - change (written t loc (packet :: rest))
      with (written (append_at t loc packet) loc rest).
    assert (Happend : append_at t loc packet
                      = put_node t loc (File (content ++ packet)%list)).
    { unfold append_at. rewrite Hnode. reflexivity. }
    rewrite Happend.
    assert (Hkinds : forall l, is_dir_at (put_node t loc (File (content ++ packet)%list)) l
                               = is_dir_at t l)
      by (intros l; apply put_file_kinds, Hw).
    destruct Hw as (Hne & Hparent & Hself).
    destruct (IH (put_node t loc (File (content ++ packet)%list)) loc (content ++ packet)%list)
      as (Hfile & Hrest).
    + split; [exact Hne|]. rewrite !Hkinds. auto.
    + apply node_at_put_same. right. exact Hparent.
    + split.
      * rewrite Hfile. simpl. rewrite <- app_assoc. reflexivity.
      * intros l. rewrite Hrest. apply Hkinds.
Qed.

End TreeFacts.

Section WriteRead.

Context {core : UsmCore}.

(** X16: what [write_stream] wrote can be read back.  Whenever the
    destination could be opened, the file at the destination holds, after
    the command, exactly the packets the stream yielded, in order and
    with nothing between them: all of them when the stream ended, those
    yielded before the exception when it raised. *)
Theorem write_stream_read_back (dest : string) (u : container) (mode : OpMode)
  (encoding : string) (w : world) (loc : list string) (t : node) :
  open_wb (root w) (cwd w) dest = inr (loc, t) ->
  stat (root (snd (write_stream dest u mode encoding w))) (cwd w) dest
  = inr (File (concat (fst (Usm_stream u mode encoding)))).
Proof.
  intros Hopen. rewrite write_stream_run, Hopen. cbn [snd root].
  destruct (open_wb_writable _ _ _ _ _ Hopen) as (Hw & -> & Hlocate).
  assert (Hkinds0 : forall l, is_dir_at (put_node (root w) loc (File [])) l
                              = is_dir_at (root w) l)
    by (intros l; apply put_file_kinds, Hw).
  destruct Hw as (Hne & Hparent & Hself).
  destruct (written_spec (fst (Usm_stream u mode encoding))
              (put_node (root w) loc (File [])) loc [])
    as (Hfile & Hkinds).
  - split; [exact Hne|]. rewrite !Hkinds0. auto.
  - apply node_at_put_same. right. exact Hparent.
  - unfold stat, locate. unfold locate in Hlocate.
    destruct (PyInt.is_empty dest); [discriminate|].
    rewrite (walk_kinds (root w) _ dest
               (fun l => eq_trans (Hkinds l) (Hkinds0 l)) _ _ _ Hlocate).
    rewrite Hfile. reflexivity.
Qed.

End WriteRead.

(** X16 on the reference tree: a new file in the directory [empty]. *)
Lemma write_stream_read_back_witness :
  stat (root (snd (write_stream "empty/new.usm" Reference.encrypted_movie
                     ENCRYPT "shift-jis" (Reference.start []))))
    (cwd (Reference.start [])) "empty/new.usm"
  = inr (File (Reference.bytes "CRIDDKIF-frames")).
Proof.
  apply (write_stream_read_back "empty/new.usm" Reference.encrypted_movie
           ENCRYPT "shift-jis" (Reference.start []) ["empty"; "new.usm"]
           (put_node Reference.tree ["empty"; "new.usm"] (File []))).
  reflexivity.
Defined.

(** ** The path checkers *)
Section CheckerFacts.

Lemma split_snoc (p : string) :
  split "/" (p ++ "/") = (split "/" p ++ [EmptyString])%list.
Proof.
  induction p as [|c r IH]; [reflexivity|].
  change (String c r ++ "/")%string with (String c (r ++ "/")).
  cbn [split]. rewrite IH.
  destruct (Ascii.eqb c "/"); [reflexivity|].
  pose proof (split_nonempty "/" r) as Hne.
  destruct (split "/" r) as [|h t]; [contradiction | reflexivity].
Qed.

Lemma rstrip_slashes_snoc (p : string) :
  rstrip_slashes (p ++ "/") = rstrip_slashes p.
Proof.
  induction p as [|c r IH]; [reflexivity|].
  change (String c r ++ "/")%string with (String c (r ++ "/")).
  cbn [rstrip_slashes]. rewrite IH. reflexivity.
Qed.

(** The text of the path only labels the errors of a resolution. *)
Lemma walk_name (t : node) (pn pn' : string) (comps : list string) :
  forall loc l,
    walk t pn loc comps = inr l -> walk t pn' loc comps = inr l.
Proof.
  induction comps as [|x xs IH]; intros loc l H; simpl in *; [exact H|].
  destruct (node_at t loc) as [[?|?]|]; try discriminate H.
  destruct (String.eqb x "" || String.eqb x "."); [apply IH, H|].
  destruct (String.eqb x ".."); apply IH, H.
Qed.

(** A path that ends in a slash names no regular file. *)
Lemma stat_file_slash (t : node) (cwd : list string) (p : string)
  (content : list byte) :
  stat t cwd p = inr (File content) ->
  stat t cwd (p ++ "/") = inl (NotADirectoryError (p ++ "/")).
Proof.
  unfold stat, locate. destruct p as [|c r]; [discriminate|].
  change (PyInt.is_empty (String c r)) with false.
  change (PyInt.is_empty (String c r ++ "/")) with false.
  change (head_is "/" (String c r ++ "/")) with (head_is "/" (String c r)).
  cbv iota. rewrite split_snoc, walk_app.
  destruct (walk t (String c r) _ (split "/" (String c r))) as [e|loc] eqn:Hwalk;
    [discriminate|].
  destruct (node_at t loc) as [n|] eqn:Hloc; [|discriminate].
  intros Hn. injection Hn as ->.
  rewrite (walk_name _ _ (String c r ++ "/")%string _ _ _ Hwalk).
  simpl. rewrite Hloc. reflexivity.
Qed.

(** Stepping over empty components leads nowhere else. *)
Lemma walk_empty_components (t : node) (pn : string) (k : nat) :
  forall loc l,
    walk t pn loc (repeat EmptyString k) = inr l -> l = loc.
Proof.
  induction k as [|k IH]; intros loc l H; simpl in H.
  - injection H as <-. reflexivity.
  - destruct (node_at t loc) as [[?|?]|]; try discriminate H.
    apply (IH _ _ H).
Qed.

(** A run of slashes splits into empty pieces. *)
Lemma split_all_slashes (r : string) :
  contains "\" r = false -> rstrip_slashes r = EmptyString ->
  split "/" r = repeat EmptyString (S (String.length r)).
Proof.
  induction r as [|c r IH]; [reflexivity|].
  cbn [contains rstrip_slashes split String.length].
  rewrite orb_false_iff. intros [Hc Hr] Hstrip.
  destruct (rstrip_slashes r) eqn:Hrest; [|discriminate Hstrip].
  unfold is_slash in Hstrip. rewrite Hc, orb_false_r in Hstrip.
  destruct (Ascii.eqb c "/"); [|discriminate Hstrip].
  rewrite (IH Hr eq_refl). reflexivity.
Qed.

(** Without backslashes, what [rstrip] takes away are empty pieces at
    the end. *)
Lemma split_rstrip (p : string) :
  contains "\" p = false -> rstrip_slashes p <> EmptyString ->
  head_is "/" (rstrip_slashes p) = head_is "/" p
  /\ exists k,
       split "/" p = (split "/" (rstrip_slashes p) ++ repeat EmptyString k)%list.
Proof.
  induction p as [|c r IH]; [intros _ H; contradiction H; reflexivity|].
  cbn [contains]. rewrite orb_false_iff. intros [Hc Hr] Hne.
  cbn [rstrip_slashes] in *.
  destruct (rstrip_slashes r) as [|c' r'] eqn:Hrest.
  - unfold is_slash in *. rewrite Hc, orb_false_r in *.
    destruct (Ascii.eqb c "/") eqn:Hslash; [contradiction Hne; reflexivity|].
    split; [reflexivity|]. exists (String.length r).
    cbn [split]. rewrite Hslash, (split_all_slashes r Hr Hrest). reflexivity.
  - destruct (IH Hr) as (_ & k & Hk); [discriminate|].
    split; [reflexivity|]. exists k.
    change (split "/" (String c r))
      with (if Ascii.eqb c "/" then EmptyString :: split "/" r
            else match split "/" r with
                 | h :: t => String c h :: t
                 | [] => [String c EmptyString]
                 end).
    change (split "/" (String c (String c' r')))
      with (if Ascii.eqb c "/" then EmptyString :: split "/" (String c' r')
            else match split "/" (String c' r') with
                 | h :: t => String c h :: t
                 | [] => [String c EmptyString]
                 end).
    rewrite Hk. destruct (Ascii.eqb c "/"); [reflexivity|].
    pose proof (split_nonempty "/" (String c' r')) as Hsplit.
    destruct (split "/" (String c' r')) as [|h t]; [contradiction | reflexivity].
Qed.

Lemma isdir_not_isfile (t : node) (cwd : list string) (p : string) :
  isdir t cwd p = true -> isfile t cwd p = false.
Proof.
  unfold isfile, isdir. destruct (stat t cwd p) as [e|[content|es]];
    intros H; try discriminate H; reflexivity.
Qed.

End CheckerFacts.

Section CheckerTheorems.

Context {core : UsmCore}.

(** X17: the guard of [dir_path] is about the text, not the file.  For
    a regular file [p] the checker raises [FileExistsError]; for the same
    file written with a slash at the end, the test [os.path.isfile] fails,
    the slash is stripped, and the checker returns [p], the path of that
    regular file. *)
Theorem dir_path_trailing_slash (p : string) (w : world) :
  isfile (root w) (cwd w) p = true ->
  rstrip_slashes p = p ->
  dir_path p w = (inl (FileExistsError p), w)
  /\ dir_path (p ++ "/") w = (inr p, w).
Proof.
  intros Hfile Hstrip. unfold dir_path, bind, get_world. rewrite Hfile.
  split; [reflexivity|].
  destruct (isfile_inv _ _ _ Hfile) as [content Hstat].
  unfold isfile. rewrite (stat_file_slash _ _ _ _ Hstat).
  rewrite rstrip_slashes_snoc, Hstrip. reflexivity.
Qed.

(** X18: for a directory, [existing_path] returns a path of the same
    directory.  When the path has no backslash and is not made of slashes
    only, the stripped text resolves to the node the text resolved to. *)
Theorem existing_path_same_directory (p : string) (w : world)
  (es : list (string * node)) :
  contains "\" p = false ->
  rstrip_slashes p <> EmptyString ->
  stat (root w) (cwd w) p = inr (Dir es) ->
  existing_path p w = (inr (rstrip_slashes p), w)
  /\ stat (root w) (cwd w) (rstrip_slashes p) = inr (Dir es).
Proof.
  intros Hback Hne Hstat. split.
  - unfold existing_path, bind, get_world, isfile, isdir. rewrite Hstat. reflexivity.
  - destruct (split_rstrip p Hback Hne) as (Hhead & k & Hsplit).
    revert Hstat. unfold stat, locate.
    destruct (PyInt.is_empty p); [discriminate|].
    destruct (rstrip_slashes p) as [|c r] eqn:Hq; [contradiction Hne; reflexivity|].
    change (PyInt.is_empty (String c r)) with false. cbv iota.
    rewrite Hhead, Hsplit, walk_app.
    destruct (walk (root w) p (if head_is "/" p then [] else cwd w)
                (split "/" (String c r))) as [e|l1] eqn:Hwalk; [discriminate|].
    rewrite (walk_name _ p (String c r) _ _ _ Hwalk).
    destruct (walk (root w) p l1 (repeat EmptyString k)) as [e|loc] eqn:Hrest;
      [discriminate|].
    rewrite (walk_empty_components _ _ _ _ _ Hrest).
    destruct (node_at (root w) l1); [auto | discriminate].
Qed.

(** X19: what [existing_path] returns need not exist.  A path made of
    slashes only, the root directory, is stripped to the empty string,
    which names nothing: [os.path.exists] is false for it, and the
    checker itself rejects it with [FileNotFoundError]. *)
Theorem existing_path_root_stripped_away (p : string) (w : world) :
  rstrip_slashes p = EmptyString ->
  isdir (root w) (cwd w) p = true ->
  existing_path p w = (inr EmptyString, w)
  /\ path_exists (root w) (cwd w) EmptyString = false
  /\ existing_path EmptyString w = (inl (FileNotFoundError EmptyString), w).
Proof.
  intros Hstrip Hdir. split; [|split].
  - unfold existing_path, bind, get_world.
    rewrite (isdir_not_isfile _ _ _ Hdir), Hdir, Hstrip. reflexivity.
  - reflexivity.
  - reflexivity.
Qed.

End CheckerTheorems.

(** X17 on [work/a.usm]. *)
Lemma dir_path_trailing_slash_witness :
  dir_path "work/a.usm" (Reference.start [])
  = (inl (FileExistsError "work/a.usm"), Reference.start [])
  /\ dir_path ("work/a.usm" ++ "/") (Reference.start [])
     = (inr "work/a.usm", Reference.start []).
Proof.
  apply (dir_path_trailing_slash "work/a.usm" (Reference.start []));
    reflexivity.
Defined.

(** X18 on [../empty//], seen from the directory [good]. *)
Lemma existing_path_same_directory_witness :
  existing_path "../empty//" (Reference.start ["good"])
  = (inr (rstrip_slashes "../empty//"), Reference.start ["good"])
  /\ stat (root (Reference.start ["good"])) (cwd (Reference.start ["good"]))
       (rstrip_slashes "../empty//") = inr (Dir []).
Proof.
  apply (existing_path_same_directory "../empty//" (Reference.start ["good"]) []);
    [reflexivity | discriminate | reflexivity].
Defined.

(** X19 on [/]. *)
Lemma existing_path_root_stripped_away_witness :
  existing_path "/" (Reference.start ["work"])
  = (inr EmptyString, Reference.start ["work"])
  /\ path_exists (root (Reference.start ["work"])) (cwd (Reference.start ["work"]))
       EmptyString = false
  /\ existing_path EmptyString (Reference.start ["work"])
     = (inl (FileNotFoundError EmptyString), Reference.start ["work"]).
Proof.
  apply (existing_path_root_stripped_away "/" (Reference.start ["work"]));
    reflexivity.
Defined.

(** ** [probe_usm] on a container that does not parse *)
Section ProbeParseError.

Context {core : UsmCore}.

(** One turn of the loop on a file that [Usm.open] rejects. *)
Lemma probe_one_parse_error (input output temp_dir encoding : string)
  (total i : nat) (w : world) (loc : list string) (t : node) (message : string) :
  open_wb (root w) (cwd w)
    (path_join output (basename input ++ "_" ++ hd "" (entropy w) ++ ".log"))
  = inr (loc, t) ->
  Usm_open t (cwd w) (UStr input) (Some encoding) None
  = inl (ValueError message) ->
  probe_one input output temp_dir encoding total i (UStr input) w
  = (inr tt,
     mkWorld t (cwd w)
       (trace w
        ++ [EvPrint (("Processing " ++ string_of_nat (i + 1) ++ " of "
                      ++ string_of_nat total) ++ nl);
            EvLog (path_join output
                     (basename input ++ "_" ++ hd "" (entropy w) ++ ".log"))
              "INFO" "Info";
            EvUsmOpen (UStr input) (Some encoding) None;
            EvLog (path_join output
                     (basename input ++ "_" ++ hd "" (entropy w) ++ ".log"))
              "ERROR" "Error occurred in parsing usm file"])%list
       (tl (entropy w))).
Proof.
  intros Hlog Hopen.
  cbv beta iota delta [probe_one bind print emit random_str get_world lift
                         set_root logging on_ValueError try_except ret usm_open
                         fspath].
  cbn [root cwd trace entropy]. rewrite Hlog.
  cbn [root cwd trace entropy]. rewrite Hopen.
  cbn [root cwd trace entropy].
  rewrite <- !app_assoc. reflexivity.
Qed.

(** X20: [probe_usm] handles what [encrypt_usm] does not.  Given a
    single file with a good signature on which [Usm.open] raises
    [ValueError], the error is logged and the loop goes on: the command
    removes the temporary directory, prints that the probe is complete
    and returns, and [demux] and [ffmpeg.probe] are never called. *)
Theorem probe_usm_parse_error_logged (input output ffprobe encoding : string)
  (w w2 w3 : world) (content : list byte) (temp_dir : string)
  (loc temp_loc : list string) (t : node) (message : string) :
  stat (root w) (cwd w) input = inr (File content) ->
  is_usm (firstn 4 content) = true ->
  makedirs output w = (inr tt, w2) ->
  mkdtemp w2 = (inr temp_dir, w3) ->
  open_wb (root w3) (cwd w3)
    (path_join output (basename input ++ "_" ++ hd "" (entropy w3) ++ ".log"))
  = inr (loc, t) ->
  Usm_open t (cwd w3) (UStr input) (Some encoding) None
  = inl (ValueError message) ->
  locate t (cwd w3) temp_dir = inr temp_loc ->
  is_dir_at t temp_loc = true ->
  probe_usm input (Some output) ffprobe encoding w
  = (inr tt,
     mkWorld (remove_node t temp_loc) (cwd w3)
       (trace w3
        ++ [EvPrint ("Processing 1 of 1" ++ nl);
            EvLog (path_join output
                     (basename input ++ "_" ++ hd "" (entropy w3) ++ ".log"))
              "INFO" "Info";
            EvUsmOpen (UStr input) (Some encoding) None;
            EvLog (path_join output
                     (basename input ++ "_" ++ hd "" (entropy w3) ++ ".log"))
              "ERROR" "Error occurred in parsing usm file";
            EvPrint (("Probe complete. All logs are stored in "
                      ++ dquote ++ output ++ dquote ++ " folder") ++ nl)])%list
       (tl (entropy w3))).
Proof.
  intros Hstat Hgood Hmk Htmp Hlog Hopen Hloc Hdir.
  unfold probe_usm. unfold bind at 1.
  rewrite (find_usm_file_good w input content Hstat Hgood).
  unfold bind at 1. unfold bind at 1. rewrite Hmk. unfold ret at 1.
  unfold bind at 1. rewrite Htmp.
  unfold bind at 1. unfold find_ffprobe, ret at 1.
  cbn [enumerate_from for_each fst snd List.length].
  unfold bind at 1. unfold bind at 1.
  rewrite (probe_one_parse_error input output temp_dir encoding 1 0 w3 loc t
             message Hlog Hopen).
  unfold ret at 1. unfold bind at 1.
  cbv beta iota delta [rmtree bind get_world lift].
  cbn [root cwd trace entropy]. rewrite Hloc.
  unfold is_dir_at in Hdir.
  destruct (node_at t temp_loc) as [[c|es]|]; try discriminate Hdir.
  cbv beta iota delta [set_root print emit].
  cbn [root cwd trace entropy].
  rewrite <- !app_assoc. reflexivity.
Qed.

End ProbeParseError.

(** X20 on [work/short.usm], which has the signature and nothing else. *)
Lemma probe_usm_parse_error_logged_witness :
  fst (probe_usm "work/short.usm" (Some "logs") "." "shift-jis"
         (Reference.start []))
  = inr tt
  /\ node_at (root (snd (probe_usm "work/short.usm" (Some "logs") "."
                           "shift-jis" (Reference.start []))))
       ["tmp"; "tmpabc"]
     = None
  /\ existsb (fun e => match e with
                       | EvDemux _ _ | EvProbe _ => true
                       | _ => false
                       end)
       (trace (snd (probe_usm "work/short.usm" (Some "logs") "."
                      "shift-jis" (Reference.start [])))) = false.
Proof.
  rewrite (probe_usm_parse_error_logged "work/short.usm" "logs" "." "shift-jis"
             (Reference.start [])
             (snd (makedirs "logs" (Reference.start [])))
             (snd (mkdtemp (snd (makedirs "logs" (Reference.start [])))))
             (firstn 4 Reference.plain_usm) "/tmp/tmpabc"
             ["logs"; "short.usm_def.log"] ["tmp"; "tmpabc"]
             (put_node
                (root (snd (mkdtemp (snd (makedirs "logs" (Reference.start []))))))
                ["logs"; "short.usm_def.log"] (File []))
             "MalformedChunk"
             eq_refl eq_refl eq_refl eq_refl eq_refl eq_refl eq_refl eq_refl).
  repeat split.
Defined.
